(** * smb_voice: the tool layer and the call-status writers, embedded in Rocq

    The development follows the TypeScript sources:
    - [src/lib/database.ts]   the [Database] helper class (rows, CRUD methods);
    - [src/lib/database.ts]   also [getSupabaseClient];
    - [src/tools/appointment.ts], [src/tools/lead.ts], [src/tools/transfer.ts]
      the five LLM tools;
    - [src/agent.ts]          the agent [entry], [updateFinalCallStats] and
      the registry of the tools;
    - the Express API server  the [POST /api/twilio/status] handler and the
      [GET /api/calls/:callId] route.

    Conventions of the embedding.
    - A JavaScript string is a [string] that holds the UTF-8 encoding of
      the text.  An optional JavaScript string ([string | undefined | null])
      is an [option string]; JavaScript truthiness of such a value is
      [truthy] (absent and the empty string are falsy).
    - A [Date] is an [option Z]: the time value in milliseconds since the
      epoch, [None] for an Invalid Date (time value NaN).  Columns that hold
      an ISO-8601 text of an instant keep the instant.
    - [async] functions are computations in the monad [M]: they thread the
      [World] (the tables of the store and the trace of outbound requests)
      and end in a value or in a thrown exception.  A thrown exception keeps
      the writes made before it, as the store has no transaction.
    - What the process cannot decide (the clock, the engine's date parser and
      formatter, the replies of Google Calendar, HubSpot and Twilio, faults of
      the store) is read from an [Env].
    - Calls to [logger] have no effect on the store nor on the result and are
      left out. *)

From Stdlib Require Import ZArith String Ascii List Bool Lia.
From stdpp Require Import base option list gmap strings pretty.

Open Scope string_scope.
Open Scope list_scope.
Open Scope Z_scope.

(** ** JavaScript values *)

(** [!!s] for an optional string. *)
Definition truthy (s : option string) : bool :=
  match s with
  | None => false
  | Some s => negb (String.eqb s "")
  end.

(** [a || b] where [a] is an optional string. *)
Definition or_else (a b : option string) : option string :=
  if truthy a then a else b.

(** [a || d] where [d] is a string. *)
Definition or_default (a : option string) (d : string) : string :=
  match or_else a (Some d) with
  | Some s => s
  | None => d
  end.

(** [!!b] for an optional boolean. *)
Definition truthy_bool (b : option bool) : bool :=
  match b with
  | Some true => true
  | _ => false
  end.

(** A [Date]: its time value, [None] when it is NaN. *)
Definition Date : Type := option Z.

(** [a < b] on dates (both sides become numbers; NaN compares false). *)
Definition Date_lt (a b : Date) : bool :=
  match a, b with
  | Some x, Some y => x <? y
  | _, _ => false
  end.

(** ECMAScript TimeClip: a time value beyond 8.64e15 ms is NaN. *)
Definition TimeClip (t : Z) : Date :=
  if Z.abs t <=? 8640000000000000 then Some t else None.

(** White space as [String.prototype.trim] and [parseInt] remove it: the
    WhiteSpace and LineTerminator code points of ECMAScript.  Those of one
    byte are TAB, LF, VT, FF, CR and the space. *)
Definition is_space (c : ascii) : bool :=
  match nat_of_ascii c with
  | 9%nat | 10%nat | 11%nat | 12%nat | 13%nat | 32%nat => true
  | _ => false
  end.

Definition byte (c : ascii) : N := N_of_ascii c.

(** Of two bytes: U+00A0 (no-break space), [C2 A0]. *)
Definition is_space2 (c1 c2 : ascii) : bool :=
  (byte c1 =? 0xC2)%N && (byte c2 =? 0xA0)%N.

(** Of three bytes: U+1680 [E1 9A 80]; U+2000 to U+200A [E2 80 80] to
    [E2 80 8A]; the line and paragraph separators U+2028 and U+2029
    [E2 80 A8], [E2 80 A9]; U+202F [E2 80 AF]; U+205F [E2 81 9F]; U+3000
    [E3 80 80]; U+FEFF [EF BB BF]. *)
Definition is_space3 (c1 c2 c3 : ascii) : bool :=
  ((byte c1 =? 0xE1) && (byte c2 =? 0x9A) && (byte c3 =? 0x80)
   || (byte c1 =? 0xE2) && (byte c2 =? 0x80)
      && ((0x80 <=? byte c3) && (byte c3 <=? 0x8A)
          || (byte c3 =? 0xA8) || (byte c3 =? 0xA9) || (byte c3 =? 0xAF))
   || (byte c1 =? 0xE2) && (byte c2 =? 0x81) && (byte c3 =? 0x9F)
   || (byte c1 =? 0xE3) && (byte c2 =? 0x80) && (byte c3 =? 0x80)
   || (byte c1 =? 0xEF) && (byte c2 =? 0xBB) && (byte c3 =? 0xBF))%N.

(** [s.trimStart()]: the text after its leading white space. *)
Fixpoint trim_start (s : string) : string :=
  match s with
  | EmptyString => EmptyString
  | String c1 r1 =>
      if is_space c1 then trim_start r1
      else
        match r1 with
        | String c2 r2 =>
            if is_space2 c1 c2 then trim_start r2
            else
              match r2 with
              | String c3 r3 => if is_space3 c1 c2 c3 then trim_start r3 else s
              | EmptyString => s
              end
        | EmptyString => s
        end
  end.

(** The text is white space from its first byte to its last. *)
Fixpoint blank (s : string) : bool :=
  match s with
  | EmptyString => true
  | String c1 r1 =>
      if is_space c1 then blank r1
      else
        match r1 with
        | String c2 r2 =>
            if is_space2 c1 c2 then blank r2
            else
              match r2 with
              | String c3 r3 => if is_space3 c1 c2 c3 then blank r3 else false
              | EmptyString => false
              end
        | EmptyString => false
        end
  end.

(** [s.trimEnd()]: the text up to the point from which only white space
    follows. *)
Fixpoint trim_end (s : string) : string :=
  match s with
  | EmptyString => EmptyString
  | String c r => if blank s then EmptyString else String c (trim_end r)
  end.

Definition trim (s : string) : string := trim_end (trim_start s).

(** [s.split(' ')[0]] and [s.split(' ').slice(1).join(' ')]: the text before
    the first space and the text after it. *)
Fixpoint split_first_space (s : string) : string * string :=
  match s with
  | EmptyString => (EmptyString, EmptyString)
  | String c r =>
      if Ascii.eqb c " "%char then (EmptyString, r)
      else let '(a, b) := split_first_space r in (String c a, b)
  end.

(** ** Rows of the store ([src/lib/database.ts]) *)

Inductive CallStatus := in_progress | completed | failed | abandoned.

#[global] Instance CallStatus_eq_dec : EqDecision CallStatus.
Proof. solve_decision. Defined.

Record Hours := { open : string; close : string }.

Module Business.
Record t := mk {
  id : string;
  timezone : option string;
  google_calendar_connected : option bool;
  google_calendar_id : option string;
  hubspot_api_key : option string;
  business_hours : option (gmap string Hours);
}.
End Business.

Module PhoneNumber.
Record t := mk {
  id : string;
  business_id : string;
  forward_to : option string;
}.
End PhoneNumber.

Module Call.
Record t := mk {
  id : string;
  business_id : string;
  phone_number_id : option string;
  caller_name : option string;
  caller_email : option string;
  twilio_call_sid : option string;
  twilio_status : option string;
  started_at : Z;
  answered_at : option Z;
  ended_at : option Z;
  duration_seconds : option Z;
  status : CallStatus;
  outcome : option string;
  transferred_to_human : option bool;
  notes : option string;
}.

(** [Partial<Call>] as the core writes it: a field that is absent (or
    [undefined], which the JSON body drops) leaves the column alone.  The
    duration can also be written as [null] (a NaN in the JSON body). *)
Record patch := mk_patch {
  set_caller_name : option string;
  set_caller_email : option string;
  set_twilio_status : option string;
  set_answered_at : option Z;
  set_ended_at : option Z;
  set_duration_seconds : option (option Z);
  set_status : option CallStatus;
  set_outcome : option string;
  set_transferred_to_human : option bool;
  set_notes : option string;
}.

Definition over {A} (new : option A) (old : option A) : option A :=
  match new with Some _ => new | None => old end.

Definition apply (p : patch) (c : t) : t :=
  mk (id c) (business_id c) (phone_number_id c)
     (over (set_caller_name p) (caller_name c))
     (over (set_caller_email p) (caller_email c))
     (twilio_call_sid c)
     (over (set_twilio_status p) (twilio_status c))
     (started_at c)
     (over (set_answered_at p) (answered_at c))
     (over (set_ended_at p) (ended_at c))
     (default (duration_seconds c) (set_duration_seconds p))
     (default (status c) (set_status p))
     (over (set_outcome p) (outcome c))
     (over (set_transferred_to_human p) (transferred_to_human c))
     (over (set_notes p) (notes c)).
End Call.

Module Lead.
Record t := mk {
  id : string;
  business_id : string;
  call_id : option string;
  name : option string;
  email : option string;
  phone : option string;
  company : option string;
  source : option string;
  status : option string;
  interest_level : option string;
  hubspot_contact_id : option string;
  synced_at : option Z;
  notes : option string;
}.

(** The two columns the core writes after the insert. *)
Record patch := mk_patch {
  set_hubspot_contact_id : option string;
  set_synced_at : option Z;
}.

Definition apply (p : patch) (l : t) : t :=
  mk (id l) (business_id l) (call_id l) (name l) (email l) (phone l)
     (company l) (source l) (status l) (interest_level l)
     (Call.over (set_hubspot_contact_id p) (hubspot_contact_id l))
     (Call.over (set_synced_at p) (synced_at l))
     (notes l).
End Lead.

Module Appointment.
Record t := mk {
  id : string;
  business_id : string;
  call_id : option string;
  title : string;
  description : option string;
  scheduled_at : Z;
  duration_minutes : Z;
  attendee_name : option string;
  attendee_email : option string;
  attendee_phone : option string;
  google_calendar_event_id : option string;
  google_meet_link : option string;
  status : option string;
}.
End Appointment.

(** A value of an [event_data] object. *)
Inductive Datum := DText (s : string) | DInstant (t : Z).

Module CallEvent.
Record t := mk {
  call_id : string;
  event_type : string;
  event_data : list (string * Datum);
}.
End CallEvent.

(** A property of an object literal; an [undefined] value is dropped when the
    object is serialised. *)
Definition prop (k : string) (v : option string) : list (string * Datum) :=
  match v with
  | Some s => [(k, DText s)]
  | None => []
  end.

(** ** Outbound requests and the world *)

Inductive Outbound :=
| CalendarInsert (calendarId summary : string) (start_ end_ : Z)
    (timeZone attendee : string)
| HubSpotCreate (apiKey email firstname lastname phone : string)
| TwilioRedirect (callSid transferNumber : string).

(** What the agent job did to its session ([src/agent.ts]). *)
Inductive AgentStep :=
| SessionConstructed
| ShutdownCallbackAdded
| SessionStarted (businessId callId : string)
| RoomConnected.

Record World := mkWorld {
  businesses : gmap string Business.t;
  phone_numbers : gmap string PhoneNumber.t;
  calls : gmap string Call.t;
  leads : gmap string Lead.t;
  appointments : gmap string Appointment.t;
  call_events : list CallEvent.t;
  outbound : list Outbound;
  agent_log : list AgentStep;
}.

Definition with_calls (f : gmap string Call.t -> gmap string Call.t) (w : World) : World :=
  mkWorld (businesses w) (phone_numbers w) (f (calls w)) (leads w)
          (appointments w) (call_events w) (outbound w) (agent_log w).

Definition with_leads (f : gmap string Lead.t -> gmap string Lead.t) (w : World) : World :=
  mkWorld (businesses w) (phone_numbers w) (calls w) (f (leads w))
          (appointments w) (call_events w) (outbound w) (agent_log w).

Definition with_appointments
  (f : gmap string Appointment.t -> gmap string Appointment.t) (w : World) : World :=
  mkWorld (businesses w) (phone_numbers w) (calls w) (leads w)
          (f (appointments w)) (call_events w) (outbound w) (agent_log w).

Definition with_call_events (f : list CallEvent.t -> list CallEvent.t) (w : World) : World :=
  mkWorld (businesses w) (phone_numbers w) (calls w) (leads w)
          (appointments w) (f (call_events w)) (outbound w) (agent_log w).

Definition with_outbound (f : list Outbound -> list Outbound) (w : World) : World :=
  mkWorld (businesses w) (phone_numbers w) (calls w) (leads w)
          (appointments w) (call_events w) (f (outbound w)) (agent_log w).

Definition with_agent_log (f : list AgentStep -> list AgentStep) (w : World) : World :=
  mkWorld (businesses w) (phone_numbers w) (calls w) (leads w)
          (appointments w) (call_events w) (outbound w) (f (agent_log w)).

(** ** Exceptions and the environment *)

Inductive StoreOp :=
| OpGetBusiness | OpGetCall | OpSelectPhoneNumber | OpSelectCallBySid
| OpCreateAppointment | OpCreateLead | OpUpdateLead | OpUpdateCall
| OpInsertCallEvent.

(** How the store answers one request: it serves it, it answers with an
    [error] object (which the [Database] methods turn into a throw, a [null]
    or nothing, each as written), or the client call itself rejects. *)
Inductive Fault := NoFault | ErrorReply | ClientThrows.

#[global] Instance Fault_eq_dec : EqDecision Fault.
Proof. solve_decision. Defined.

Inductive Exn :=
| Error (message : string)
| RangeError (message : string)
| TypeError (message : string)
| SyntaxError (message : string)
| PostgrestError (op : StoreOp)
| ClientRejected (op : StoreOp)
| FetchFailed (service : string).

(** The reply to one [fetch]: the promise rejects, or a response arrives
    with its [ok] flag and the [id] of its JSON body. *)
Inductive Reply :=
| Rejects
| Response (ok : bool) (id : option string).

Record Env := mkEnv {
  (** [new Date()]: the clock of the invocation (the time that passes within
      one invocation is not modelled). *)
  env_now : Z;
  (** The time zone of the server process. *)
  env_zone : string;
  (** The engine's date parser: the zone in which a text without offset is
      read, the text; [None] is an Invalid Date. *)
  env_parse : string -> string -> Date;
  (** [toLocaleDateString] and [toLocaleTimeString] of the confirmation. *)
  env_format_date : Z -> string;
  env_format_time : Z -> string;
  (** Whether [Intl] knows a time-zone name. *)
  env_zone_known : string -> bool;
  (** Weekday name (for a style and a zone) and 24-hour [HH:MM] text (for a
      zone) of an instant. *)
  env_weekday : string -> string -> Z -> string;
  env_hhmm : string -> Z -> string;
  (** Faults of the store, by operation. *)
  env_fault : StoreOp -> Fault;
  (** Google Calendar [events.insert]: [None] when the Google client throws,
      otherwise [data.id] and [data.hangoutLink] of the response. *)
  env_calendar : option (option string * option string);
  (** HubSpot and Twilio replies. *)
  env_hubspot : Reply;
  env_twilio_credentials : bool;
  env_twilio : Reply;
  (** The agent job: whether the provider adapters and the session can be
      built, whether [session.start] and [ctx.connect] resolve. *)
  env_session_builds : bool;
  env_session_starts : bool;
  env_room_connects : bool;
}.

(** ** The monad of [async] code *)

Definition M (A : Type) : Type := World -> World * (Exn + A).

Definition ret {A} (a : A) : M A := fun w => (w, inr a).

Definition throw {A} (e : Exn) : M A := fun w => (w, inl e).

Definition bind {A B} (m : M A) (k : A -> M B) : M B :=
  fun w =>
    match m w with
    | (w', inr a) => k a w'
    | (w', inl e) => (w', inl e)
    end.

(** [try { m } catch (e) { h e }]: the handler runs in the world the body
    left behind. *)
Definition try_catch {A} (m : M A) (h : Exn -> M A) : M A :=
  fun w =>
    match m w with
    | (w', inr a) => (w', inr a)
    | (w', inl e) => h e w'
    end.

Definition get_world : M World := fun w => (w, inr w).

Definition modify (f : World -> World) : M unit := fun w => (f w, inr tt).

Notation "'let*' x ':=' m 'in' k" := (bind m (fun x => k))
  (at level 10, x name, m at level 200, k at level 200,
   format "'[v' 'let*'  x  :=  m  'in' '/' k ']'").
Notation "'let*' ' p ':=' m 'in' k" := (bind m (fun p => k))
  (at level 10, p pattern, m at level 200, k at level 200,
   format "'[v' 'let*'  ' p  :=  m  'in' '/' k ']'").

(** The final world and the result of a run. *)
Definition world_of {A} (r : World * (Exn + A)) : World := fst r.
Definition result_of {A} (r : World * (Exn + A)) : Exn + A := snd r.

(** ** The [Database] class ([src/lib/database.ts]) *)

Section Database.
Variable env : Env.

(** [if (error) return null; return data;]: [single()] answers with an
    error when no row matches. *)
Definition getBusiness (id : string) : M (option Business.t) :=
  match env_fault env OpGetBusiness with
  | ClientThrows => throw (ClientRejected OpGetBusiness)
  | ErrorReply => ret None
  | NoFault => let* w := get_world in ret (businesses w !! id)
  end.

Definition getCall (id : string) : M (option Call.t) :=
  match env_fault env OpGetCall with
  | ClientThrows => throw (ClientRejected OpGetCall)
  | ErrorReply => ret None
  | NoFault => let* w := get_world in ret (calls w !! id)
  end.

(** [update(data).eq('id', id).select().single()], then
    [if (error) throw error]. *)
Definition updateCall (id : string) (data : Call.patch) : M Call.t :=
  match env_fault env OpUpdateCall with
  | ClientThrows => throw (ClientRejected OpUpdateCall)
  | ErrorReply => throw (PostgrestError OpUpdateCall)
  | NoFault =>
      let* w := get_world in
      match calls w !! id with
      | None => throw (PostgrestError OpUpdateCall)
      | Some c =>
          let c' := Call.apply data c in
          let* _ := modify (with_calls <[id := c']>) in
          ret c'
      end
  end.

(** [insert(data).select().single()]: the store chooses the key of the
    new row, one that no row of the table has. *)
Definition createLead (data : string -> Lead.t) : M Lead.t :=
  match env_fault env OpCreateLead with
  | ClientThrows => throw (ClientRejected OpCreateLead)
  | ErrorReply => throw (PostgrestError OpCreateLead)
  | NoFault =>
      let* w := get_world in
      let id := fresh (dom (leads w)) in
      let* _ := modify (with_leads <[id := data id]>) in
      ret (data id)
  end.

Definition updateLead (id : string) (data : Lead.patch) : M Lead.t :=
  match env_fault env OpUpdateLead with
  | ClientThrows => throw (ClientRejected OpUpdateLead)
  | ErrorReply => throw (PostgrestError OpUpdateLead)
  | NoFault =>
      let* w := get_world in
      match leads w !! id with
      | None => throw (PostgrestError OpUpdateLead)
      | Some l =>
          let l' := Lead.apply data l in
          let* _ := modify (with_leads <[id := l']>) in
          ret l'
      end
  end.

Definition createAppointment (data : string -> Appointment.t) : M Appointment.t :=
  match env_fault env OpCreateAppointment with
  | ClientThrows => throw (ClientRejected OpCreateAppointment)
  | ErrorReply => throw (PostgrestError OpCreateAppointment)
  | NoFault =>
      let* w := get_world in
      let id := fresh (dom (appointments w)) in
      let* _ := modify (with_appointments <[id := data id]>) in
      ret (data id)
  end.

(** The method awaits the insert and never looks at its [error]: an error
    reply is swallowed and no row is written. *)
Definition logCallEvent (callId eventType : string)
    (eventData : list (string * Datum)) : M unit :=
  match env_fault env OpInsertCallEvent with
  | ClientThrows => throw (ClientRejected OpInsertCallEvent)
  | ErrorReply => ret tt
  | NoFault =>
      modify (with_call_events (fun l => l ++ [CallEvent.mk callId eventType eventData]))
  end.

(** [db.client.from('phone_numbers').select('*').eq('id', id).single()],
    of which the caller keeps [data] only. *)
Definition selectPhoneNumber (id : string) : M (option PhoneNumber.t) :=
  match env_fault env OpSelectPhoneNumber with
  | ClientThrows => throw (ClientRejected OpSelectPhoneNumber)
  | ErrorReply => ret None
  | NoFault => let* w := get_world in ret (phone_numbers w !! id)
  end.
End Database.

(** ** The call context of the tools ([src/agent.ts], [SMBVoiceAssistant]) *)

Record ToolContext := mkContext {
  businessId : string;
  callId : string;
  callerPhone : option string;
  twilioCallSid : option string;
}.

(** [date.toISOString()]: the instant itself, or a [RangeError] on an
    Invalid Date. *)
Definition toISOString (d : Date) : M Z :=
  match d with
  | Some t => ret t
  | None => throw (RangeError "Invalid time value")
  end.

Definition record_outbound (o : Outbound) : M unit :=
  modify (with_outbound (fun l => l ++ [o])).

(** ** book_appointment ([src/tools/appointment.ts]) *)

Module AppointmentParams.
Record t := mk {
  date : string;
  time : string;
  customer_name : string;
  customer_email : string;
  customer_phone : option string;
  purpose : option string;
  duration_minutes : option Z;
}.
End AppointmentParams.

Definition msg_date_passed : string :=
  "I apologize, but that date and time has already passed. Could you provide a future date and time for your appointment?".

Definition msg_booking_failed : string :=
  "I apologize, but I encountered an issue while booking your appointment. Let me transfer you to our team who can help you schedule this manually.".

Definition msg_booked (formattedDate formattedTime : string) : string :=
  "Perfect! I've successfully booked your appointment for " +:+ formattedDate
    +:+ " at " +:+ formattedTime +:+ ".".

Definition msg_meet_link (customer_email : string) : string :=
  " A calendar invitation with a Google Meet link has been sent to "
    +:+ customer_email +:+ ".".

Definition msg_confirmation_email (customer_email : string) : string :=
  " You'll receive a confirmation email at " +:+ customer_email +:+ " shortly.".

Section Tools.
Variable env : Env.
Variable context : ToolContext.

(** The body of the inner [try] of book_appointment: build the event (its
    two [toISOString] can throw), insert it, keep [data.id || undefined] and
    [data.hangoutLink || undefined]. *)
Definition calendar_events_insert (business : Business.t) (calendarId : string)
    (scheduledAt : Date) (a : AppointmentParams.t) (duration_minutes : Z)
    : M (option string * option string) :=
  let summary :=
    or_default a.(AppointmentParams.purpose)
      ("Meeting with " +:+ a.(AppointmentParams.customer_name)) in
  let timeZone := or_default business.(Business.timezone) "America/New_York" in
  let* start_ := toISOString scheduledAt in
  let* end_ := toISOString (TimeClip (start_ + duration_minutes * 60000)) in
  let* _ := record_outbound
              (CalendarInsert calendarId summary start_ end_ timeZone
                 a.(AppointmentParams.customer_email)) in
  match env_calendar env with
  | None => throw (FetchFailed "calendar")
  | Some (id, hangoutLink) => ret (or_else id None, or_else hangoutLink None)
  end.

(** [if (business.google_calendar_connected && business.google_calendar_id)]
    with its [try]/[catch]: [calendarEventId] and [googleMeetLink] stay
    [undefined] unless the insert returns. *)
Definition calendar_enrichment (business : Business.t) (scheduledAt : Date)
    (a : AppointmentParams.t) (duration_minutes : Z)
    : M (option string * option string) :=
  match business.(Business.google_calendar_id) with
  | Some calendarId =>
      if truthy_bool business.(Business.google_calendar_connected)
         && truthy (Some calendarId)
      then
        try_catch
          (calendar_events_insert business calendarId scheduledAt a duration_minutes)
          (fun _ => ret (None, None))
      else ret (None, None)
  | None => ret (None, None)
  end.

(** [new Date(`${date}T${time}:00`)]: a date-time text without offset,
    which the engine reads as local time of the server process. *)
Definition scheduledAt (a : AppointmentParams.t) : Date :=
  env_parse env (env_zone env)
    (a.(AppointmentParams.date) +:+ "T" +:+ a.(AppointmentParams.time) +:+ ":00").

(** The object passed to [db.createAppointment]; the store adds the key. *)
Definition appointment_data (a : AppointmentParams.t) (scheduled duration_minutes : Z)
    (calendarEventId googleMeetLink : option string) (id : string) : Appointment.t :=
  Appointment.mk id context.(businessId) (Some context.(callId))
    (or_default a.(AppointmentParams.purpose)
       ("Meeting with " +:+ a.(AppointmentParams.customer_name)))
    a.(AppointmentParams.purpose)
    scheduled
    duration_minutes
    (Some a.(AppointmentParams.customer_name))
    (Some a.(AppointmentParams.customer_email))
    (or_else a.(AppointmentParams.customer_phone) context.(callerPhone))
    calendarEventId
    googleMeetLink
    (Some "scheduled").

(** What follows the insert: the audit event, the call outcome, the
    confirmation. *)
Definition record_booking (a : AppointmentParams.t) (scheduled : Z)
    (appointment : Appointment.t) (googleMeetLink : option string) : M string :=
  let* _ :=
    logCallEvent env context.(callId) "appointment_booked"
      [("appointment_id", DText appointment.(Appointment.id));
       ("scheduled_at", DInstant scheduled);
       ("customer_name", DText a.(AppointmentParams.customer_name));
       ("customer_email", DText a.(AppointmentParams.customer_email))] in
  let* _ :=
    updateCall env context.(callId)
      (Call.mk_patch None None None None None None None
         (Some "appointment_booked") None None) in
  let confirmationMessage :=
    msg_booked (env_format_date env scheduled) (env_format_time env scheduled) in
  if truthy googleMeetLink
  then ret (confirmationMessage +:+ msg_meet_link a.(AppointmentParams.customer_email))
  else ret (confirmationMessage
              +:+ msg_confirmation_email a.(AppointmentParams.customer_email)).

Definition createBookAppointmentTool (a : AppointmentParams.t) : M string :=
  let duration_minutes := default 30 a.(AppointmentParams.duration_minutes) in
  try_catch
    (let scheduledAt := scheduledAt a in
     if Date_lt scheduledAt (Some (env_now env)) then ret msg_date_passed
     else
       let* business := getBusiness env context.(businessId) in
       match business with
       | None => throw (Error "Business not found")
       | Some business =>
           let* '(calendarEventId, googleMeetLink) :=
             calendar_enrichment business scheduledAt a duration_minutes in
           let* scheduled := toISOString scheduledAt in
           let* appointment :=
             createAppointment env
               (appointment_data a scheduled duration_minutes calendarEventId
                  googleMeetLink) in
           record_booking a scheduled appointment googleMeetLink
       end)
    (fun _ => ret msg_booking_failed).
End Tools.

(** ** create_lead ([src/tools/lead.ts]) *)

Module LeadParams.
Record t := mk {
  name : string;
  email : option string;
  phone : option string;
  company : option string;
  interest_level : option string;
  notes : option string;
}.
End LeadParams.

Definition msg_need_contact : string :=
  "I need either an email address or phone number to save your information. Could you provide one of those?".

Definition msg_lead_failed : string :=
  "I apologize, but I had trouble saving your information. Let me make sure our team gets your details - could you repeat your contact information?".

Definition msg_lead_saved (name : string) (email phone : option string) : string :=
  "Great! I've saved your information, " +:+ name +:+ ". "
    +:+ (if truthy email
         then "We'll send you more details at " +:+ default "" email +:+ "."
         else "We'll follow up with you at "
                +:+ or_default phone "the number you called from" +:+ ".")
    +:+ " Is there anything else I can help you with today?".

Section LeadTool.
Variable env : Env.
Variable context : ToolContext.

(** [createHubSpotContact]: one [fetch]; a response that is not [ok]
    throws, otherwise the [id] of the JSON body is returned. *)
Definition createHubSpotContact (a : LeadParams.t) (apiKey : string)
    : M (option string) :=
  let '(firstname, lastname) := split_first_space a.(LeadParams.name) in
  let* _ := record_outbound
              (HubSpotCreate apiKey
                 (or_default a.(LeadParams.email) "")
                 firstname lastname
                 (or_default (or_else a.(LeadParams.phone) context.(callerPhone)) "")) in
  match env_hubspot env with
  | Rejects => throw (FetchFailed "hubspot")
  | Response false _ => throw (Error "HubSpot API error")
  | Response true id => ret id
  end.

(** The object passed to [db.createLead]; the store adds the key. *)
Definition lead_data (a : LeadParams.t) (interest_level : string) (id : string)
    : Lead.t :=
  Lead.mk id context.(businessId) (Some context.(callId))
    (Some a.(LeadParams.name))
    a.(LeadParams.email)
    (or_else a.(LeadParams.phone) context.(callerPhone))
    a.(LeadParams.company)
    (Some "voice_call")
    (Some "new")
    (Some interest_level)
    None None
    a.(LeadParams.notes).

(** [if (business.hubspot_api_key)] with its [try]/[catch]: create the
    remote contact, then write its id and the time of the sync onto the
    lead row; whatever is thrown in between is caught. *)
Definition hubspot_sync (business : Business.t) (a : LeadParams.t) (lead : Lead.t)
    : M unit :=
  match business.(Business.hubspot_api_key) with
  | Some apiKey =>
      if truthy (Some apiKey)
      then
        try_catch
          (let* hubspotContact := createHubSpotContact a apiKey in
           let* _ :=
             updateLead env lead.(Lead.id)
               (Lead.mk_patch hubspotContact (Some (env_now env))) in
           ret tt)
          (fun _ => ret tt)
      else ret tt
  | None => ret tt
  end.

(** What follows: the audit event, the call outcome with the caller's
    identity, the confirmation. *)
Definition record_lead (a : LeadParams.t) (lead : Lead.t) : M string :=
  let* _ :=
    logCallEvent env context.(callId) "lead_captured"
      ([("lead_id", DText lead.(Lead.id));
        ("name", DText a.(LeadParams.name))]
       ++ prop "email" a.(LeadParams.email)
       ++ prop "phone" a.(LeadParams.phone)) in
  let* _ :=
    updateCall env context.(callId)
      (Call.mk_patch (Some a.(LeadParams.name)) a.(LeadParams.email)
         None None None None None (Some "lead_captured") None None) in
  ret (msg_lead_saved a.(LeadParams.name) a.(LeadParams.email) a.(LeadParams.phone)).

Definition createLeadCaptureTool (a : LeadParams.t) : M string :=
  let interest_level := default "medium" a.(LeadParams.interest_level) in
  try_catch
    (if negb (truthy a.(LeadParams.email))
        && negb (truthy a.(LeadParams.phone))
        && negb (truthy context.(callerPhone))
     then ret msg_need_contact
     else
       let* business := getBusiness env context.(businessId) in
       match business with
       | None => throw (Error "Business not found")
       | Some business =>
           let* lead := createLead env (lead_data a interest_level) in
           let* _ := hubspot_sync business a lead in
           record_lead a lead
       end)
    (fun _ => ret msg_lead_failed).
End LeadTool.

(** ** transfer_to_human and check_business_hours ([src/tools/transfer.ts]) *)

Module TransferParams.
Record t := mk {
  reason : string;
  urgency : option string;
  notes : option string;
}.
End TransferParams.

Definition msg_no_transfer_number : string :=
  "I apologize, but I'm unable to complete the transfer at this moment. However, I'll make sure our team reaches out to you shortly. Can I get the best number to reach you?".

Definition msg_transferring (reason : string) : string :=
  "Certainly! I'm transferring you now to one of our team members who can help with "
    +:+ reason +:+ ". Please hold for just a moment.".

Definition msg_connecting (reason : string) : string :=
  "I understand you need help with " +:+ reason
    +:+ ". I'm going to connect you with our team right away. Please hold on while I transfer your call.".

Definition msg_transfer_failed : string :=
  "I apologize for the difficulty. Let me make sure someone from our team contacts you directly. Could you confirm the best number to reach you?".

Section TransferTool.
Variable env : Env.
Variable context : ToolContext.

(** [initiateTransferViaTwilio]: without credentials in the process
    environment it throws before any request; otherwise one [fetch], and a
    response that is not [ok] throws. *)
Definition initiateTransferViaTwilio (callSid transferNumber : string) : M unit :=
  if negb (env_twilio_credentials env)
  then throw (Error "Twilio credentials not configured")
  else
    let* _ := record_outbound (TwilioRedirect callSid transferNumber) in
    match env_twilio env with
    | Rejects => throw (FetchFailed "twilio")
    | Response false _ => throw (Error "Twilio transfer failed")
    | Response true _ => ret tt
    end.

Definition createTransferToHumanTool (a : TransferParams.t) : M string :=
  let urgency := default "medium" a.(TransferParams.urgency) in
  try_catch
    (let* business := getBusiness env context.(businessId) in
     match business with
     | None => throw (Error "Business not found")
     | Some business =>
         let* call := getCall env context.(callId) in
         match call with
         | None => throw (Error "Call or phone number not found")
         | Some call =>
             match call.(Call.phone_number_id) with
             | None => throw (Error "Call or phone number not found")
             | Some phone_number_id =>
                 if negb (truthy (Some phone_number_id))
                 then throw (Error "Call or phone number not found")
                 else
                   let* phoneNumber := selectPhoneNumber env phone_number_id in
                   let transferNumber := phoneNumber ≫= PhoneNumber.forward_to in
                   match transferNumber with
                   | None => ret msg_no_transfer_number
                   | Some number =>
                       if negb (truthy (Some number))
                       then ret msg_no_transfer_number
                       else
                         let* _ :=
                           updateCall env context.(callId)
                             (Call.mk_patch None None None None None None None
                                (Some "transferred") (Some true)
                                (Some (trim ("Transfer reason: "
                                               +:+ a.(TransferParams.reason) +:+ ". "
                                               +:+ or_default a.(TransferParams.notes) "")))) in
                         let* _ :=
                           logCallEvent env context.(callId) "transfer_initiated"
                             ([("reason", DText a.(TransferParams.reason));
                               ("urgency", DText urgency)]
                              ++ prop "notes" a.(TransferParams.notes)
                              ++ [("transfer_number", DText number)]) in
                         let* transferred :=
                           match context.(twilioCallSid) with
                           | Some sid =>
                               if truthy (Some sid)
                               then
                                 try_catch
                                   (let* _ := initiateTransferViaTwilio sid number in
                                    ret true)
                                   (fun _ => ret false)
                               else ret false
                           | None => ret false
                           end in
                         if transferred
                         then ret (msg_transferring a.(TransferParams.reason))
                         else ret (msg_connecting a.(TransferParams.reason))
                   end
             end
         end
     end)
    (fun _ => ret msg_transfer_failed).
End TransferTool.

(** [parseInt(s)] without a radix: leading white space, a sign, a [0x]
    prefix for radix 16, then the longest run of digits; [None] is NaN. *)
Definition digit_of (radix : Z) (c : ascii) : option Z :=
  let n := Z.of_nat (nat_of_ascii c) in
  let v :=
    if (48 <=? n) && (n <=? 57) then Some (n - 48)
    else if (97 <=? n) && (n <=? 122) then Some (n - 87)
    else if (65 <=? n) && (n <=? 90) then Some (n - 55)
    else None in
  match v with
  | Some d => if d <? radix then Some d else None
  | None => None
  end.

Fixpoint digits (radix : Z) (s : string) (acc : option Z) : option Z :=
  match s with
  | String c r =>
      match digit_of radix c with
      | Some d => digits radix r (Some (default 0 acc * radix + d))
      | None => acc
      end
  | EmptyString => acc
  end.

Definition parseInt (s : string) : option Z :=
  let s := trim_start s in
  let '(sign, s) :=
    match s with
    | String "-" r => (-1, r)
    | String "+" r => (1, r)
    | _ => (1, s)
    end in
  let '(radix, s) :=
    match s with
    | String "0" (String "x" r) => (16, r)
    | String "0" (String "X" r) => (16, r)
    | _ => (10, s)
    end in
  Z.mul sign <$> digits radix s None.

(** [s.split(':')]. *)
Fixpoint split_colon (s : string) : list string :=
  match s with
  | EmptyString => [EmptyString]
  | String c r =>
      if Ascii.eqb c ":"%char then EmptyString :: split_colon r
      else
        match split_colon r with
        | h :: t => String c h :: t
        | [] => [String c EmptyString]
        end
  end.

(** [formatTime] of [src/tools/transfer.ts]. *)
Definition formatTime (time : string) : string :=
  let parts := split_colon time in
  let hours := default "" (parts !! 0%nat) in
  let minutes := default "undefined" (parts !! 1%nat) in
  let hour := parseInt hours in
  let ampm :=
    match hour with
    | Some h => if 12 <=? h then "PM" else "AM"
    | None => "AM"
    end in
  let hour12 :=
    match hour with
    | Some h => if Z.rem h 12 =? 0 then 12 else Z.rem h 12
    | None => 12
    end in
  pretty hour12 +:+ ":" +:+ minutes +:+ " " +:+ ampm.

(** The values [Intl.DateTimeFormat] accepts for its [weekday] option; any
    other value is a [RangeError] (ECMA-402, GetOption). *)
Definition weekday_styles : list string := ["narrow"; "short"; "long"].

Definition toLocaleDateString_weekday (env : Env) (weekday timeZone : string)
    (t : Z) : M string :=
  if negb (env_zone_known env timeZone)
  then throw (RangeError "Invalid time zone specified")
  else if negb (existsb (String.eqb weekday) weekday_styles)
  then throw (RangeError "Value out of range for Intl.DateTimeFormat options property weekday")
  else ret (env_weekday env weekday timeZone t).

Definition toLocaleTimeString_hhmm (env : Env) (timeZone : string) (t : Z) : M string :=
  if negb (env_zone_known env timeZone)
  then throw (RangeError "Invalid time zone specified")
  else ret (env_hhmm env timeZone t).

Definition msg_mon_fri : string :=
  "Our team is available Monday through Friday, 9 AM to 5 PM local time.".

Definition msg_closed_today : string :=
  "Our office is closed today. We'll be happy to help you during our regular business hours. Would you like to leave a message or schedule a callback?".

Definition msg_open_until (close_ : string) : string :=
  "Our office is currently open until " +:+ formatTime close_
    +:+ ". I can transfer you to a team member if needed.".

Definition msg_closed_now (open_ close_ currentDay : string) : string :=
  "Our office is currently closed. We're open " +:+ formatTime open_ +:+ " to "
    +:+ formatTime close_ +:+ " " +:+ currentDay
    +:+ ". Would you like to schedule a callback or leave a message?".

Definition msg_schedule_callback : string :=
  "I can help you schedule a callback with our team. What time works best for you?".

(** The answer once the day and the time are known. *)
Definition hours_answer (hours : gmap string Hours) (currentDay currentTime : string)
    : string :=
  match hours !! currentDay with
  | None => msg_closed_today
  | Some todayHours =>
      let isOpen :=
        negb (String.ltb currentTime todayHours.(open))
        && String.ltb currentTime todayHours.(close) in
      if isOpen
      then msg_open_until todayHours.(close)
      else msg_closed_now todayHours.(open) todayHours.(close) currentDay
  end.

Section BusinessHoursTool.
Variable env : Env.
Variable context : ToolContext.

Definition createBusinessHoursTool : M string :=
  try_catch
    (let* business := getBusiness env context.(businessId) in
     match business with
     | None => ret msg_mon_fri
     | Some business =>
         match business.(Business.business_hours) with
         | None => ret msg_mon_fri
         | Some hours =>
             let timezone :=
               or_default business.(Business.timezone) "America/New_York" in
             let* currentDay :=
               toLocaleDateString_weekday env "lowercase" timezone (env_now env) in
             let* currentTime :=
               toLocaleTimeString_hhmm env timezone (env_now env) in
             ret (hours_answer hours currentDay currentTime)
         end
     end)
    (fun _ => ret msg_schedule_callback).
End BusinessHoursTool.

(** ** The agent job ([src/agent.ts]) *)

Module RoomMetadata.
Record t := mk {
  businessId : option string;
  callId : option string;
  callerPhone : option string;
  twilioCallSid : option string;
}.
End RoomMetadata.

(** [ctx.room.metadata || '{}'] as [JSON.parse] sees it: a text that is not
    JSON, the literal [null], or a value whose four properties are read (a
    property that the value does not have is [None]; the webhook writes
    strings).  An absent or empty metadata text is the object without
    properties. *)
Inductive Metadata :=
| MetadataMalformed
| MetadataNull
| MetadataObject (o : RoomMetadata.t).

Definition record_step (s : AgentStep) : M unit :=
  modify (with_agent_log (fun l => l ++ [s])).

Section Agent.
Variable env : Env.

(** The last statement of [entry]: the session-start update. *)
Definition session_start_update (callId : string) : M Call.t :=
  updateCall env callId
    (Call.mk_patch None None None (Some (env_now env)) None None
       (Some in_progress) None None None).

Definition entry (metadata : Metadata) : M unit :=
  try_catch
    (let* roomMetadata :=
       match metadata with
       | MetadataMalformed => throw (SyntaxError "Unexpected token in JSON")
       | MetadataNull => throw (TypeError "Cannot read properties of null")
       | MetadataObject o => ret o
       end in
     let businessId := roomMetadata.(RoomMetadata.businessId) in
     let callId := roomMetadata.(RoomMetadata.callId) in
     match businessId, callId with
     | Some businessId, Some callId =>
         if negb (truthy (Some businessId)) || negb (truthy (Some callId))
         then throw (Error "Missing businessId or callId in room metadata")
         else
           let* business := getBusiness env businessId in
           match business with
           | None => throw (Error "Business not found")
           | Some business =>
               let* _ :=
                 if env_session_builds env then record_step SessionConstructed
                 else throw (Error "provider adapter") in
               let* _ := record_step ShutdownCallbackAdded in
               let* _ :=
                 if env_session_starts env
                 then record_step (SessionStarted businessId callId)
                 else throw (Error "session.start") in
               let* _ :=
                 if env_room_connects env then record_step RoomConnected
                 else throw (Error "ctx.connect") in
               let* _ := session_start_update callId in
               ret tt
           end
     | _, _ => throw (Error "Missing businessId or callId in room metadata")
     end)
    (fun error => throw error).

(** [updateFinalCallStats], the body of the shutdown callback. *)
Definition updateFinalCallStats (callId : string) : M unit :=
  try_catch
    (let* call := getCall env callId in
     match call with
     | None => ret tt
     | Some call =>
         let endedAt := env_now env in
         let durationSeconds := (endedAt - call.(Call.started_at)) / 1000 in
         let* _ :=
           updateCall env callId
             (Call.mk_patch None None None None (Some endedAt)
                (Some (Some durationSeconds)) (Some completed) None None None) in
         ret tt
     end)
    (fun _ => ret tt).
End Agent.

(** ** The telephony status callback ([POST /api/twilio/status]) *)

Section StatusCallback.
Variable env : Env.

(** [db.client.from('calls').select('*').eq('twilio_call_sid', sid).limit(1)],
    of which the handler keeps [data]; the query has no order, the first row
    in key order stands for the row the store returns. *)
Definition selectCallBySid (sid : string) : M (option Call.t) :=
  match env_fault env OpSelectCallBySid with
  | ClientThrows => throw (ClientRejected OpSelectCallBySid)
  | ErrorReply => ret None
  | NoFault =>
      let* w := get_world in
      ret (head (filter (fun c => c.(Call.twilio_call_sid) = Some sid)
                   (map_to_list (calls w)).*2))
  end.

Definition terminal_CallStatus (CallStatus : string) : bool :=
  String.eqb CallStatus "completed" || String.eqb CallStatus "failed"
  || String.eqb CallStatus "busy" || String.eqb CallStatus "no-answer".

(** The [updates] object the handler builds. *)
Definition status_updates (CallStatus : string) (CallDuration : option string)
    : Call.patch :=
  if terminal_CallStatus CallStatus
  then
    Call.mk_patch None None (Some CallStatus) None (Some (env_now env))
      (if truthy CallDuration then Some (parseInt (default "" CallDuration)) else None)
      (Some (if String.eqb CallStatus "completed" then completed else failed))
      None None None
  else
    Call.mk_patch None None (Some CallStatus) None None None None None None None.

(** The handler; its result is the HTTP status it sends. *)
Definition twilio_status (CallSid CallStatus : string)
    (CallDuration : option string) : M Z :=
  try_catch
    (let* calls := selectCallBySid CallSid in
     match calls with
     | None => ret 200
     | Some call =>
         let* _ :=
           updateCall env call.(Call.id) (status_updates CallStatus CallDuration) in
         let* _ :=
           logCallEvent env call.(Call.id) "status_update"
             ([("status", DText CallStatus)] ++ prop "duration" CallDuration) in
         ret 200
     end)
    (fun _ => ret 200).
End StatusCallback.

(** ** lookup_customer ([src/tools/lead.ts]) *)

(** What the lookup reads beyond the columns of [Lead.t] and the [Env]: the
    [created_at] column of a lead, which the store sets when it inserts the
    row; the text of [toLocaleDateString('en-US', {year: 'numeric', month:
    'long', day: 'numeric'})]; and how the store answers the query. *)
Record LeadsView := mkLeadsView {
  lead_created_at : Lead.t -> Z;
  format_long_date : Z -> string;
  leads_fault : Fault;
}.

Definition msg_lookup_need_phone : string :=
  "I don't have a phone number to look up. Could you provide the phone number you'd like me to check?".

Definition msg_lookup_unable : string :=
  "I was unable to look up that information right now.".

Definition msg_new_customer : string :=
  "I don't see any previous records for this phone number. It looks like you're a new customer - welcome! How can I help you today?".

Definition msg_lookup_failed : string := "How can I help you today?".

Definition msg_welcome_back (name : option string) (lastContactDate : string)
    (status : option string) : string :=
  "Welcome back"
    +:+ (if truthy name then ", " +:+ fst (split_first_space (default "" name)) else "")
    +:+ "! "
    +:+ "I see we last spoke on " +:+ lastContactDate +:+ ". "
    +:+ (match status with
         | Some s => if String.eqb s "converted"
                     then "Thank you for being a valued customer. " else ""
         | None => ""
         end)
    +:+ "How can I assist you today?".

Section LookupTool.
Variable env : Env.
Variable view : LeadsView.
Variable context : ToolContext.

(** [order('created_at', {ascending: false}).limit(1)]: the row created
    last; among rows created at the same instant, the first in key order
    stands for the row the store returns. *)
Definition later_of (a b : Lead.t) : Lead.t :=
  if lead_created_at view a <? lead_created_at view b then b else a.

Definition most_recent (rows : list Lead.t) : option Lead.t :=
  foldr (fun row acc =>
           match acc with
           | Some best => Some (later_of row best)
           | None => Some row
           end) None rows.

(** The query of the tool, of which it keeps [data] and [error]: [None] is
    an [error] object, [Some None] an empty [data]. *)
Definition selectLeadsByPhone (lookupPhone : string) : M (option (option Lead.t)) :=
  match leads_fault view with
  | ClientThrows => throw (FetchFailed "store")
  | ErrorReply => ret None
  | NoFault =>
      let* w := get_world in
      ret (Some (most_recent
                   (filter (fun l => l.(Lead.business_id) = context.(businessId)
                                     /\ l.(Lead.phone) = Some lookupPhone)
                      (map_to_list (leads w)).*2)))
  end.

(** The tool.  A [name] that is [null] is written into the event data as a
    JSON [null]; the event data of the embedding has no [null] and leaves the
    property out. *)
Definition createLookupCustomerTool (phone : option string) : M string :=
  try_catch
    (match or_else phone context.(callerPhone) with
     | None => ret msg_lookup_need_phone
     | Some lookupPhone =>
         if negb (truthy (Some lookupPhone)) then ret msg_lookup_need_phone
         else
           let* reply := selectLeadsByPhone lookupPhone in
           match reply with
           | None => ret msg_lookup_unable
           | Some None => ret msg_new_customer
           | Some (Some lead) =>
               let created_at := lead_created_at view lead in
               let message :=
                 msg_welcome_back lead.(Lead.name)
                   (format_long_date view created_at) lead.(Lead.status) in
               let* _ :=
                 logCallEvent env context.(callId) "customer_looked_up"
                   ([("lead_id", DText lead.(Lead.id))]
                    ++ prop "customer_name" lead.(Lead.name)
                    ++ [("last_contact", DInstant created_at)]) in
               ret message
           end
     end)
    (fun _ => ret msg_lookup_failed).
End LookupTool.

(** ** The tools of the assistant ([src/agent.ts], [SMBVoiceAssistant])

    The constructor registers the five tools under their names, all with the
    same call context; a tool call of the model names one of them and carries
    its arguments. *)
Inductive ToolCall :=
| book_appointment (a : AppointmentParams.t)
| create_lead (a : LeadParams.t)
| lookup_customer (phone : option string)
| transfer_to_human (a : TransferParams.t)
| check_business_hours.

Definition execute (env : Env) (view : LeadsView) (context : ToolContext)
    (call : ToolCall) : M string :=
  match call with
  | book_appointment a => createBookAppointmentTool env context a
  | create_lead a => createLeadCaptureTool env context a
  | lookup_customer phone => createLookupCustomerTool env view context phone
  | transfer_to_human a => createTransferToHumanTool env context a
  | check_business_hours => createBusinessHoursTool env context
  end.

(** ** [GET /api/calls/:callId] (the Express API server) *)

(** What the route sends: the call row as JSON (status 200), or a status
    with an [error] text. *)
Inductive CallReply :=
| CallJson (call : Call.t)
| ErrorJson (status : Z) (error : string).

Definition get_call (env : Env) (callId : string) : M CallReply :=
  try_catch
    (let* call := getCall env callId in
     match call with
     | None => ret (ErrorJson 404 "Call not found")
     | Some call => ret (CallJson call)
     end)
    (fun _ => ret (ErrorJson 500 "Failed to retrieve call")).

(** ** [getSupabaseClient] ([src/lib/database.ts]) *)

(** The three variables of the process environment that the function reads. *)
Record ProcessEnv := mkProcessEnv {
  SUPABASE_URL : option string;
  SUPABASE_SERVICE_ROLE_KEY : option string;
  SUPABASE_ANON_KEY : option string;
}.

(** A client, as [createClient(supabaseUrl, supabaseKey)] builds it. *)
Record SupabaseClient := mkSupabaseClient {
  supabaseUrl : string;
  supabaseKey : string;
}.

Definition msg_missing_configuration : string :=
  "Missing Supabase configuration. Please set SUPABASE_URL and SUPABASE_SERVICE_ROLE_KEY in .env.local".

(** The function, over the module variable [supabaseClient] that it reads
    and writes; [createClient] either builds the client or throws (it refuses
    a text that is not a URL). *)
Definition getSupabaseClient (createClient : string -> string -> Exn + SupabaseClient)
    (process_env : ProcessEnv) (supabaseClient : option SupabaseClient)
    : option SupabaseClient * (Exn + SupabaseClient) :=
  match supabaseClient with
  | Some client => (Some client, inr client)
  | None =>
      let supabaseUrl := process_env.(SUPABASE_URL) in
      let supabaseKey :=
        or_else process_env.(SUPABASE_SERVICE_ROLE_KEY) process_env.(SUPABASE_ANON_KEY) in
      match supabaseUrl, supabaseKey with
      | Some url, Some key =>
          if negb (truthy (Some url)) || negb (truthy (Some key))
          then (None, inl (Error msg_missing_configuration))
          else
            match createClient url key with
            | inr client => (Some client, inr client)
            | inl e => (None, inl e)
            end
      | _, _ => (None, inl (Error msg_missing_configuration))
      end
  end.

(** ** A reference environment

    A concrete [Env] for running the embedded code: a parser for the
    ECMAScript date-time format [YYYY-MM-DDTHH:mm:ss] read in a zone of fixed
    offset, and formatters over the same zones. *)

Definition two_digits (a b : ascii) : option Z :=
  match digit_of 10 a, digit_of 10 b with
  | Some x, Some y => Some (10 * x + y)
  | _, _ => None
  end.

(** Days from 1970-01-01 to a civil date of the proleptic Gregorian calendar. *)
Definition days_from_civil (y m d : Z) : Z :=
  let y' := if m <=? 2 then y - 1 else y in
  let era := y' / 400 in
  let yoe := y' - era * 400 in
  let doy := (153 * (m + (if 2 <? m then -3 else 9)) + 2) / 5 + d - 1 in
  let doe := yoe * 365 + yoe / 4 - yoe / 100 + doy in
  era * 146097 + doe - 719468.

(** Offset from UTC, in minutes, of the zones of the examples. *)
Definition zone_offset (zone : string) : Z :=
  if String.eqb zone "Asia/Tokyo" then 540
  else if String.eqb zone "America/New_York" then -300
  else 0.

Definition iso_parse (zone text : string) : Date :=
  match list_ascii_of_string text with
  | [y1; y2; y3; y4; "-"; m1; m2; "-"; d1; d2; "T"; h1; h2; ":"; n1; n2; ":"; s1; s2]%char =>
      match two_digits y1 y2, two_digits y3 y4, two_digits m1 m2, two_digits d1 d2,
            two_digits h1 h2, two_digits n1 n2, two_digits s1 s2 with
      | Some yh, Some yl, Some m, Some d, Some h, Some n, Some s =>
          if (1 <=? m) && (m <=? 12) && (1 <=? d) && (d <=? 31)
             && (h <=? 23) && (n <=? 59) && (s <=? 59)
          then
            TimeClip (days_from_civil (100 * yh + yl) m d * 86400000
                      + h * 3600000 + n * 60000 + s * 1000
                      - zone_offset zone * 60000)
          else None
      | _, _, _, _, _, _, _ => None
      end
  | _ => None
  end.

Definition weekday_names : list string :=
  ["Sunday"; "Monday"; "Tuesday"; "Wednesday"; "Thursday"; "Friday"; "Saturday"].

Definition local_weekday (style zone : string) (t : Z) : string :=
  let days := (t + zone_offset zone * 60000) / 86400000 in
  let long := default "" (weekday_names !! Z.to_nat ((days + 4) mod 7)) in
  if String.eqb style "long" then long
  else if String.eqb style "short" then substring 0 3 long
  else substring 0 1 long.

Definition pad2 (n : Z) : string :=
  if n <? 10 then "0" +:+ pretty n else pretty n.

Definition local_hhmm (zone : string) (t : Z) : string :=
  let minutes := ((t + zone_offset zone * 60000) / 60000) mod 1440 in
  pad2 (minutes / 60) +:+ ":" +:+ pad2 (minutes mod 60).

Definition no_faults : StoreOp -> Fault := fun _ => NoFault.

(** A server in UTC at the instant [now], with the given store faults and
    replies of the three integrations. *)
Definition reference_env (now : Z) (fault : StoreOp -> Fault)
    (calendar : option (option string * option string))
    (hubspot twilio : Reply) : Env :=
  {| env_now := now;
     env_zone := "UTC";
     env_parse := iso_parse;
     env_format_date := fun t => "day " +:+ pretty (t / 86400000);
     env_format_time := local_hhmm "UTC";
     env_zone_known := fun _ => true;
     env_weekday := local_weekday;
     env_hhmm := local_hhmm;
     env_fault := fault;
     env_calendar := calendar;
     env_hubspot := hubspot;
     env_twilio_credentials := true;
     env_twilio := twilio;
     env_session_builds := true;
     env_session_starts := true;
     env_room_connects := true |}.

(** A store with one tenant, one inbound line and one call in progress. *)
Definition acme (calendar_connected : bool) (hubspot_api_key : option string)
    (hours : option (gmap string Hours)) : Business.t :=
  Business.mk "biz-1" (Some "Asia/Tokyo")
    (Some calendar_connected) (Some "acme@calendar") hubspot_api_key hours.

Definition main_line (forward_to : option string) : PhoneNumber.t :=
  PhoneNumber.mk "pn-1" "biz-1" forward_to.

Definition call_1 : Call.t :=
  Call.mk "call-1" "biz-1" (Some "pn-1") None None (Some "CA1") (Some "in-progress")
    1893490000000 None None None in_progress None None None.

Definition reference_world (b : Business.t) (line : PhoneNumber.t) : World :=
  {| businesses := {["biz-1" := b]};
     phone_numbers := {["pn-1" := line]};
     calls := {["call-1" := call_1]};
     leads := ∅;
     appointments := ∅;
     call_events := [];
     outbound := [];
     agent_log := [] |}.

Definition reference_context (callerPhone twilioCallSid : option string) : ToolContext :=
  mkContext "biz-1" "call-1" callerPhone twilioCallSid.

(** * Definitions of the properties *)

(** The instant of the request as the specification words it: the date and
    the time read in the time zone configured for the tenant. *)
Definition tenant_instant (env : Env) (business : Business.t)
    (a : AppointmentParams.t) : Date :=
  env_parse env (or_default business.(Business.timezone) "America/New_York")
    (a.(AppointmentParams.date) +:+ "T" +:+ a.(AppointmentParams.time) +:+ ":00").

(** The store serves every operation of a list. *)
Definition serves (env : Env) (ops : list StoreOp) : Prop :=
  Forall (fun op => env_fault env op = NoFault) ops.

(** The patch of book_appointment's call update. *)
Definition outcome_patch (outcome : string) : Call.patch :=
  Call.mk_patch None None None None None None None (Some outcome) None None.

(** A call to an integration throws: the request is rejected, or the response
    is not [ok]. *)
Definition reply_throws (r : Reply) : bool :=
  match r with
  | Response true _ => false
  | _ => true
  end.

(** The call row after create_lead. *)
Definition lead_patch (a : LeadParams.t) : Call.patch :=
  Call.mk_patch (Some a.(LeadParams.name)) a.(LeadParams.email)
    None None None None None (Some "lead_captured") None None.

(** The forwarding number as the specification words it: the one of the
    inbound line configuration associated with the call. *)
Definition forwarding_number (w : World) (callId : string) : option string :=
  c ← calls w !! callId;
  phone_number_id ← c.(Call.phone_number_id);
  line ← phone_numbers w !! phone_number_id;
  line.(PhoneNumber.forward_to).

(** The patch of transfer_to_human's call update. *)
Definition transfer_patch (a : TransferParams.t) : Call.patch :=
  Call.mk_patch None None None None None None None
    (Some "transferred") (Some true)
    (Some (trim ("Transfer reason: " +:+ a.(TransferParams.reason) +:+ ". "
                   +:+ or_default a.(TransferParams.notes) ""))).

(** The carrier redirect of an invocation goes through: the context has a
    telephony leg, the process has the carrier's credentials, and the carrier
    answers [ok]. *)
Definition redirect_succeeds (env : Env) (context : ToolContext) : bool :=
  truthy context.(twilioCallSid) && env_twilio_credentials env
  && negb (reply_throws (env_twilio env)).

(** A Monday-to-Friday hours map, nine to five. *)
Definition weekday_hours : gmap string Hours :=
  list_to_map
    [("monday", Build_Hours "09:00" "17:00");
     ("tuesday", Build_Hours "09:00" "17:00");
     ("wednesday", Build_Hours "09:00" "17:00");
     ("thursday", Build_Hours "09:00" "17:00");
     ("friday", Build_Hours "09:00" "17:00")].

(** The status of a call, when the call has a row. *)
Definition status_of (w : World) (callId : string) : option CallStatus :=
  Call.status <$> calls w !! callId.

(** The operations of the core that write [status]: the update at the end of
    [entry], the telephony status callback, the shutdown finalization. *)
Inductive StatusOp :=
| SessionStart
| StatusCallback (CallStatus : string) (CallDuration : option string)
| Finalize.

(** One operation, in the environment of its own invocation, on the call
    [callId] whose telephony leg is [sid]. *)
Definition run_status_op (callId sid : string) (step : Env * StatusOp) (w : World)
    : World :=
  match snd step with
  | SessionStart => world_of (session_start_update (fst step) callId w)
  | StatusCallback CallStatus CallDuration =>
      world_of (twilio_status (fst step) sid CallStatus CallDuration w)
  | Finalize => world_of (updateFinalCallStats (fst step) callId w)
  end.

(** The status an operation writes, if it writes one. *)
Definition status_written (op : StatusOp) : option CallStatus :=
  match op with
  | SessionStart => Some in_progress
  | StatusCallback CallStatus _ =>
      if terminal_CallStatus CallStatus
      then Some (if String.eqb CallStatus "completed" then completed else failed)
      else None
  | Finalize => Some completed
  end.

(** The order of the specification: a status stays, or leaves [in_progress]
    for a terminal value. *)
Definition moves_forward (s s' : CallStatus) : Prop :=
  s' = s \/ (s = in_progress /\ s' <> in_progress).

(** The call row [callId] exists under its own key, and it is the only row
    with the telephony leg [sid]. *)
Definition tracks (w : World) (callId sid : string) : Prop :=
  (exists c, calls w !! callId = Some c
     /\ c.(Call.id) = callId /\ c.(Call.twilio_call_sid) = Some sid)
  /\ forall k c', calls w !! k = Some c' -> c'.(Call.twilio_call_sid) = Some sid ->
       k = callId.

(** A sequence of operations, first to last. *)
Definition run_status_ops (callId sid : string) (steps : list (Env * StatusOp))
    (w : World) : World :=
  foldl (fun w step => run_status_op callId sid step w) w steps.

(** The value of the last operation that writes a status, or the initial
    status when none does. *)
Definition last_written (s : CallStatus) (steps : list (Env * StatusOp)) : CallStatus :=
  foldl (fun s step => default s (status_written (snd step))) s steps.

(** ** Which columns an operation leaves alone *)

(** The columns of a call that no update of the core writes. *)
Definition same_identity (c c' : Call.t) : Prop :=
  c'.(Call.id) = c.(Call.id)
  /\ c'.(Call.business_id) = c.(Call.business_id)
  /\ c'.(Call.phone_number_id) = c.(Call.phone_number_id)
  /\ c'.(Call.twilio_call_sid) = c.(Call.twilio_call_sid)
  /\ c'.(Call.started_at) = c.(Call.started_at).

(** The columns of the life cycle of a call. *)
Definition same_lifecycle (c c' : Call.t) : Prop :=
  c'.(Call.status) = c.(Call.status)
  /\ c'.(Call.twilio_status) = c.(Call.twilio_status)
  /\ c'.(Call.answered_at) = c.(Call.answered_at)
  /\ c'.(Call.ended_at) = c.(Call.ended_at)
  /\ c'.(Call.duration_seconds) = c.(Call.duration_seconds).

(** The columns in which the tools record what the conversation did. *)
Definition same_outcome (c c' : Call.t) : Prop :=
  c'.(Call.caller_name) = c.(Call.caller_name)
  /\ c'.(Call.caller_email) = c.(Call.caller_email)
  /\ c'.(Call.outcome) = c.(Call.outcome)
  /\ c'.(Call.transferred_to_human) = c.(Call.transferred_to_human)
  /\ c'.(Call.notes) = c.(Call.notes).

(** What a tool may do to a call row, and what a writer of the status may. *)
Definition tool_write (c c' : Call.t) : Prop :=
  same_identity c c' /\ same_lifecycle c c'.

Definition status_write (c c' : Call.t) : Prop :=
  same_identity c c' /\ same_outcome c c'.

(** The columns of a lead as inserted: all but the two of the CRM sync. *)
Definition same_contact (l l' : Lead.t) : Prop :=
  l'.(Lead.id) = l.(Lead.id)
  /\ l'.(Lead.business_id) = l.(Lead.business_id)
  /\ l'.(Lead.call_id) = l.(Lead.call_id)
  /\ l'.(Lead.name) = l.(Lead.name)
  /\ l'.(Lead.email) = l.(Lead.email)
  /\ l'.(Lead.phone) = l.(Lead.phone)
  /\ l'.(Lead.company) = l.(Lead.company)
  /\ l'.(Lead.source) = l.(Lead.source)
  /\ l'.(Lead.status) = l.(Lead.status)
  /\ l'.(Lead.interest_level) = l.(Lead.interest_level)
  /\ l'.(Lead.notes) = l.(Lead.notes).

(** A later world of the same store: the configuration is as it was, no call
    row has come or gone and each is related by [P] to what it was, every
    lead is still there with its contact columns, every appointment is still
    there as it was, and the audit log, the trace of outbound requests and
    the log of the agent job have only grown at their ends. *)
Record evolves (P : Call.t -> Call.t -> Prop) (w w' : World) : Prop := mk_evolves {
  ev_businesses : businesses w' = businesses w;
  ev_phone_numbers : phone_numbers w' = phone_numbers w;
  ev_calls : forall id, option_Forall2 P (calls w !! id) (calls w' !! id);
  ev_leads : forall id l, leads w !! id = Some l ->
             exists l', leads w' !! id = Some l' /\ same_contact l l';
  ev_appointments : appointments w ⊆ appointments w';
  ev_call_events : call_events w `prefix_of` call_events w';
  ev_outbound : outbound w `prefix_of` outbound w';
  ev_agent_log : agent_log w `prefix_of` agent_log w';
}.

(** A computation relates every world it starts in to the world it leaves,
    whether it returns or throws. *)
Definition keeps {A} (R : World -> World -> Prop) (m : M A) : Prop :=
  forall w, R w (world_of (m w)).

(** An audit event of a call, of a type. *)
Definition audit_event (callId type : string) (e : CallEvent.t) : Prop :=
  e.(CallEvent.call_id) = callId /\ e.(CallEvent.event_type) = type.

(** A component of the world is as it was. *)
Definition unchanged {B} (f : World -> B) (w w' : World) : Prop := f w' = f w.

(** A list of the world is as it was, or has one more element at its end,
    one that satisfies [Q]. *)
Definition one_more {B} (f : World -> list B) (Q : B -> Prop)
    (w w' : World) : Prop :=
  f w' = f w \/ exists x, f w' = f w ++ [x] /\ Q x.

(** The type of the audit event a tool records, if it records one. *)
Definition event_of (call : ToolCall) : option string :=
  match call with
  | book_appointment _ => Some "appointment_booked"
  | create_lead _ => Some "lead_captured"
  | lookup_customer _ => Some "customer_looked_up"
  | transfer_to_human _ => Some "transfer_initiated"
  | check_business_hours => None
  end.

(** What a non-terminal status callback may do to a call row: write
    [twilio_status]. *)
Definition same_but_twilio_status (c c' : Call.t) : Prop :=
  same_identity c c' /\ same_outcome c c'
  /\ c'.(Call.status) = c.(Call.status)
  /\ c'.(Call.answered_at) = c.(Call.answered_at)
  /\ c'.(Call.ended_at) = c.(Call.ended_at)
  /\ c'.(Call.duration_seconds) = c.(Call.duration_seconds).

(** The tables of the store. *)
Definition store (w : World) :=
  (businesses w, phone_numbers w, calls w, leads w, appointments w, call_events w).

(** The patch of the shutdown finalization, and the one of the session-start
    update. *)
Definition finalization_patch (endedAt durationSeconds : Z) : Call.patch :=
  Call.mk_patch None None None None (Some endedAt) (Some (Some durationSeconds))
    (Some completed) None None None.

Definition session_start_patch (now : Z) : Call.patch :=
  Call.mk_patch None None None (Some now) None None (Some in_progress) None None None.

(** A lead that the query of lookup_customer selects: of the tenant of the
    context, with the phone number looked up. *)
Definition lookup_matches (context : ToolContext) (lookupPhone : string)
    (l : Lead.t) : Prop :=
  l.(Lead.business_id) = context.(businessId) /\ l.(Lead.phone) = Some lookupPhone.

(** The audit event of a lookup that found [lead]. *)
Definition lookup_event (view : LeadsView) (context : ToolContext) (lead : Lead.t)
    : CallEvent.t :=
  CallEvent.mk context.(callId) "customer_looked_up"
    ([("lead_id", DText lead.(Lead.id))]
     ++ prop "customer_name" lead.(Lead.name)
     ++ [("last_contact", DInstant (lead_created_at view lead))]).

(** The greeting for a lead that was found. *)
Definition lookup_greeting (view : LeadsView) (lead : Lead.t) : string :=
  msg_welcome_back lead.(Lead.name)
    (format_long_date view (lead_created_at view lead)) lead.(Lead.status).

(** What lookup_customer leaves and answers once its query has returned
    [lead]: the audit insert is served, or answered with an error (which
    [logCallEvent] does not look at), or the client call rejects (which the
    tool catches). *)
Definition lookup_found (env : Env) (view : LeadsView) (context : ToolContext)
    (w : World) (lead : Lead.t) : World * (Exn + string) :=
  match env_fault env OpInsertCallEvent with
  | NoFault =>
      (with_call_events (fun evs => evs ++ [lookup_event view context lead]) w,
       inr (lookup_greeting view lead))
  | ErrorReply => (w, inr (lookup_greeting view lead))
  | ClientThrows => (w, inr msg_lookup_failed)
  end.

(** The audit event of a transfer to [number], and the requests that
    transfer_to_human sends to the carrier once the event is recorded: one,
    when the context has a telephony leg and the process has the carrier's
    credentials. *)
Definition transfer_event (context : ToolContext) (a : TransferParams.t)
    (number : string) : CallEvent.t :=
  CallEvent.mk context.(callId) "transfer_initiated"
    ([("reason", DText a.(TransferParams.reason));
      ("urgency", DText (default "medium" a.(TransferParams.urgency)))]
     ++ prop "notes" a.(TransferParams.notes)
     ++ [("transfer_number", DText number)]).

Definition transfer_requests (env : Env) (context : ToolContext) (number : string)
    : list Outbound :=
  match context.(twilioCallSid) with
  | Some sid =>
      if truthy (Some sid) && env_twilio_credentials env
      then [TwilioRedirect sid number]
      else []
  | None => []
  end.

(** * Properties *)

(** ** Running the monad *)

Lemma run_bind {A B} (m : M A) (k : A -> M B) w w' a :
  m w = (w', inr a) -> bind m k w = k a w'.
Proof. unfold bind. intros ->. reflexivity. Qed.

Lemma run_bind_throw {A B} (m : M A) (k : A -> M B) w w' e :
  m w = (w', inl e) -> bind m k w = (w', inl e).
Proof. unfold bind. intros ->. reflexivity. Qed.

Lemma run_try {A} (m : M A) (h : Exn -> M A) w w' a :
  m w = (w', inr a) -> try_catch m h w = (w', inr a).
Proof. unfold try_catch. intros ->. reflexivity. Qed.

Lemma run_try_caught {A} (m : M A) (h : Exn -> M A) w w' e :
  m w = (w', inl e) -> try_catch m h w = h e w'.
Proof. unfold try_catch. intros ->. reflexivity. Qed.

Lemma run_try_same {A} (m m' : M A) (h : Exn -> M A) w w' :
  m w = m' w' -> try_catch m h w = try_catch m' h w'.
Proof. unfold try_catch. intros ->. reflexivity. Qed.

(** A date that is not before the clock passes the check [scheduledAt < now]. *)
Lemma Date_lt_not_past t now : now <= t -> Date_lt (Some t) (Some now) = false.
Proof. intros H. simpl. apply Z.ltb_ge. exact H. Qed.

(** Reduce the monadic plumbing in the goal, and nothing else. *)
Ltac run_m :=
  cbv beta iota
    delta [bind try_catch get_world modify ret throw].

(** A [try] whose handler returns a value never throws. *)
Lemma try_catch_returns {A} (m : M A) (a : A) w :
  exists v, result_of (try_catch m (fun _ => ret a) w) = inr v.
Proof.
  unfold try_catch, result_of, ret.
  destruct (m w) as [w' [e | v]]; simpl; eauto.
Qed.

(** ** The store methods when the store serves the request *)

Section Served.
Variable env : Env.

Lemma getBusiness_served id w :
  env_fault env OpGetBusiness = NoFault ->
  getBusiness env id w = (w, inr (businesses w !! id)).
Proof. unfold getBusiness. intros ->. reflexivity. Qed.

Lemma getCall_served id w :
  env_fault env OpGetCall = NoFault ->
  getCall env id w = (w, inr (calls w !! id)).
Proof. unfold getCall. intros ->. reflexivity. Qed.

Lemma selectPhoneNumber_served id w :
  env_fault env OpSelectPhoneNumber = NoFault ->
  selectPhoneNumber env id w = (w, inr (phone_numbers w !! id)).
Proof. unfold selectPhoneNumber. intros ->. reflexivity. Qed.

Lemma updateCall_served id data w c :
  env_fault env OpUpdateCall = NoFault ->
  calls w !! id = Some c ->
  updateCall env id data w
  = (with_calls <[id := Call.apply data c]> w, inr (Call.apply data c)).
Proof.
  unfold updateCall. intros -> Hc.
  unfold bind, get_world, modify, ret. rewrite Hc. reflexivity.
Qed.

(** A call update that is not served throws and writes nothing. *)
Lemma updateCall_refused id data w :
  env_fault env OpUpdateCall <> NoFault \/ calls w !! id = None ->
  exists e, updateCall env id data w = (w, inl e).
Proof.
  unfold updateCall. intros H.
  destruct (env_fault env OpUpdateCall) eqn:Hf; unfold throw; eauto.
  destruct H as [H | H]; [congruence |].
  unfold bind, get_world. rewrite H. eauto.
Qed.

Lemma createAppointment_served data w :
  env_fault env OpCreateAppointment = NoFault ->
  createAppointment env data w
  = (with_appointments <[fresh (dom (appointments w)) := data (fresh (dom (appointments w)))]> w,
     inr (data (fresh (dom (appointments w))))).
Proof. unfold createAppointment. intros ->. reflexivity. Qed.

Lemma createLead_served data w :
  env_fault env OpCreateLead = NoFault ->
  createLead env data w
  = (with_leads <[fresh (dom (leads w)) := data (fresh (dom (leads w)))]> w,
     inr (data (fresh (dom (leads w))))).
Proof. unfold createLead. intros ->. reflexivity. Qed.

Lemma updateLead_served id data w l :
  env_fault env OpUpdateLead = NoFault ->
  leads w !! id = Some l ->
  updateLead env id data w
  = (with_leads <[id := Lead.apply data l]> w, inr (Lead.apply data l)).
Proof.
  unfold updateLead. intros -> Hl.
  unfold bind, get_world, modify, ret. rewrite Hl. reflexivity.
Qed.

Lemma logCallEvent_served callId eventType eventData w :
  env_fault env OpInsertCallEvent = NoFault ->
  logCallEvent env callId eventType eventData w
  = (with_call_events (fun l => l ++ [CallEvent.mk callId eventType eventData]) w, inr tt).
Proof. unfold logCallEvent. intros ->. reflexivity. Qed.

(** The audit insert returns, with or without a row written, unless the
    client call itself rejects. *)
Lemma logCallEvent_returns callId eventType eventData w :
  env_fault env OpInsertCallEvent <> ClientThrows ->
  exists w', logCallEvent env callId eventType eventData w = (w', inr tt)
    /\ businesses w' = businesses w /\ phone_numbers w' = phone_numbers w
    /\ calls w' = calls w /\ leads w' = leads w
    /\ appointments w' = appointments w /\ outbound w' = outbound w.
Proof.
  unfold logCallEvent. intros H.
  destruct (env_fault env OpInsertCallEvent); [| | congruence];
    eexists; (split; [reflexivity |]); simpl; auto 10.
Qed.
End Served.

(** The key the store gives a new row is not in the table. *)
Lemma fresh_key_unused {V} (m : gmap string V) : m !! fresh (dom m) = None.
Proof. apply not_elem_of_dom, is_fresh. Qed.

(** ** create_lead without any contact channel *)

(** C3.  When the email argument, the phone argument and the caller phone of
    the call context are all absent (or empty), create_lead leaves the whole
    world as it was: no lead row, no other store write, no outbound request;
    and it returns the prompt that asks for an email address or a phone
    number. *)
Theorem create_lead_without_contact env context (a : LeadParams.t) w :
  truthy a.(LeadParams.email) = false ->
  truthy a.(LeadParams.phone) = false ->
  truthy context.(callerPhone) = false ->
  createLeadCaptureTool env context a w = (w, inr msg_need_contact).
Proof.
  intros He Hp Hc. unfold createLeadCaptureTool, try_catch.
  rewrite He, Hp, Hc. reflexivity.
Qed.

Lemma create_lead_without_contact_witness :
  let a := LeadParams.mk "Test User" None None (Some "Test Corp") None None in
  let w := reference_world (acme false None None) (main_line None) in
  createLeadCaptureTool (reference_env 0 no_faults None Rejects Rejects)
    (reference_context None None) a w
  = (w, inr msg_need_contact).
Proof.
  intros a w.
  apply (create_lead_without_contact _ (reference_context None None) a w);
    reflexivity.
Defined.

(** ** The agent entry without tenant id or call id *)

Lemma entry_without_ids env (o : RoomMetadata.t) w :
  truthy o.(RoomMetadata.businessId) = false
  \/ truthy o.(RoomMetadata.callId) = false ->
  entry env (MetadataObject o) w
  = (w, inl (Error "Missing businessId or callId in room metadata")).
Proof.
  intros H. unfold entry, try_catch, bind, ret, throw.
  destruct (RoomMetadata.businessId o) as [b |], (RoomMetadata.callId o) as [c |];
    try reflexivity.
  destruct H as [H | H]; rewrite H; simpl; try reflexivity.
  rewrite orb_true_r. reflexivity.
Qed.

(** A session that was started had both identifiers. *)
Lemma entry_started_had_ids env metadata w b c :
  SessionStarted b c ∈ agent_log (world_of (entry env metadata w)) ->
  SessionStarted b c ∈ agent_log w
  \/ exists o, metadata = MetadataObject o
       /\ truthy o.(RoomMetadata.businessId) = true
       /\ truthy o.(RoomMetadata.callId) = true.
Proof.
  intros H. destruct metadata as [| | o]; try (left; exact H).
  destruct (truthy (RoomMetadata.businessId o)) eqn:Hb.
  - destruct (truthy (RoomMetadata.callId o)) eqn:Hc; [right; eauto |].
    rewrite entry_without_ids in H by auto. left; exact H.
  - rewrite entry_without_ids in H by auto. left; exact H.
Qed.

(** Metadata that does not decode to an object is fatal as well, with another
    error. *)
Lemma entry_undecodable_metadata env w :
  entry env MetadataMalformed w = (w, inl (SyntaxError "Unexpected token in JSON"))
  /\ entry env MetadataNull w = (w, inl (TypeError "Cannot read properties of null")).
Proof. split; reflexivity. Qed.

(** C8.  When the decoded session metadata lacks the tenant id or the call
    id (the property is absent or empty), [entry] throws the configuration
    error and leaves the world as it was: the session is neither constructed
    nor started, so no step of the job is logged (the turn loop, which only
    [session.start] runs, never runs) and no row is written. *)
Theorem entry_missing_ids_is_fatal env (o : RoomMetadata.t) w :
  truthy o.(RoomMetadata.businessId) = false
  \/ truthy o.(RoomMetadata.callId) = false ->
  let r := entry env (MetadataObject o) w in
  result_of r = inl (Error "Missing businessId or callId in room metadata")
  /\ agent_log (world_of r) = agent_log w
  /\ world_of r = w.
Proof.
  intros H r. subst r. rewrite (entry_without_ids env o w H).
  repeat split; reflexivity.
Qed.

Lemma entry_missing_ids_is_fatal_witness :
  let o := RoomMetadata.mk (Some "biz-1") None (Some "+15559998888") None in
  let w := reference_world (acme false None None) (main_line None) in
  let r := entry (reference_env 0 no_faults None Rejects Rejects) (MetadataObject o) w in
  result_of r = inl (Error "Missing businessId or callId in room metadata")
  /\ agent_log (world_of r) = agent_log w
  /\ world_of r = w.
Proof.
  intros o w. apply (entry_missing_ids_is_fatal _ o w). right. reflexivity.
Defined.

(** ** book_appointment: the date check *)

(** C2, as stated, fails.  The server runs in UTC, the tenant is configured
    for Asia/Tokyo, the wall clock reads 2030-01-01T05:00Z and the caller asks
    for 2030-01-01 at 10:00.  In the tenant's zone that instant is 01:00Z, four
    hours in the past; the tool reads the text in the zone of the process
    (10:00Z), does not answer that the date has passed, and creates the
    appointment row. *)
Lemma book_appointment_tenant_zone_counterexample :
  let env := reference_env 1893474000000 no_faults None Rejects Rejects in
  let tenant := acme false None None in
  let w := reference_world tenant (main_line None) in
  let a := AppointmentParams.mk "2030-01-01" "10:00" "John Doe" "john@example.com"
             None None None in
  let r := createBookAppointmentTool env (reference_context None None) a w in
  businesses w !! "biz-1" = Some tenant
  /\ tenant.(Business.timezone) = Some "Asia/Tokyo"
  /\ tenant_instant env tenant a = Some 1893459600000
  /\ 1893459600000 <= env_now env
  /\ result_of r <> inr msg_date_passed
  /\ appointments w = ∅
  /\ is_Some (appointments (world_of r) !! "0").
Proof.
  repeat split; try (vm_compute; congruence).
  vm_compute. eauto.
Qed.

(** The comparison is [scheduledAt < now]: an instant equal to the clock, and
    an Invalid Date, pass the check. *)
Lemma date_check_at_the_clock now :
  Date_lt (Some now) (Some now) = false /\ Date_lt None (Some now) = false.
Proof. split; [apply Date_lt_not_past; lia | reflexivity]. Qed.

(** C2, amended.  The date and the time are combined into an instant in the
    time zone of the server process (the tenant's zone is not read); whenever
    that instant is earlier than the wall clock of the invocation, the tool
    returns the message that the date has passed and writes nothing: no
    appointment row, no other row, no outbound request. *)
Theorem book_appointment_rejects_past env context (a : AppointmentParams.t) w t :
  env_parse env (env_zone env)
    (a.(AppointmentParams.date) +:+ "T" +:+ a.(AppointmentParams.time) +:+ ":00")
  = Some t ->
  t < env_now env ->
  createBookAppointmentTool env context a w = (w, inr msg_date_passed).
Proof.
  intros Hparse Hlt. unfold createBookAppointmentTool, try_catch, scheduledAt.
  rewrite Hparse. simpl.
  destruct (Z.ltb_spec t (env_now env)); [reflexivity | lia].
Qed.

Lemma book_appointment_rejects_past_witness :
  let env := reference_env 1893474000000 no_faults None Rejects Rejects in
  let w := reference_world (acme false None None) (main_line None) in
  let a := AppointmentParams.mk "2000-01-01" "10:00" "John Doe" "john@example.com"
             None None None in
  createBookAppointmentTool env (reference_context None None) a w
  = (w, inr msg_date_passed).
Proof.
  intros env w a.
  apply (book_appointment_rejects_past env (reference_context None None) a w
           946720800000); [reflexivity | reflexivity].
Defined.

(** ** book_appointment: the booking path *)

Lemma serves_cons env op ops :
  serves env (op :: ops) <-> env_fault env op = NoFault /\ serves env ops.
Proof.
  unfold serves. split.
  - intros H. inversion H; subst. split; assumption.
  - intros [H1 H2]. constructor; assumption.
Qed.

(** The calendar step never throws and touches nothing but the trace of
    outbound requests; a calendar that is not connected, or whose insert
    throws, leaves both the event id and the meeting link undefined. *)
Lemma calendar_enrichment_runs env business d (a : AppointmentParams.t) dur w :
  exists o eventId link,
    calendar_enrichment env business d a dur w
    = (with_outbound (fun _ => o) w, inr (eventId, link))
    /\ (env_calendar env = None -> eventId = None /\ link = None)
    /\ (truthy_bool business.(Business.google_calendar_connected) = false
        -> o = outbound w /\ eventId = None /\ link = None)
    /\ (truthy business.(Business.google_calendar_id) = false
        -> o = outbound w /\ eventId = None /\ link = None).
Proof.
  assert (Hid : with_outbound (fun _ => outbound w) w = w) by (destruct w; reflexivity).
  assert (Hstay : exists o eventId link,
             (w, @inr Exn _ (@None string, @None string))
             = (with_outbound (fun _ => o) w, inr (eventId, link))
             /\ (env_calendar env = None -> eventId = None /\ link = None)
             /\ (truthy_bool business.(Business.google_calendar_connected) = false
                 -> o = outbound w /\ eventId = None /\ link = None)
             /\ (truthy business.(Business.google_calendar_id) = false
                 -> o = outbound w /\ eventId = None /\ link = None)).
  { exists (outbound w), None, None. rewrite Hid. auto 10. }
  unfold calendar_enrichment.
  destruct (Business.google_calendar_id business) as [calendarId |] eqn:Hcal;
    [| exact Hstay].
  destruct (truthy_bool (Business.google_calendar_connected business)) eqn:Hconn;
    [| exact Hstay].
  destruct (truthy (Some calendarId)) eqn:Htr; [| exact Hstay].
  simpl. unfold try_catch, calendar_events_insert, bind, toISOString, record_outbound,
    modify, ret, throw.
  destruct d as [t |]; [| exact Hstay].
  destruct (TimeClip (t + dur * 60000)) as [t' |]; [| exact Hstay].
  destruct (env_calendar env) as [[id hangoutLink] |] eqn:Henv.
  - eexists _, _, _. split; [destruct w; reflexivity |].
    repeat split; intros; discriminate.
  - eexists _, None, None. split; [destruct w; reflexivity |].
    repeat split; intros; discriminate.
Qed.

(** With a date that passes the check, a tenant that is found and an insert
    that is served, the tool reaches [record_booking] with the new row in the
    table. *)
Lemma book_appointment_reaches_insert env context (a : AppointmentParams.t) w t b :
  scheduledAt env a = Some t ->
  env_now env <= t ->
  serves env [OpGetBusiness; OpCreateAppointment] ->
  businesses w !! context.(businessId) = Some b ->
  exists o eventId link,
    let id := fresh (dom (appointments w)) in
    let row :=
      appointment_data context a t (default 30 a.(AppointmentParams.duration_minutes))
        eventId link id in
    createBookAppointmentTool env context a w
    = try_catch (record_booking env context a t row link)
        (fun _ => ret msg_booking_failed)
        (with_appointments <[id := row]> (with_outbound (fun _ => o) w))
    /\ (env_calendar env = None -> eventId = None /\ link = None)
    /\ (truthy_bool b.(Business.google_calendar_connected) = false
        -> o = outbound w /\ eventId = None /\ link = None)
    /\ (truthy b.(Business.google_calendar_id) = false
        -> o = outbound w /\ eventId = None /\ link = None).
Proof.
  intros Ht Hfuture Hs Hb.
  apply serves_cons in Hs as [Hget Hs]. apply serves_cons in Hs as [Hins _].
  destruct (calendar_enrichment_runs env b (Some t) a
              (default 30 a.(AppointmentParams.duration_minutes)) w)
    as (o & eventId & link & Hrun & Hfacts).
  exists o, eventId, link. split; [| exact Hfacts].
  unfold createBookAppointmentTool. apply run_try_same.
  rewrite Ht, Date_lt_not_past by exact Hfuture.
  rewrite (run_bind _ _ w w (Some b)) by (rewrite getBusiness_served, Hb; auto).
  rewrite (run_bind _ _ _ _ _ Hrun).
  rewrite (run_bind _ _ _ _ t) by reflexivity.
  erewrite run_bind by (apply createAppointment_served; exact Hins).
  reflexivity.
Qed.

Lemma record_booking_succeeds env context (a : AppointmentParams.t) t row link w c :
  env_fault env OpInsertCallEvent <> ClientThrows ->
  env_fault env OpUpdateCall = NoFault ->
  calls w !! context.(callId) = Some c ->
  exists w',
    record_booking env context a t row link w
    = (w',
       inr (msg_booked (env_format_date env t) (env_format_time env t)
            +:+ (if truthy link
                 then msg_meet_link a.(AppointmentParams.customer_email)
                 else msg_confirmation_email a.(AppointmentParams.customer_email))))
    /\ appointments w' = appointments w
    /\ calls w'
       = <[context.(callId) := Call.apply (outcome_patch "appointment_booked") c]> (calls w).
Proof.
  intros Hlog Hupd Hc. unfold record_booking.
  destruct (logCallEvent_returns env context.(callId) "appointment_booked"
              [("appointment_id", DText row.(Appointment.id));
               ("scheduled_at", DInstant t);
               ("customer_name", DText a.(AppointmentParams.customer_name));
               ("customer_email", DText a.(AppointmentParams.customer_email))] w Hlog)
    as (w1 & Hrun & _ & _ & Hcalls & _ & Happ & _).
  rewrite (run_bind _ _ _ _ _ Hrun).
  erewrite run_bind
    by (apply updateCall_served; [exact Hupd | rewrite Hcalls; exact Hc]).
  eexists. split; [| split].
  - destruct (truthy link); reflexivity.
  - simpl. exact Happ.
  - simpl. rewrite Hcalls. reflexivity.
Qed.

Lemma record_booking_fails env context (a : AppointmentParams.t) t row link w :
  env_fault env OpInsertCallEvent = ClientThrows
  \/ env_fault env OpUpdateCall <> NoFault
  \/ calls w !! context.(callId) = None ->
  exists w' e,
    record_booking env context a t row link w = (w', inl e)
    /\ appointments w' = appointments w
    /\ calls w' = calls w.
Proof.
  intros H. unfold record_booking.
  destruct (decide (env_fault env OpInsertCallEvent = ClientThrows)) as [Hthrow | Hlog].
  - exists w, (ClientRejected OpInsertCallEvent). split; [| auto].
    apply run_bind_throw. unfold logCallEvent. rewrite Hthrow. reflexivity.
  - destruct H as [H | H]; [contradiction |].
    destruct (logCallEvent_returns env context.(callId) "appointment_booked"
                [("appointment_id", DText row.(Appointment.id));
                 ("scheduled_at", DInstant t);
                 ("customer_name", DText a.(AppointmentParams.customer_name));
                 ("customer_email", DText a.(AppointmentParams.customer_email))] w Hlog)
      as (w1 & Hrun & _ & _ & Hcalls & _ & Happ & _).
    rewrite (run_bind _ _ _ _ _ Hrun).
    destruct (updateCall_refused env context.(callId)
                (Call.mk_patch None None None None None None None
                   (Some "appointment_booked") None None) w1) as [e He].
    { rewrite Hcalls. exact H. }
    exists w1, e. split; [| auto]. apply run_bind_throw. exact He.
Qed.

(** C1, as stated, fails.  The server runs in UTC and the tenant is
    configured for America/New_York; the wall clock reads 2030-01-01T05:00Z
    (midnight in New York) and the caller asks for 2030-01-01 at 03:00.  In
    the tenant's zone that instant is 08:00Z, three hours in the future, and
    the store serves every operation; but the tool reads the text in the zone
    of the process (03:00Z, two hours ago), answers that the date has passed,
    creates no appointment row and leaves the outcome of the call unset. *)
Lemma book_appointment_future_in_tenant_zone_counterexample :
  let env := reference_env 1893474000000 no_faults None Rejects Rejects in
  let tenant := Business.mk "biz-1" (Some "America/New_York") (Some false) None None None in
  let w := reference_world tenant (main_line None) in
  let a := AppointmentParams.mk "2030-01-01" "03:00" "John Doe" "john@example.com"
             None None None in
  let r := createBookAppointmentTool env (reference_context None None) a w in
  serves env [OpGetBusiness; OpCreateAppointment; OpInsertCallEvent; OpUpdateCall]
  /\ businesses w !! "biz-1" = Some tenant
  /\ is_Some (calls w !! "call-1")
  /\ tenant_instant env tenant a = Some 1893484800000
  /\ env_now env < 1893484800000
  /\ scheduledAt env a = Some 1893466800000
  /\ result_of r = inr msg_date_passed
  /\ appointments (world_of r) = ∅
  /\ Call.outcome <$> calls (world_of r) !! "call-1" = Some None.
Proof.
  split; [repeat constructor |].
  split; [reflexivity |].
  split; [vm_compute; eauto |].
  repeat split; vm_compute; reflexivity.
Qed.

(** C1, amended.  Let the date and the time, read in the time zone of the
    server process (the tenant's zone is not read), be an instant in the
    future, and let the store serve the operations of the tool: the tenant
    row is found, the insert is served, and so is the update of the call row,
    which exists.  Then, whether or not a calendar is connected and whatever the
    calendar insert does, one appointment row is created, with status
    'scheduled' and under a key the table did not have, the outcome of the
    call becomes 'appointment_booked', and the tool returns the confirmation.
    A calendar that is not connected or whose insert throws changes one thing:
    the row carries no event id and no meeting link, and the confirmation is
    the one without the meeting link. *)
Theorem book_appointment_books_regardless_of_calendar
    env context (a : AppointmentParams.t) w t b c :
  scheduledAt env a = Some t ->
  env_now env < t ->
  serves env [OpGetBusiness; OpCreateAppointment; OpUpdateCall] ->
  env_fault env OpInsertCallEvent <> ClientThrows ->
  businesses w !! context.(businessId) = Some b ->
  calls w !! context.(callId) = Some c ->
  let r := createBookAppointmentTool env context a w in
  let id := fresh (dom (appointments w)) in
  exists eventId link,
    let row :=
      appointment_data context a t (default 30 a.(AppointmentParams.duration_minutes))
        eventId link id in
    appointments w !! id = None
    /\ appointments (world_of r) = <[id := row]> (appointments w)
    /\ row.(Appointment.status) = Some "scheduled"
    /\ row.(Appointment.scheduled_at) = t
    /\ calls (world_of r)
       = <[context.(callId) := Call.apply (outcome_patch "appointment_booked") c]> (calls w)
    /\ (Call.apply (outcome_patch "appointment_booked") c).(Call.outcome)
       = Some "appointment_booked"
    /\ result_of r
       = inr (msg_booked (env_format_date env t) (env_format_time env t)
              +:+ (if truthy link
                   then msg_meet_link a.(AppointmentParams.customer_email)
                   else msg_confirmation_email a.(AppointmentParams.customer_email)))
    /\ (env_calendar env = None
        \/ truthy_bool b.(Business.google_calendar_connected) = false
        \/ truthy b.(Business.google_calendar_id) = false
        -> eventId = None /\ link = None).
Proof.
  intros Ht Hfuture Hs Hlog Hb Hc r id. subst r id.
  apply serves_cons in Hs as [Hget Hs]. apply serves_cons in Hs as [Hins Hs].
  apply serves_cons in Hs as [Hupd _].
  destruct (book_appointment_reaches_insert env context a w t b Ht) as
    (o & eventId & link & Hrun & Hcal & Hconn & Hid);
    [lia | repeat constructor; assumption | exact Hb |].
  simpl in Hrun. rewrite Hrun. clear Hrun.
  exists eventId, link.
  match goal with
  | |- context [try_catch ?m ?h ?w1] =>
      destruct (record_booking_succeeds env context a t
                  (appointment_data context a t
                     (default 30 a.(AppointmentParams.duration_minutes)) eventId link
                     (fresh (dom (appointments w)))) link w1 c Hlog Hupd Hc)
        as (w2 & Hrec & Happ & Hcalls);
      rewrite (run_try _ _ _ _ _ Hrec)
  end.
  simpl. repeat split.
  - apply fresh_key_unused.
  - rewrite Happ. reflexivity.
  - rewrite Hcalls. reflexivity.
  - destruct H as [H | [H | H]]; [apply Hcal | apply Hconn | apply Hid]; exact H.
  - destruct H as [H | [H | H]]; [apply Hcal | apply Hconn | apply Hid]; exact H.
Qed.

(** A tenant with a connected calendar whose insert throws: the booking of
    2099-01-01 at 14:00 is persisted all the same. *)
Lemma book_appointment_books_regardless_of_calendar_witness :
  let env := reference_env 1893474000000 no_faults None Rejects Rejects in
  let w := reference_world (acme true None None) (main_line None) in
  let a := AppointmentParams.mk "2099-01-01" "14:00" "John Doe" "john@example.com"
             None None None in
  let r := createBookAppointmentTool env (reference_context None None) a w in
  (exists row, appointments (world_of r) !! "0" = Some row
     /\ row.(Appointment.status) = Some "scheduled"
     /\ row.(Appointment.google_meet_link) = None)
  /\ (exists c, calls (world_of r) !! "call-1" = Some c
        /\ c.(Call.outcome) = Some "appointment_booked").
Proof.
  intros env w a r.
  destruct (book_appointment_books_regardless_of_calendar env
              (reference_context None None) a w 4070959200000
              (acme true None None) call_1)
    as (eventId & link & _ & Happ & Hstatus & _ & Hcalls & Hout & _ & Hcal);
    [reflexivity | reflexivity | repeat constructor | discriminate
    | reflexivity | reflexivity |].
  destruct Hcal as [_ Hlink]; [left; reflexivity |].
  split.
  - eexists. split; [| split; [exact Hstatus |]].
    + fold r in Happ. rewrite Happ. apply lookup_insert_eq.
    + simpl. exact Hlink.
  - eexists. split; [| exact Hout].
    fold r in Hcalls. rewrite Hcalls. apply lookup_insert_eq.
Defined.

(** ** book_appointment is not atomic *)

(** C10.  Once the appointment row is created, a throw of the audit insert
    or of the call update (a store error, a rejected client call, or a call
    row that does not exist) makes the tool return the generic apology; the
    appointment row stays in the store and the call row is as it was, so the
    apology coexists with a persisted appointment. *)
Theorem book_appointment_not_atomic env context (a : AppointmentParams.t) w t b :
  scheduledAt env a = Some t ->
  env_now env <= t ->
  serves env [OpGetBusiness; OpCreateAppointment] ->
  businesses w !! context.(businessId) = Some b ->
  env_fault env OpInsertCallEvent = ClientThrows
  \/ env_fault env OpUpdateCall <> NoFault
  \/ calls w !! context.(callId) = None ->
  let r := createBookAppointmentTool env context a w in
  let id := fresh (dom (appointments w)) in
  result_of r = inr msg_booking_failed
  /\ appointments w !! id = None
  /\ (exists row, appointments (world_of r) = <[id := row]> (appointments w)
        /\ row.(Appointment.status) = Some "scheduled"
        /\ row.(Appointment.call_id) = Some context.(callId)
        /\ row.(Appointment.scheduled_at) = t)
  /\ calls (world_of r) = calls w.
Proof.
  intros Ht Hfuture Hs Hb Hthrow r id. subst r id.
  destruct (book_appointment_reaches_insert env context a w t b Ht Hfuture Hs Hb)
    as (o & eventId & link & Hrun & _).
  simpl in Hrun. rewrite Hrun. clear Hrun.
  match goal with
  | |- context [try_catch ?m ?h ?w1] =>
      destruct (record_booking_fails env context a t
                  (appointment_data context a t
                     (default 30 a.(AppointmentParams.duration_minutes)) eventId link
                     (fresh (dom (appointments w)))) link w1 Hthrow)
        as (w2 & e & Hrec & Happ & Hcalls);
      rewrite (run_try_caught _ _ _ _ _ Hrec)
  end.
  simpl. split; [reflexivity |]. split; [apply fresh_key_unused |]. split.
  - eexists. split; [rewrite Happ; reflexivity |]. repeat split.
  - rewrite Hcalls. reflexivity.
Qed.

(** The store rejects the call update after the insert: apology and row. *)
Lemma book_appointment_not_atomic_witness :
  let fault := fun op => match op with OpUpdateCall => ErrorReply | _ => NoFault end in
  let env := reference_env 1893474000000 fault None Rejects Rejects in
  let w := reference_world (acme false None None) (main_line None) in
  let a := AppointmentParams.mk "2099-01-01" "14:00" "John Doe" "john@example.com"
             None None None in
  let r := createBookAppointmentTool env (reference_context None None) a w in
  result_of r = inr msg_booking_failed
  /\ is_Some (appointments (world_of r) !! "0")
  /\ calls (world_of r) = calls w.
Proof.
  intros fault env w a r.
  destruct (book_appointment_not_atomic env (reference_context None None) a w
              4070959200000 (acme false None None))
    as (Hres & _ & (row & Happ & _) & Hcalls);
    [reflexivity | vm_compute; discriminate | repeat constructor | reflexivity
    | right; left; discriminate |].
  split; [exact Hres |]. split; [| exact Hcalls].
  fold r in Happ. rewrite Happ, lookup_insert_eq. eauto.
Defined.

(** ** create_lead and the CRM *)

Lemma hubspot_sync_when_crm_throws env context b (a : LeadParams.t) lead w key :
  b.(Business.hubspot_api_key) = Some key ->
  key <> "" ->
  reply_throws (env_hubspot env) = true ->
  exists o, hubspot_sync env context b a lead w = (with_outbound (fun _ => o) w, inr tt).
Proof.
  intros Hkey Hne Hthrows. unfold hubspot_sync. rewrite Hkey.
  assert (Htr : truthy (Some key) = true).
  { simpl. destruct (String.eqb_spec key ""); [contradiction | reflexivity]. }
  rewrite Htr. unfold try_catch, createHubSpotContact, bind, record_outbound, modify,
    ret, throw.
  destruct (split_first_space (LeadParams.name a)) as [firstname lastname].
  destruct (env_hubspot env) as [| [|] id]; try discriminate;
    eexists; destruct w; reflexivity.
Qed.

Lemma hubspot_sync_when_crm_answers env context b (a : LeadParams.t) lead w key cid l :
  b.(Business.hubspot_api_key) = Some key ->
  key <> "" ->
  env_hubspot env = Response true cid ->
  env_fault env OpUpdateLead = NoFault ->
  leads w !! lead.(Lead.id) = Some l ->
  exists o,
    hubspot_sync env context b a lead w
    = (with_leads <[lead.(Lead.id) := Lead.apply (Lead.mk_patch cid (Some (env_now env))) l]>
         (with_outbound (fun _ => o) w),
       inr tt).
Proof.
  intros Hkey Hne Hreply Hupd Hl. unfold hubspot_sync. rewrite Hkey.
  assert (Htr : truthy (Some key) = true).
  { simpl. destruct (String.eqb_spec key ""); [contradiction | reflexivity]. }
  rewrite Htr. unfold createHubSpotContact.
  destruct (split_first_space (LeadParams.name a)) as [firstname lastname].
  eexists. apply run_try.
  erewrite run_bind
    by (unfold bind, record_outbound, modify; rewrite Hreply; reflexivity).
  erewrite run_bind by (apply updateLead_served; [exact Hupd | exact Hl]).
  unfold ret, with_leads, with_outbound. simpl. reflexivity.
Qed.

Lemma record_lead_succeeds env context (a : LeadParams.t) lead w c :
  env_fault env OpInsertCallEvent <> ClientThrows ->
  env_fault env OpUpdateCall = NoFault ->
  calls w !! context.(callId) = Some c ->
  exists w',
    record_lead env context a lead w
    = (w', inr (msg_lead_saved a.(LeadParams.name) a.(LeadParams.email)
                  a.(LeadParams.phone)))
    /\ leads w' = leads w
    /\ calls w'
       = <[context.(callId) :=
             Call.apply
               (Call.mk_patch (Some a.(LeadParams.name)) a.(LeadParams.email)
                  None None None None None (Some "lead_captured") None None) c]>
           (calls w).
Proof.
  intros Hlog Hupd Hc. unfold record_lead.
  destruct (logCallEvent_returns env context.(callId) "lead_captured"
              ([("lead_id", DText lead.(Lead.id));
                ("name", DText a.(LeadParams.name))]
               ++ prop "email" a.(LeadParams.email)
               ++ prop "phone" a.(LeadParams.phone)) w Hlog)
    as (w1 & Hrun & _ & _ & Hcalls & Hleads & _).
  rewrite (run_bind _ _ _ _ _ Hrun).
  erewrite run_bind
    by (apply updateCall_served; [exact Hupd | rewrite Hcalls; exact Hc]).
  eexists. split; [reflexivity |]. simpl. rewrite Hcalls. auto.
Qed.

(** With a contact channel, a tenant that is found and a served insert, the
    tool reaches the CRM step with the new lead row in the table. *)
Lemma create_lead_reaches_sync env context (a : LeadParams.t) w b :
  truthy a.(LeadParams.email) || truthy a.(LeadParams.phone)
    || truthy context.(callerPhone) = true ->
  serves env [OpGetBusiness; OpCreateLead] ->
  businesses w !! context.(businessId) = Some b ->
  let id := fresh (dom (leads w)) in
  let row := lead_data context a (default "medium" a.(LeadParams.interest_level)) id in
  createLeadCaptureTool env context a w
  = try_catch
      (let* _ := hubspot_sync env context b a row in record_lead env context a row)
      (fun _ => ret msg_lead_failed)
      (with_leads <[id := row]> w).
Proof.
  intros Hcontact Hs Hb id row. subst id row.
  apply serves_cons in Hs as [Hget Hs]. apply serves_cons in Hs as [Hins _].
  unfold createLeadCaptureTool. apply run_try_same.
  replace (negb (truthy (LeadParams.email a)) && negb (truthy (LeadParams.phone a))
           && negb (truthy (callerPhone context))) with false
    by (destruct (truthy (LeadParams.email a)), (truthy (LeadParams.phone a)),
          (truthy (callerPhone context)); simpl in *; congruence).
  rewrite (run_bind _ _ w w (Some b)) by (rewrite getBusiness_served, Hb; auto).
  erewrite run_bind by (apply createLead_served; exact Hins).
  reflexivity.
Qed.

(** Whatever the store does to the audit insert and to the call update,
    they leave the leads alone. *)
Lemma record_lead_keeps_leads env context (a : LeadParams.t) lead w :
  leads (world_of (record_lead env context a lead w)) = leads w.
Proof.
  unfold record_lead, logCallEvent, updateCall.
  destruct (env_fault env OpInsertCallEvent); run_m; try reflexivity;
    destruct (env_fault env OpUpdateCall); run_m; try reflexivity;
    simpl; destruct (calls w !! callId context); reflexivity.
Qed.

(** A handler that returns a value does not touch the world. *)
Lemma try_catch_world {A} (m : M A) (a : A) w :
  world_of (try_catch m (fun _ => ret a) w) = world_of (m w).
Proof. unfold try_catch, ret. destruct (m w) as [w' [e | v]]; reflexivity. Qed.

(** C4.  Let the request carry a contact channel, let the tenant be found
    with a CRM API key, and let the store serve the lead insert.  Then no
    exception leaves the tool and the lead row is created under a new key.
    When the CRM call throws, that row stays as inserted; and whenever the
    store then serves the audit insert and the update of the call row, the
    outcome of the call is 'lead_captured' and the tool returns its
    confirmation.  When the CRM call answers with a contact id and the store
    serves the lead update, the row carries that id and the time of the sync,
    with outcome and confirmation under the same condition. *)
Theorem create_lead_survives_crm_failure env context (a : LeadParams.t) w b key :
  truthy a.(LeadParams.email) || truthy a.(LeadParams.phone)
    || truthy context.(callerPhone) = true ->
  serves env [OpGetBusiness; OpCreateLead] ->
  businesses w !! context.(businessId) = Some b ->
  b.(Business.hubspot_api_key) = Some key ->
  key <> "" ->
  let r := createLeadCaptureTool env context a w in
  let id := fresh (dom (leads w)) in
  let row := lead_data context a (default "medium" a.(LeadParams.interest_level)) id in
  let confirmation :=
    msg_lead_saved a.(LeadParams.name) a.(LeadParams.email) a.(LeadParams.phone) in
  let recorded :=
    forall c,
      env_fault env OpInsertCallEvent <> ClientThrows ->
      env_fault env OpUpdateCall = NoFault ->
      calls w !! context.(callId) = Some c ->
      calls (world_of r) = <[context.(callId) := Call.apply (lead_patch a) c]> (calls w)
      /\ (Call.apply (lead_patch a) c).(Call.outcome) = Some "lead_captured"
      /\ result_of r = inr confirmation in
  leads w !! id = None
  /\ (exists s, result_of r = inr s)
  /\ (reply_throws (env_hubspot env) = true ->
      leads (world_of r) = <[id := row]> (leads w) /\ recorded)
  /\ (forall cid,
        env_hubspot env = Response true (Some cid) ->
        env_fault env OpUpdateLead = NoFault ->
        let synced := Lead.apply (Lead.mk_patch (Some cid) (Some (env_now env))) row in
        leads (world_of r) = <[id := synced]> (leads w)
        /\ synced.(Lead.hubspot_contact_id) = Some cid
        /\ synced.(Lead.synced_at) = Some (env_now env)
        /\ recorded).
Proof.
  intros Hcontact Hs Hb Hkey Hne r id row confirmation recorded.
  subst recorded r confirmation.
  split; [apply fresh_key_unused |].
  split; [apply try_catch_returns |].
  rewrite (create_lead_reaches_sync env context a w b Hcontact Hs Hb).
  fold id row.
  split.
  - intros Hthrows.
    destruct (hubspot_sync_when_crm_throws env context b a row
                (with_leads <[id := row]> w) key Hkey Hne Hthrows) as [o Hsync].
    rewrite try_catch_world.
    rewrite (run_bind _ _ _ _ _ Hsync).
    split; [rewrite record_lead_keeps_leads; reflexivity |].
    intros c Hlog Hupd Hc.
    destruct (record_lead_succeeds env context a row
                (with_outbound (fun _ => o) (with_leads <[id := row]> w)) c Hlog Hupd Hc)
      as (w2 & Hrec & _ & Hcalls).
    erewrite run_try by (erewrite run_bind by exact Hsync; exact Hrec).
    rewrite Hrec. simpl. rewrite Hcalls. auto.
  - intros cid Hreply Hlead synced.
    destruct (hubspot_sync_when_crm_answers env context b a row
                (with_leads <[id := row]> w) key (Some cid) row Hkey Hne Hreply Hlead)
      as [o Hsync]; [apply lookup_insert_eq |].
    rewrite try_catch_world.
    rewrite (run_bind _ _ _ _ _ Hsync).
    split; [rewrite record_lead_keeps_leads; simpl; apply insert_insert_eq |].
    split; [reflexivity |]. split; [reflexivity |].
    intros c Hlog Hupd Hc.
    match type of Hsync with
    | _ = (?w1, _) =>
        destruct (record_lead_succeeds env context a row w1 c Hlog Hupd Hc)
          as (w2 & Hrec & _ & Hcalls)
    end.
    erewrite run_try by (erewrite run_bind by exact Hsync; exact Hrec).
    rewrite Hrec. simpl. rewrite Hcalls. auto.
Qed.

(** The tenant has a key and HubSpot answers 500: the lead of Bob Johnson is
    saved and the call is marked; with an answer carrying the id [12345], the
    row carries it. *)
Lemma create_lead_survives_crm_failure_witness :
  let a := LeadParams.mk "Bob Johnson" (Some "bob@startup.io") (Some "+15556667777")
             (Some "Startup Inc") (Some "high") (Some "Interested in Pro plan") in
  let w := reference_world (acme false (Some "test-hubspot-key") None) (main_line None) in
  let down := reference_env 1893474000000 no_faults None (Response false None) Rejects in
  let up := reference_env 1893474000000 no_faults None (Response true (Some "12345"))
              Rejects in
  let r := createLeadCaptureTool down (reference_context None None) a w in
  let r' := createLeadCaptureTool up (reference_context None None) a w in
  (is_Some (leads (world_of r) !! "0")
   /\ (exists c, calls (world_of r) !! "call-1" = Some c
         /\ c.(Call.outcome) = Some "lead_captured")
   /\ exists s, result_of r = inr s)
  /\ exists l, leads (world_of r') !! "0" = Some l
       /\ l.(Lead.hubspot_contact_id) = Some "12345"
       /\ l.(Lead.synced_at) = Some 1893474000000.
Proof.
  intros a w down up r r'. split.
  - destruct (create_lead_survives_crm_failure down (reference_context None None) a w
                (acme false (Some "test-hubspot-key") None) "test-hubspot-key")
      as (_ & Hret & Hdown & _);
      [reflexivity | repeat constructor | reflexivity | reflexivity | discriminate |].
    destruct (Hdown eq_refl) as (Hleads & Hrecorded).
    destruct (Hrecorded call_1) as (Hcalls & Hout & _);
      [discriminate | reflexivity | reflexivity |].
    fold r in Hleads, Hcalls, Hret.
    split; [rewrite Hleads, lookup_insert_eq; eauto |].
    split; [| exact Hret].
    eexists. split; [rewrite Hcalls; apply lookup_insert_eq | exact Hout].
  - destruct (create_lead_survives_crm_failure up (reference_context None None) a w
                (acme false (Some "test-hubspot-key") None) "test-hubspot-key")
      as (_ & _ & _ & Hup);
      [reflexivity | repeat constructor | reflexivity | reflexivity | discriminate |].
    destruct (Hup "12345" eq_refl eq_refl) as (Hleads & Hid & Hsynced & _).
    fold r' in Hleads.
    eexists. split; [rewrite Hleads; apply lookup_insert_eq |].
    split; [exact Hid | exact Hsynced].
Defined.

(** ** transfer_to_human *)

(** C5.  When the line configuration associated with the call has no
    forwarding number, transfer_to_human leaves the whole world as it was
    (the call row is not updated, so [transferred_to_human] is not set, and no
    redirect request is sent to the carrier), and its answer is one of the two
    messages that promise a follow-up by the team; it is the first of them
    whenever the tenant, the call and its line reference are read. *)
Theorem transfer_without_forwarding_number env context (a : TransferParams.t) w :
  truthy (forwarding_number w context.(callId)) = false ->
  let r := createTransferToHumanTool env context a w in
  world_of r = w
  /\ calls (world_of r) = calls w
  /\ outbound (world_of r) = outbound w
  /\ (result_of r = inr msg_no_transfer_number \/ result_of r = inr msg_transfer_failed)
  /\ (serves env [OpGetBusiness; OpGetCall] ->
      env_fault env OpSelectPhoneNumber <> ClientThrows ->
      is_Some (businesses w !! context.(businessId)) ->
      truthy (calls w !! context.(callId) ≫= Call.phone_number_id) = true ->
      result_of r = inr msg_no_transfer_number).
Proof.
  intros Hnone r.
  assert (Hrun : (r = (w, inr msg_no_transfer_number) \/ r = (w, inr msg_transfer_failed))
                 /\ (serves env [OpGetBusiness; OpGetCall] ->
                     env_fault env OpSelectPhoneNumber <> ClientThrows ->
                     is_Some (businesses w !! context.(businessId)) ->
                     truthy (calls w !! context.(callId) ≫= Call.phone_number_id) = true ->
                     r = (w, inr msg_no_transfer_number))).
  { subst r. unfold forwarding_number in Hnone.
    unfold createTransferToHumanTool, getBusiness, getCall, selectPhoneNumber.
    split.
    - destruct (env_fault env OpGetBusiness); run_m; [| solve [auto] ..].
      destruct (businesses w !! businessId context); run_m; [| solve [auto]].
      destruct (env_fault env OpGetCall); run_m; [| solve [auto] ..].
      destruct (calls w !! callId context) as [c |]; run_m; [| solve [auto]].
      simpl in Hnone.
      destruct (Call.phone_number_id c) as [pid |]; run_m; [| solve [auto]].
      simpl in Hnone.
      destruct (negb (truthy (Some pid))); run_m; [solve [auto] |].
      destruct (env_fault env OpSelectPhoneNumber); run_m; [| solve [auto] ..].
      destruct (phone_numbers w !! pid) as [line |]; run_m; [| solve [auto]].
      change (truthy (PhoneNumber.forward_to line) = false) in Hnone.
      change (Some line ≫= PhoneNumber.forward_to) with (PhoneNumber.forward_to line).
      destruct (PhoneNumber.forward_to line) as [number |]; run_m; [| solve [auto]].
      rewrite Hnone. run_m. auto.
    - intros Hs Hsel [b Hb] Hpid.
      apply serves_cons in Hs as [Hget Hs]. apply serves_cons in Hs as [Hcall _].
      rewrite Hget, Hcall. run_m. rewrite Hb. run_m.
      destruct (calls w !! callId context) as [c |]; [| discriminate].
      simpl in Hnone. change (truthy (Call.phone_number_id c) = true) in Hpid.
      destruct (Call.phone_number_id c) as [pid |]; [| discriminate].
      simpl in Hnone. run_m. rewrite Hpid. cbn [negb]. run_m.
      destruct (env_fault env OpSelectPhoneNumber); run_m;
        [| reflexivity | contradiction].
      destruct (phone_numbers w !! pid) as [line |]; run_m; [| reflexivity].
      change (truthy (PhoneNumber.forward_to line) = false) in Hnone.
      change (Some line ≫= PhoneNumber.forward_to) with (PhoneNumber.forward_to line).
      destruct (PhoneNumber.forward_to line) as [number |]; run_m; [| reflexivity].
      rewrite Hnone. reflexivity. }
  destruct Hrun as [Hany Hserved].
  assert (Hw : world_of r = w) by (destruct Hany as [-> | ->]; reflexivity).
  split; [exact Hw |]. rewrite Hw. split; [reflexivity |]. split; [reflexivity |].
  split.
  - destruct Hany as [-> | ->]; auto.
  - intros. rewrite Hserved by assumption. reflexivity.
Qed.

(** The line of the call has no [forward_to]. *)
Lemma transfer_without_forwarding_number_witness :
  let env := reference_env 1893474000000 no_faults None Rejects (Response true None) in
  let w := reference_world (acme false None None) (main_line None) in
  let a := TransferParams.mk "complex billing question" (Some "high") None in
  let r := createTransferToHumanTool env (reference_context None (Some "CA1")) a w in
  world_of r = w /\ result_of r = inr msg_no_transfer_number.
Proof.
  intros env w a r.
  destruct (transfer_without_forwarding_number env
              (reference_context None (Some "CA1")) a w) as (Hw & _ & _ & _ & Hmsg);
    [reflexivity |].
  split; [exact Hw |].
  apply Hmsg; [repeat constructor | discriminate | vm_compute; eauto | reflexivity].
Defined.

(** C6.  Let the line of the call carry a forwarding number, and let the
    store serve the operations of the tool: the tenant row is found, the
    call and its line are read, the call update and the audit insert are
    served.  Then, whether the carrier redirect succeeds, throws, or is skipped
    for lack of a telephony leg, the call row is updated with
    [transferred_to_human] true and outcome 'transferred', exactly one audit
    event is appended and its type is 'transfer_initiated', and the answer is
    one of the two transfer-in-progress messages: the one that announces the
    transfer when the redirect went through, the one that promises the
    connection otherwise. *)
Theorem transfer_with_forwarding_number
    env context (a : TransferParams.t) w b c pid line number :
  serves env [OpGetBusiness; OpGetCall; OpSelectPhoneNumber; OpUpdateCall;
              OpInsertCallEvent] ->
  businesses w !! context.(businessId) = Some b ->
  calls w !! context.(callId) = Some c ->
  c.(Call.phone_number_id) = Some pid ->
  pid <> "" ->
  phone_numbers w !! pid = Some line ->
  line.(PhoneNumber.forward_to) = Some number ->
  number <> "" ->
  let r := createTransferToHumanTool env context a w in
  let call' := Call.apply (transfer_patch a) c in
  calls (world_of r) = <[context.(callId) := call']> (calls w)
  /\ call'.(Call.transferred_to_human) = Some true
  /\ call'.(Call.outcome) = Some "transferred"
  /\ (exists data,
        call_events (world_of r)
        = call_events w ++ [CallEvent.mk context.(callId) "transfer_initiated" data])
  /\ result_of r
     = inr (if redirect_succeeds env context
            then msg_transferring a.(TransferParams.reason)
            else msg_connecting a.(TransferParams.reason))
  /\ (truthy context.(twilioCallSid) = false -> outbound (world_of r) = outbound w).
Proof.
  intros Hs Hb Hc Hpid Hpidne Hline Hfwd Hnumne r call'. subst r call'.
  apply serves_cons in Hs as [Hget Hs]. apply serves_cons in Hs as [Hcall Hs].
  apply serves_cons in Hs as [Hsel Hs]. apply serves_cons in Hs as [Hupd Hs].
  apply serves_cons in Hs as [Hlog _].
  assert (Htp : truthy (Some pid) = true).
  { simpl. destruct (String.eqb_spec pid ""); [contradiction | reflexivity]. }
  assert (Htn : truthy (Some number) = true).
  { simpl. destruct (String.eqb_spec number ""); [contradiction | reflexivity]. }
  unfold createTransferToHumanTool, redirect_succeeds.
  rewrite (run_try_same _
             (let* transferred :=
                match context.(twilioCallSid) with
                | Some sid =>
                    if truthy (Some sid)
                    then try_catch
                           (let* _ := initiateTransferViaTwilio env sid number in ret true)
                           (fun _ => ret false)
                    else ret false
                | None => ret false
                end in
              if transferred
              then ret (msg_transferring a.(TransferParams.reason))
              else ret (msg_connecting a.(TransferParams.reason)))
             _ w
             (with_call_events
                (fun l => l ++ [CallEvent.mk context.(callId) "transfer_initiated"
                                  ([("reason", DText a.(TransferParams.reason));
                                    ("urgency", DText (default "medium" a.(TransferParams.urgency)))]
                                   ++ prop "notes" a.(TransferParams.notes)
                                   ++ [("transfer_number", DText number)])])
                (with_calls <[context.(callId) := Call.apply (transfer_patch a) c]> w))).
  2: { rewrite (run_bind _ _ w w (Some b)) by (rewrite getBusiness_served, Hb; auto).
       rewrite (run_bind _ _ w w (Some c)) by (rewrite getCall_served, Hc; auto).
       rewrite Hpid, Htp. cbn [negb].
       rewrite (run_bind _ _ w w (Some line))
         by (rewrite selectPhoneNumber_served, Hline; auto).
       cbn [mbind option_bind]. rewrite Hfwd, Htn. cbn [negb].
       erewrite run_bind by (apply updateCall_served; [exact Hupd | exact Hc]).
       erewrite run_bind by (apply logCallEvent_served; exact Hlog).
       reflexivity. }
  unfold initiateTransferViaTwilio, record_outbound.
  destruct (twilioCallSid context) as [sid |]; [| repeat split; eauto].
  destruct (truthy (Some sid)) eqn:Hsid; [| repeat split; eauto].
  run_m. cbn [andb].
  destruct (env_twilio_credentials env); cbn [negb andb]; [| repeat split; eauto].
  destruct (env_twilio env) as [| [|] id]; cbn [reply_throws negb];
    repeat split; eauto; discriminate.
Qed.

(** The line forwards to a number, the call has a telephony leg, and the
    carrier answers the redirect with an error: the call is marked as
    transferred, one event is recorded, the caller hears that the team is being
    connected. *)
Lemma transfer_with_forwarding_number_witness :
  let env := reference_env 1893474000000 no_faults None Rejects (Response false None) in
  let w := reference_world (acme false None None) (main_line (Some "+15559876543")) in
  let a := TransferParams.mk "billing" (Some "high") None in
  let r := createTransferToHumanTool env (reference_context None (Some "CA1")) a w in
  (exists c, calls (world_of r) !! "call-1" = Some c
     /\ c.(Call.transferred_to_human) = Some true
     /\ c.(Call.outcome) = Some "transferred")
  /\ length (call_events (world_of r)) = 1%nat
  /\ result_of r = inr (msg_connecting "billing").
Proof.
  intros env w a r.
  destruct (transfer_with_forwarding_number env (reference_context None (Some "CA1")) a w
              (acme false None None) call_1 "pn-1" (main_line (Some "+15559876543"))
              "+15559876543")
    as (Hcalls & Hflag & Hout & (data & Hev) & Hres & _);
    [repeat constructor | reflexivity | reflexivity | reflexivity | discriminate
    | reflexivity | reflexivity | discriminate |].
  fold r in Hcalls, Hev, Hres. split; [| split].
  - eexists. split; [rewrite Hcalls; apply lookup_insert_eq |]. split; assumption.
  - rewrite Hev. reflexivity.
  - exact Hres.
Defined.

(** ** check_business_hours *)

(** What the tool would answer on a Tuesday at 14:00, at 18:30, and on a
    Sunday, had it the day and the time. *)
Example hours_answer_open :
  hours_answer weekday_hours "tuesday" "14:00"
  = "Our office is currently open until 5:00 PM. I can transfer you to a team member if needed.".
Proof. vm_compute. reflexivity. Qed.

Example hours_answer_closed :
  hours_answer weekday_hours "tuesday" "18:30"
  = "Our office is currently closed. We're open 9:00 AM to 5:00 PM tuesday. Would you like to schedule a callback or leave a message?".
Proof. vm_compute. reflexivity. Qed.

Example hours_answer_sunday :
  hours_answer weekday_hours "sunday" "10:00" = msg_closed_today.
Proof. vm_compute. reflexivity. Qed.

(** Without a tenant row or without an hours map the answer is the Monday
    through Friday statement; a lookup that the store answers with an error is
    such a case, as [getBusiness] turns it into [null]. *)
Lemma check_business_hours_without_hours env context w :
  env_fault env OpGetBusiness <> ClientThrows ->
  env_fault env OpGetBusiness = ErrorReply
  \/ businesses w !! context.(businessId) ≫= Business.business_hours = None ->
  createBusinessHoursTool env context w = (w, inr msg_mon_fri).
Proof.
  intros Hthrow H. unfold createBusinessHoursTool, getBusiness.
  destruct (env_fault env OpGetBusiness); [| reflexivity | contradiction].
  destruct H as [H | H]; [discriminate |]. run_m.
  destruct (businesses w !! businessId context) as [b |]; [| reflexivity].
  simpl in H. rewrite H. reflexivity.
Qed.

(** The tool never throws. *)
Lemma check_business_hours_returns env context w :
  exists s, result_of (createBusinessHoursTool env context w) = inr s.
Proof. apply try_catch_returns. Qed.

(** C7 (the code departs from the claim).  When the tenant row is read and
    has an hours map, with or without an entry for the current weekday, the
    tool answers the prompt that offers to schedule a callback, and never
    whether the office is open or closed: the weekday style 'lowercase' that
    it hands to the date formatter is none of 'narrow', 'short', 'long', the
    formatter throws a RangeError, and the [catch] of the tool turns it into
    the prompt. *)
Theorem check_business_hours_never_reports env context w b hours :
  env_fault env OpGetBusiness = NoFault ->
  businesses w !! context.(businessId) = Some b ->
  b.(Business.business_hours) = Some hours ->
  createBusinessHoursTool env context w = (w, inr msg_schedule_callback).
Proof.
  intros Hget Hb Hhours. unfold createBusinessHoursTool.
  rewrite (run_try_caught _ _ w w
             (if env_zone_known env (or_default b.(Business.timezone) "America/New_York")
              then RangeError "Value out of range for Intl.DateTimeFormat options property weekday"
              else RangeError "Invalid time zone specified"));
    [reflexivity |].
  rewrite (run_bind _ _ w w (Some b)) by (rewrite getBusiness_served, Hb; auto).
  rewrite Hhours. apply run_bind_throw.
  unfold toLocaleDateString_weekday.
  destruct (env_zone_known env _); reflexivity.
Qed.

(** A Tuesday at 14:00 in the tenant's zone, within the hours of the day: the
    claim expects the message that the office is open until 5:00 PM. *)
Lemma check_business_hours_never_reports_witness :
  let env := reference_env 1893474000000 no_faults None Rejects Rejects in
  let w := reference_world (acme false None (Some weekday_hours)) (main_line None) in
  env_weekday env "long" "Asia/Tokyo" (env_now env) = "Tuesday"
  /\ env_hhmm env "Asia/Tokyo" (env_now env) = "14:00"
  /\ createBusinessHoursTool env (reference_context None None) w
     = (w, inr msg_schedule_callback).
Proof.
  intros env w. split; [reflexivity |]. split; [reflexivity |].
  apply (check_business_hours_never_reports env (reference_context None None) w
           (acme false None (Some weekday_hours)) weekday_hours); reflexivity.
Defined.

(** ** The status of a call *)

Lemma head_all_equal {A} (l : list A) (x : A) :
  x ∈ l -> (forall y, y ∈ l -> y = x) -> head l = Some x.
Proof.
  destruct l as [| y l]; intros Hin Hall.
  - inversion Hin.
  - simpl. f_equal. apply Hall. left.
Qed.

Lemma selectCallBySid_found env w callId sid c :
  env_fault env OpSelectCallBySid = NoFault ->
  tracks w callId sid ->
  calls w !! callId = Some c ->
  selectCallBySid env sid w = (w, inr (Some c)).
Proof.
  intros Hsel [(c0 & Hc0 & _ & Hsid) Huniq] Hc.
  assert (c0 = c) by congruence. subst c0.
  unfold selectCallBySid. rewrite Hsel. run_m. do 2 f_equal.
  apply head_all_equal.
  - apply list_elem_of_filter. split; [exact Hsid |].
    apply list_elem_of_fmap. exists (callId, c). split; [reflexivity |].
    apply elem_of_map_to_list. exact Hc.
  - intros y Hy. apply list_elem_of_filter in Hy as [Hysid Hy].
    apply list_elem_of_fmap in Hy as ([k c'] & -> & Hkc).
    apply elem_of_map_to_list in Hkc. simpl in *.
    assert (k = callId) by (eapply Huniq; eassumption). subst k. congruence.
Qed.

(** The status handler, once it has found the row: the update is made, and
    whatever the audit insert does afterwards the calls stay as updated. *)
Lemma twilio_status_updates env w callId sid c CallStatus CallDuration :
  serves env [OpSelectCallBySid; OpUpdateCall] ->
  tracks w callId sid ->
  calls w !! callId = Some c ->
  calls (world_of (twilio_status env sid CallStatus CallDuration w))
  = <[callId := Call.apply (status_updates env CallStatus CallDuration) c]> (calls w).
Proof.
  intros Hs Htr Hc.
  apply serves_cons in Hs as [Hsel Hs]. apply serves_cons in Hs as [Hupd _].
  assert (Hid : c.(Call.id) = callId).
  { destruct Htr as [(c0 & Hc0 & Hid & _) _]. congruence. }
  unfold twilio_status, try_catch.
  rewrite (run_bind _ _ _ _ _ (selectCallBySid_found env w callId sid c Hsel Htr Hc)).
  rewrite Hid.
  erewrite run_bind by (apply updateCall_served; [exact Hupd | exact Hc]).
  unfold logCallEvent.
  destruct (env_fault env OpInsertCallEvent); reflexivity.
Qed.

(** What one operation does to the row of the call. *)
Lemma run_status_op_writes callId sid env op w c :
  serves env [OpGetCall; OpSelectCallBySid; OpUpdateCall] ->
  tracks w callId sid ->
  calls w !! callId = Some c ->
  exists p,
    calls (run_status_op callId sid (env, op) w) = <[callId := Call.apply p c]> (calls w)
    /\ (Call.apply p c).(Call.status) = default c.(Call.status) (status_written op).
Proof.
  intros Hs Htr Hc.
  apply serves_cons in Hs as [Hget Hs]. apply serves_cons in Hs as [Hsel Hs].
  apply serves_cons in Hs as [Hupd _].
  destruct op as [| CallStatus CallDuration |]; unfold run_status_op; simpl fst; simpl snd.
  - unfold session_start_update.
    rewrite (updateCall_served env _ _ _ c Hupd Hc).
    eexists. split; reflexivity.
  - exists (status_updates env CallStatus CallDuration). split.
    + apply twilio_status_updates; [repeat constructor | |]; assumption.
    + unfold status_updates, status_written.
      destruct (terminal_CallStatus CallStatus); reflexivity.
  - unfold updateFinalCallStats, try_catch.
    rewrite (run_bind _ _ w w (Some c)) by (rewrite getCall_served, Hc; auto).
    erewrite run_bind by (apply updateCall_served; [exact Hupd | exact Hc]).
    eexists. split; reflexivity.
Qed.

Lemma tracks_after_write w callId sid c p :
  tracks w callId sid ->
  calls w !! callId = Some c ->
  forall w', calls w' = <[callId := Call.apply p c]> (calls w) ->
  tracks w' callId sid.
Proof.
  intros [(c0 & Hc0 & Hid & Hsid) Huniq] Hc w' Hw'.
  assert (c0 = c) by congruence. subst c0. split.
  - exists (Call.apply p c). rewrite Hw', lookup_insert_eq. auto.
  - intros k c' Hk Hksid. rewrite Hw' in Hk.
    destruct (decide (callId = k)) as [-> | Hne]; [reflexivity |].
    rewrite lookup_insert_ne in Hk by exact Hne. eapply Huniq; eassumption.
Qed.

(** The core writes [in_progress], [completed] or [failed], never
    [abandoned]. *)
Lemma status_written_not_abandoned op : status_written op <> Some abandoned.
Proof.
  destruct op as [| CallStatus CallDuration |]; simpl; try discriminate.
  destruct (terminal_CallStatus CallStatus); [| discriminate].
  destruct (String.eqb CallStatus "completed"); discriminate.
Qed.

(** C9, as stated, fails.  The call of the reference store is in progress.
    A status callback 'busy' marks it failed, and the shutdown finalization
    that follows overwrites this terminal value with another one, completed.
    In a second run the callback 'completed' comes first (the caller hung up
    while the agent was still starting) and the session-start update takes the
    status back to in_progress. *)
Lemma call_status_overwritten_counterexample :
  let env := reference_env 1893490060000 no_faults None Rejects Rejects in
  let w0 := reference_world (acme false None None) (main_line None) in
  let w1 := run_status_op "call-1" "CA1" (env, StatusCallback "busy" None) w0 in
  let w2 := run_status_op "call-1" "CA1" (env, Finalize) w1 in
  let v1 := run_status_op "call-1" "CA1" (env, StatusCallback "completed" (Some "12")) w0 in
  let v2 := run_status_op "call-1" "CA1" (env, SessionStart) v1 in
  status_of w0 "call-1" = Some in_progress
  /\ status_of w1 "call-1" = Some failed
  /\ status_of w2 "call-1" = Some completed
  /\ ~ moves_forward failed completed
  /\ status_of v1 "call-1" = Some completed
  /\ status_of v2 "call-1" = Some in_progress
  /\ ~ moves_forward completed in_progress.
Proof.
  repeat split; try (vm_compute; reflexivity);
    intros [H | [H _]]; discriminate.
Qed.

(** C9, amended.  Every status-writing operation of the core writes its value
    whatever the current status is: the session-start update writes
    in_progress, a status callback writes completed for 'completed' and failed
    for 'failed', 'busy' and 'no-answer' (and nothing for any other status of
    the carrier), the shutdown finalization writes completed.  So after any
    sequence of such operations, each served by the store, the status of the
    call is the value of the last operation that wrote one (the last write
    wins), and it is abandoned only if the call started so. *)
Theorem call_status_is_last_write callId sid (steps : list (Env * StatusOp)) w c :
  Forall (fun step => serves (fst step) [OpGetCall; OpSelectCallBySid; OpUpdateCall])
    steps ->
  tracks w callId sid ->
  calls w !! callId = Some c ->
  status_of (run_status_ops callId sid steps w) callId
  = Some (last_written c.(Call.status) steps)
  /\ (c.(Call.status) <> abandoned ->
      last_written c.(Call.status) steps <> abandoned).
Proof.
  intros Hserved. revert w c.
  induction Hserved as [| [env op] steps Hs _ IH]; intros w c Htr Hc.
  - unfold status_of. simpl. rewrite Hc. auto.
  - destruct (run_status_op_writes callId sid env op w c Hs Htr Hc) as (p & Hw' & Hst).
    assert (Hc' : calls (run_status_op callId sid (env, op) w) !! callId
                  = Some (Call.apply p c)) by (rewrite Hw'; apply lookup_insert_eq).
    destruct (IH _ _ (tracks_after_write w callId sid c p Htr Hc _ Hw') Hc')
      as [Hlast Hnot].
    unfold run_status_ops, last_written in *. simpl.
    rewrite Hst in Hlast, Hnot. split; [exact Hlast |].
    intros Hinit. apply Hnot.
    destruct (status_written op) as [s |] eqn:Hop; simpl; [| exact Hinit].
    intros ->. exact (status_written_not_abandoned op Hop).
Qed.

(** The first run of the counterexample: the status ends as the value of the
    last write. *)
Lemma call_status_is_last_write_witness :
  let env := reference_env 1893490060000 no_faults None Rejects Rejects in
  let w := reference_world (acme false None None) (main_line None) in
  let steps := [(env, StatusCallback "busy" None); (env, Finalize)] in
  status_of (run_status_ops "call-1" "CA1" steps w) "call-1" = Some completed.
Proof.
  intros env w steps.
  destruct (call_status_is_last_write "call-1" "CA1" steps w call_1) as [H _];
    [repeat constructor | | reflexivity | exact H].
  split.
  - exists call_1. repeat split; reflexivity.
  - intros k c' Hk _. unfold w, reference_world in Hk. simpl in Hk.
    apply lookup_singleton_Some in Hk as [Hk _]. symmetry. exact Hk.
Defined.

(** ** The other ways out of the tools

    The tenant lookup that returns [null] (no row, or an error reply of the
    store) sends each of the three tools to its [catch]: the apology is
    returned and nothing is written. *)

Lemma getBusiness_null env id w :
  env_fault env OpGetBusiness = ErrorReply
  \/ (env_fault env OpGetBusiness = NoFault /\ businesses w !! id = None) ->
  getBusiness env id w = (w, inr None).
Proof.
  unfold getBusiness. intros [-> | [-> H]]; [reflexivity |].
  run_m. rewrite H. reflexivity.
Qed.

Lemma book_appointment_without_tenant env context (a : AppointmentParams.t) w :
  Date_lt (scheduledAt env a) (Some (env_now env)) = false ->
  env_fault env OpGetBusiness = ErrorReply
  \/ (env_fault env OpGetBusiness = NoFault
      /\ businesses w !! context.(businessId) = None) ->
  createBookAppointmentTool env context a w = (w, inr msg_booking_failed).
Proof.
  intros Hdate Hnull. unfold createBookAppointmentTool.
  rewrite (run_try_caught _ _ w w (Error "Business not found")); [reflexivity |].
  rewrite Hdate.
  rewrite (run_bind _ _ _ _ _ (getBusiness_null env _ w Hnull)). reflexivity.
Qed.

Lemma create_lead_without_tenant env context (a : LeadParams.t) w :
  truthy a.(LeadParams.email) || truthy a.(LeadParams.phone)
    || truthy context.(callerPhone) = true ->
  env_fault env OpGetBusiness = ErrorReply
  \/ (env_fault env OpGetBusiness = NoFault
      /\ businesses w !! context.(businessId) = None) ->
  createLeadCaptureTool env context a w = (w, inr msg_lead_failed).
Proof.
  intros Hcontact Hnull. unfold createLeadCaptureTool.
  rewrite (run_try_caught _ _ w w (Error "Business not found")); [reflexivity |].
  replace (negb (truthy (LeadParams.email a)) && negb (truthy (LeadParams.phone a))
           && negb (truthy (callerPhone context))) with false
    by (destruct (truthy (LeadParams.email a)), (truthy (LeadParams.phone a)),
          (truthy (callerPhone context)); simpl in *; congruence).
  rewrite (run_bind _ _ _ _ _ (getBusiness_null env _ w Hnull)). reflexivity.
Qed.

Lemma transfer_without_tenant env context (a : TransferParams.t) w :
  env_fault env OpGetBusiness = ErrorReply
  \/ (env_fault env OpGetBusiness = NoFault
      /\ businesses w !! context.(businessId) = None) ->
  createTransferToHumanTool env context a w = (w, inr msg_transfer_failed).
Proof.
  intros Hnull. unfold createTransferToHumanTool.
  rewrite (run_try_caught _ _ w w (Error "Business not found")); [reflexivity |].
  rewrite (run_bind _ _ _ _ _ (getBusiness_null env _ w Hnull)). reflexivity.
Qed.

(** None of the four tools throws. *)
Lemma tools_return env context w :
  (forall a, exists s, result_of (createBookAppointmentTool env context a w) = inr s)
  /\ (forall a, exists s, result_of (createLeadCaptureTool env context a w) = inr s)
  /\ (forall a, exists s, result_of (createTransferToHumanTool env context a w) = inr s)
  /\ exists s, result_of (createBusinessHoursTool env context w) = inr s.
Proof.
  repeat split; intros; apply try_catch_returns.
Qed.

(** ** Scenarios *)

(** An appointment for 2099-01-01 at 14:00 with no calendar connected: the row
    is persisted and the confirmation names the email address, without the
    meeting-link sentence. *)
Example scenario_book_appointment :
  let env := reference_env 1893474000000 no_faults None Rejects Rejects in
  let w := reference_world (acme false None None) (main_line None) in
  let a := AppointmentParams.mk "2099-01-01" "14:00" "John Doe" "john@example.com"
             None None None in
  let r := createBookAppointmentTool env (reference_context None None) a w in
  result_of r
  = inr "Perfect! I've successfully booked your appointment for day 47117 at 14:00. You'll receive a confirmation email at john@example.com shortly."
  /\ Appointment.attendee_email <$> appointments (world_of r) !! "0"
     = Some (Some "john@example.com")
  /\ outbound (world_of r) = [].
Proof. vm_compute. auto. Qed.

(** The same request with a connected calendar that returns a meeting link. *)
Example scenario_book_appointment_with_link :
  let env := reference_env 1893474000000 no_faults
               (Some (Some "event123", Some "https://meet.google.com/abc-defg-hij"))
               Rejects Rejects in
  let w := reference_world (acme true None None) (main_line None) in
  let a := AppointmentParams.mk "2099-01-01" "14:00" "John Doe" "john@example.com"
             None None None in
  let r := createBookAppointmentTool env (reference_context None None) a w in
  result_of r
  = inr "Perfect! I've successfully booked your appointment for day 47117 at 14:00. A calendar invitation with a Google Meet link has been sent to john@example.com."
  /\ Appointment.google_meet_link <$> appointments (world_of r) !! "0"
     = Some (Some "https://meet.google.com/abc-defg-hij")
  /\ outbound (world_of r)
     = [CalendarInsert "acme@calendar" "Meeting with John Doe" 4070959200000
          4070961000000 "Asia/Tokyo" "john@example.com"].
Proof. vm_compute. auto. Qed.

(** A lead with a phone number and no email. *)
Example scenario_create_lead :
  let env := reference_env 1893474000000 no_faults None Rejects Rejects in
  let w := reference_world (acme false None None) (main_line None) in
  let a := LeadParams.mk "Jane Smith" None (Some "+15557778888") None None None in
  let r := createLeadCaptureTool env (reference_context None None) a w in
  result_of r
  = inr "Great! I've saved your information, Jane Smith. We'll follow up with you at +15557778888. Is there anything else I can help you with today?"
  /\ Lead.phone <$> leads (world_of r) !! "0" = Some (Some "+15557778888")
  /\ Call.outcome <$> calls (world_of r) !! "call-1" = Some (Some "lead_captured").
Proof. vm_compute. auto. Qed.

(** A transfer whose carrier redirect goes through. *)
Example scenario_transfer :
  let env := reference_env 1893474000000 no_faults None Rejects (Response true None) in
  let w := reference_world (acme false None None) (main_line (Some "+15559876543")) in
  let a := TransferParams.mk "billing" (Some "high") None in
  let r := createTransferToHumanTool env (reference_context None (Some "CA1")) a w in
  result_of r
  = inr "Certainly! I'm transferring you now to one of our team members who can help with billing. Please hold for just a moment."
  /\ Call.notes <$> calls (world_of r) !! "call-1" = Some (Some "Transfer reason: billing.")
  /\ outbound (world_of r) = [TwilioRedirect "CA1" "+15559876543"].
Proof. vm_compute. auto. Qed.

(** The agent job of the reference call: the session is built and started,
    and the call is marked in progress. *)
Example scenario_entry :
  let env := reference_env 1893490002000 no_faults None Rejects Rejects in
  let w := reference_world (acme false None None) (main_line None) in
  let o := RoomMetadata.mk (Some "biz-1") (Some "call-1") (Some "+15559998888")
             (Some "CA1") in
  let r := entry env (MetadataObject o) w in
  result_of r = inr tt
  /\ agent_log (world_of r)
     = [SessionConstructed; ShutdownCallbackAdded; SessionStarted "biz-1" "call-1";
        RoomConnected]
  /\ Call.answered_at <$> calls (world_of r) !! "call-1" = Some (Some 1893490002000).
Proof. vm_compute. auto. Qed.

(** * Further properties of the code *)

(** ** Relating the world before and after a computation *)

Lemma keeps_ret {A} (R : World -> World -> Prop) `{!Reflexive R} (a : A) :
  keeps R (ret a).
Proof. intros w. reflexivity. Qed.

Lemma keeps_throw {A} (R : World -> World -> Prop) `{!Reflexive R} (e : Exn) :
  keeps R (@throw A e).
Proof. intros w. reflexivity. Qed.

Lemma keeps_get_world (R : World -> World -> Prop) `{!Reflexive R} :
  keeps R get_world.
Proof. intros w. reflexivity. Qed.

Lemma keeps_bind {A B} (R : World -> World -> Prop) `{!Transitive R}
    (m : M A) (k : A -> M B) :
  keeps R m -> (forall a, keeps R (k a)) -> keeps R (bind m k).
Proof.
  intros Hm Hk w. specialize (Hm w). unfold bind, world_of in *.
  destruct (m w) as [w' [e | a]]; simpl in *; [exact Hm |].
  etransitivity; [exact Hm | apply Hk].
Qed.

Lemma keeps_try_catch {A} (R : World -> World -> Prop) `{!Transitive R}
    (m : M A) (h : Exn -> M A) :
  keeps R m -> (forall e, keeps R (h e)) -> keeps R (try_catch m h).
Proof.
  intros Hm Hh w. specialize (Hm w). unfold try_catch, world_of in *.
  destruct (m w) as [w' [e | a]]; simpl in *; [| exact Hm].
  etransitivity; [exact Hm | apply Hh].
Qed.

(** Two relations in sequence. *)
Lemma keeps_bind_seq {A B} (R1 R2 R3 : World -> World -> Prop)
    (m : M A) (k : A -> M B) :
  (forall x y, R1 x y -> R3 x y) ->
  (forall x y z, R1 x y -> R2 y z -> R3 x z) ->
  keeps R1 m -> (forall a, keeps R2 (k a)) -> keeps R3 (bind m k).
Proof.
  intros Hthrow Hseq Hm Hk w. specialize (Hm w). unfold bind, world_of in *.
  destruct (m w) as [w' [e | a]]; simpl in *; [apply Hthrow; exact Hm |].
  eapply Hseq; [exact Hm | apply Hk].
Qed.

Lemma keeps_try_catch_seq {A} (R1 R2 R3 : World -> World -> Prop)
    (m : M A) (h : Exn -> M A) :
  (forall x y, R1 x y -> R3 x y) ->
  (forall x y z, R1 x y -> R2 y z -> R3 x z) ->
  keeps R1 m -> (forall e, keeps R2 (h e)) -> keeps R3 (try_catch m h).
Proof.
  intros Hret Hseq Hm Hh w. specialize (Hm w). unfold try_catch, world_of in *.
  destruct (m w) as [w' [e | a]]; simpl in *; [| apply Hret; exact Hm].
  eapply Hseq; [exact Hm | apply Hh].
Qed.

Lemma keeps_weaken {A} (R R' : World -> World -> Prop) (m : M A) :
  (forall x y, R x y -> R' x y) -> keeps R m -> keeps R' m.
Proof. intros H Hm w. apply H, Hm. Qed.

(** *** The methods of [Database] *)

Section KeepsDatabase.
Variable R : World -> World -> Prop.
Context `{!Reflexive R}.
Variable env : Env.

Lemma keeps_getBusiness id : keeps R (getBusiness env id).
Proof. intros w. unfold getBusiness. destruct (env_fault env _); reflexivity. Qed.

Lemma keeps_getCall id : keeps R (getCall env id).
Proof. intros w. unfold getCall. destruct (env_fault env _); reflexivity. Qed.

Lemma keeps_selectPhoneNumber id : keeps R (selectPhoneNumber env id).
Proof. intros w. unfold selectPhoneNumber. destruct (env_fault env _); reflexivity. Qed.

Lemma keeps_selectCallBySid sid : keeps R (selectCallBySid env sid).
Proof. intros w. unfold selectCallBySid. destruct (env_fault env _); reflexivity. Qed.

Lemma keeps_toISOString d : keeps R (toISOString d).
Proof. intros w. destruct d; reflexivity. Qed.

Lemma keeps_updateCall id data :
  (forall w c, calls w !! id = Some c ->
     R w (with_calls <[id := Call.apply data c]> w)) ->
  keeps R (updateCall env id data).
Proof.
  intros H w. unfold updateCall.
  destruct (env_fault env _); try reflexivity.
  run_m. destruct (calls w !! id) as [c |] eqn:Hc; [| reflexivity].
  apply H. exact Hc.
Qed.

Lemma keeps_createLead data :
  (forall w row, R w (with_leads <[fresh (dom (leads w)) := row]> w)) ->
  keeps R (createLead env data).
Proof.
  intros H w. unfold createLead.
  destruct (env_fault env _); try reflexivity. apply H.
Qed.

Lemma keeps_updateLead id data :
  (forall w l, leads w !! id = Some l ->
     R w (with_leads <[id := Lead.apply data l]> w)) ->
  keeps R (updateLead env id data).
Proof.
  intros H w. unfold updateLead.
  destruct (env_fault env _); try reflexivity.
  run_m. destruct (leads w !! id) as [l |] eqn:Hl; [| reflexivity].
  apply H. exact Hl.
Qed.

Lemma keeps_createAppointment data :
  (forall w row, R w (with_appointments <[fresh (dom (appointments w)) := row]> w)) ->
  keeps R (createAppointment env data).
Proof.
  intros H w. unfold createAppointment.
  destruct (env_fault env _); try reflexivity. apply H.
Qed.

Lemma keeps_logCallEvent callId eventType eventData :
  (forall w, R w (with_call_events
                    (fun l => l ++ [CallEvent.mk callId eventType eventData]) w)) ->
  keeps R (logCallEvent env callId eventType eventData).
Proof.
  intros H w. unfold logCallEvent.
  destruct (env_fault env _); try reflexivity. apply H.
Qed.

Lemma keeps_record_outbound o :
  (forall w, R w (with_outbound (fun l => l ++ [o]) w)) ->
  keeps R (record_outbound o).
Proof. intros H w. apply H. Qed.

Lemma keeps_record_step s :
  (forall w, R w (with_agent_log (fun l => l ++ [s]) w)) ->
  keeps R (record_step s).
Proof. intros H w. apply H. Qed.
End KeepsDatabase.

(** *** [evolves] is a preorder, and the writes of the core respect it *)

Lemma same_contact_refl l : same_contact l l.
Proof. repeat split. Qed.

Lemma same_contact_trans l1 l2 l3 :
  same_contact l1 l2 -> same_contact l2 l3 -> same_contact l1 l3.
Proof. unfold same_contact. intros H1 H2. intuition congruence. Qed.

#[global] Instance tool_write_preorder : PreOrder tool_write.
Proof.
  split.
  - intros c. repeat split.
  - intros c1 c2 c3 H1 H2.
    unfold tool_write, same_identity, same_lifecycle in *. intuition congruence.
Qed.

#[global] Instance status_write_preorder : PreOrder status_write.
Proof.
  split.
  - intros c. repeat split.
  - intros c1 c2 c3 H1 H2.
    unfold status_write, same_identity, same_outcome in *. intuition congruence.
Qed.

#[global] Instance same_identity_preorder : PreOrder same_identity.
Proof.
  split.
  - intros c. repeat split.
  - intros c1 c2 c3 H1 H2. unfold same_identity in *. intuition congruence.
Qed.

#[global] Instance evolves_reflexive P `{!Reflexive P} : Reflexive (evolves P).
Proof.
  intros w. split; try reflexivity.
  intros id l Hl. exists l. split; [exact Hl | apply same_contact_refl].
Qed.

#[global] Instance evolves_transitive P `{!Transitive P} : Transitive (evolves P).
Proof.
  intros w1 w2 w3 [Hb1 Hp1 Hc1 Hl1 Ha1 He1 Ho1 Hg1] [Hb2 Hp2 Hc2 Hl2 Ha2 He2 Ho2 Hg2].
  split; try (etransitivity; eassumption).
  - intros id. etransitivity; [apply Hc1 | apply Hc2].
  - intros id l Hl. destruct (Hl1 id l Hl) as (l' & Hl' & Hsame).
    destruct (Hl2 id l' Hl') as (l'' & Hl'' & Hsame').
    exists l''. split; [exact Hl'' | eapply same_contact_trans; eassumption].
Qed.

Section EvolvesWrites.
Variable P : Call.t -> Call.t -> Prop.
Context `{!Reflexive P}.

Lemma evolves_update_call w id c c' :
  calls w !! id = Some c -> P c c' -> evolves P w (with_calls <[id := c']> w).
Proof.
  intros Hc HP. split; simpl; try reflexivity.
  - intros k. destruct (decide (id = k)) as [<- | Hne].
    + rewrite lookup_insert_eq, Hc. constructor. exact HP.
    + rewrite lookup_insert_ne by exact Hne. reflexivity.
  - intros k l Hl. exists l. split; [exact Hl | apply same_contact_refl].
Qed.

Lemma evolves_insert_lead w row :
  evolves P w (with_leads <[fresh (dom (leads w)) := row]> w).
Proof.
  split; simpl; try reflexivity.
  intros k l Hl. exists l. split; [| apply same_contact_refl].
  rewrite lookup_insert_ne; [exact Hl |].
  intros <-. rewrite fresh_key_unused in Hl. discriminate.
Qed.

Lemma evolves_update_lead w id l p :
  leads w !! id = Some l -> evolves P w (with_leads <[id := Lead.apply p l]> w).
Proof.
  intros Hl. split; simpl; try reflexivity.
  intros k l0 Hl0. destruct (decide (id = k)) as [<- | Hne].
  - rewrite lookup_insert_eq. exists (Lead.apply p l). split; [reflexivity |].
    assert (l0 = l) by congruence. subst l0. repeat split.
  - rewrite lookup_insert_ne by exact Hne.
    exists l0. split; [exact Hl0 | apply same_contact_refl].
Qed.

Lemma evolves_insert_appointment w row :
  evolves P w (with_appointments <[fresh (dom (appointments w)) := row]> w).
Proof.
  split; simpl; try reflexivity.
  - intros k l Hl. exists l. split; [exact Hl | apply same_contact_refl].
  - apply insert_subseteq, fresh_key_unused.
Qed.

Lemma evolves_event w e :
  evolves P w (with_call_events (fun l => l ++ [e]) w).
Proof.
  split; simpl; try reflexivity.
  - intros k l Hl. exists l. split; [exact Hl | apply same_contact_refl].
  - apply prefix_app_r. reflexivity.
Qed.

Lemma evolves_outbound w o :
  evolves P w (with_outbound (fun l => l ++ [o]) w).
Proof.
  split; simpl; try reflexivity.
  - intros k l Hl. exists l. split; [exact Hl | apply same_contact_refl].
  - apply prefix_app_r. reflexivity.
Qed.

Lemma evolves_agent_step w s :
  evolves P w (with_agent_log (fun l => l ++ [s]) w).
Proof.
  split; simpl; try reflexivity.
  - intros k l Hl. exists l. split; [exact Hl | apply same_contact_refl].
  - apply prefix_app_r. reflexivity.
Qed.
End EvolvesWrites.

(** One step of a proof that a computation keeps a relation: follow the
    structure of the code. *)
Ltac keeps_step :=
  lazymatch goal with
  | |- keeps ?R (bind ?m ?k) => apply (keeps_bind R m k); [| intros ?]
  | |- keeps ?R (try_catch ?m ?h) => apply (keeps_try_catch R m h); [| intros ?]
  | |- keeps ?R (ret ?a) => apply (keeps_ret R a)
  | |- keeps ?R (throw ?e) => apply (keeps_throw R e)
  | |- keeps ?R get_world => apply (keeps_get_world R)
  | |- keeps ?R (getBusiness ?env ?id) => apply (keeps_getBusiness R env id)
  | |- keeps ?R (getCall ?env ?id) => apply (keeps_getCall R env id)
  | |- keeps ?R (selectPhoneNumber ?env ?id) => apply (keeps_selectPhoneNumber R env id)
  | |- keeps ?R (selectCallBySid ?env ?sid) => apply (keeps_selectCallBySid R env sid)
  | |- keeps ?R (toISOString ?d) => apply (keeps_toISOString R d)
  | |- keeps ?R (updateCall ?env ?id ?data) =>
      apply (keeps_updateCall R env id data); intros ? ? ?
  | |- keeps ?R (createLead ?env ?data) =>
      apply (keeps_createLead R env data); intros ? ?
  | |- keeps ?R (updateLead ?env ?id ?data) =>
      apply (keeps_updateLead R env id data); intros ? ? ?
  | |- keeps ?R (createAppointment ?env ?data) =>
      apply (keeps_createAppointment R env data); intros ? ?
  | |- keeps ?R (logCallEvent ?env ?c ?t ?d) =>
      apply (keeps_logCallEvent R env c t d); intros ?
  | |- keeps _ (record_outbound _) => apply keeps_record_outbound; intros ?
  | |- keeps _ (record_step _) => apply keeps_record_step; intros ?
  | |- keeps _ (match ?x with _ => _ end) => destruct x
  end.

(** The writes of a tool respect [evolves tool_write]. *)
Ltac evolves_write :=
  lazymatch goal with
  | |- evolves ?P _ (with_calls _ _) =>
      eapply (evolves_update_call P); [eassumption | repeat split]
  | |- evolves ?P _ (with_leads <[fresh _ := _]> _) => apply (evolves_insert_lead P)
  | |- evolves ?P _ (with_leads _ _) => apply (evolves_update_lead P); assumption
  | |- evolves ?P _ (with_appointments _ _) => apply (evolves_insert_appointment P)
  | |- evolves ?P _ (with_call_events _ _) => apply (evolves_event P)
  | |- evolves ?P _ (with_outbound _ _) => apply (evolves_outbound P)
  | |- evolves ?P _ (with_agent_log _ _) => apply (evolves_agent_step P)
  end.

Ltac keeps_evolves := repeat first [keeps_step | evolves_write].

Lemma book_appointment_evolves env context a :
  keeps (evolves tool_write) (createBookAppointmentTool env context a).
Proof.
  unfold createBookAppointmentTool, calendar_enrichment, calendar_events_insert,
    record_booking. cbv zeta.
  keeps_evolves.
Qed.

Lemma create_lead_evolves env context a :
  keeps (evolves tool_write) (createLeadCaptureTool env context a).
Proof.
  unfold createLeadCaptureTool, hubspot_sync, createHubSpotContact, record_lead.
  cbv zeta. keeps_evolves.
Qed.

Lemma transfer_evolves env context a :
  keeps (evolves tool_write) (createTransferToHumanTool env context a).
Proof.
  unfold createTransferToHumanTool, initiateTransferViaTwilio. cbv zeta.
  keeps_evolves.
Qed.

Lemma check_business_hours_evolves env context :
  keeps (evolves tool_write) (createBusinessHoursTool env context).
Proof.
  unfold createBusinessHoursTool, toLocaleDateString_weekday, toLocaleTimeString_hhmm.
  cbv zeta. keeps_evolves.
Qed.

Lemma lookup_customer_evolves env view context phone :
  keeps (evolves tool_write) (createLookupCustomerTool env view context phone).
Proof.
  unfold createLookupCustomerTool, selectLeadsByPhone. cbv zeta. keeps_evolves.
Qed.

Lemma execute_evolves env view context call :
  keeps (evolves tool_write) (execute env view context call).
Proof.
  destruct call; simpl.
  - apply book_appointment_evolves.
  - apply create_lead_evolves.
  - apply lookup_customer_evolves.
  - apply transfer_evolves.
  - apply check_business_hours_evolves.
Qed.

(** *** Components that stay as they are, or grow by one element *)

#[global] Instance unchanged_preorder {B} (f : World -> B) : PreOrder (unchanged f).
Proof.
  split.
  - intros w. reflexivity.
  - intros w1 w2 w3 H1 H2. unfold unchanged in *. congruence.
Qed.

#[global] Instance one_more_reflexive {B} (f : World -> list B) Q :
  Reflexive (one_more f Q).
Proof. intros w. left. reflexivity. Qed.

Lemma unchanged_one_more {B} (f : World -> list B) Q x y :
  unchanged f x y -> one_more f Q x y.
Proof. intros H. left. exact H. Qed.

Lemma unchanged_then_one_more {B} (f : World -> list B) Q x y z :
  unchanged f x y -> one_more f Q y z -> one_more f Q x z.
Proof. unfold unchanged, one_more. intros <- H. exact H. Qed.

Lemma one_more_then_unchanged {B} (f : World -> list B) Q x y z :
  one_more f Q x y -> unchanged f y z -> one_more f Q x z.
Proof. unfold unchanged, one_more. intros H ->. exact H. Qed.

Ltac keeps_unchanged :=
  repeat first [keeps_step | (unfold unchanged; reflexivity)].

(** Follow the code to the one statement that appends to the list [f]:
    what precedes it and what follows it leave [f] as it is. *)
Ltac keeps_one_more f Q :=
  repeat
    lazymatch goal with
    | |- keeps (one_more _ _) (bind ?m ?k) =>
        first
          [ apply (keeps_bind_seq (unchanged f) (one_more f Q) (one_more f Q) m k);
            [ apply unchanged_one_more | apply unchanged_then_one_more
            | solve [keeps_unchanged] | intros ? ]
          | apply (keeps_bind_seq (one_more f Q) (unchanged f) (one_more f Q) m k);
            [ auto | apply one_more_then_unchanged
            | | intros ?; solve [keeps_unchanged] ] ]
    | |- keeps (one_more _ _) (try_catch ?m ?h) =>
        first
          [ apply (keeps_try_catch_seq (unchanged f) (one_more f Q) (one_more f Q) m h);
            [ apply unchanged_one_more | apply unchanged_then_one_more
            | solve [keeps_unchanged] | intros ? ]
          | apply (keeps_try_catch_seq (one_more f Q) (unchanged f) (one_more f Q) m h);
            [ auto | apply one_more_then_unchanged
            | | intros ?; solve [keeps_unchanged] ] ]
    | |- keeps (one_more _ _) _ => keeps_step
    | |- one_more _ _ _ _ =>
        right; eexists; split; [reflexivity | repeat split]
    end.


(** ** What no tool call does *)

Lemma execute_keeps_agent_log env view context call :
  keeps (unchanged agent_log) (execute env view context call).
Proof.
  destruct call; simpl;
    unfold createBookAppointmentTool, calendar_enrichment, calendar_events_insert,
      record_booking, createLeadCaptureTool, hubspot_sync, createHubSpotContact,
      record_lead, createLookupCustomerTool, selectLeadsByPhone,
      createTransferToHumanTool, initiateTransferViaTwilio, createBusinessHoursTool,
      toLocaleDateString_weekday, toLocaleTimeString_hhmm;
    cbv zeta; keeps_unchanged.
Qed.

(** X1.  No tool call creates or deletes a call row, and whatever a tool
    writes to a call row, it leaves the identity of the row (its key, tenant,
    line, telephony leg and start) and its life cycle ([status],
    [twilio_status], [answered_at], [ended_at], [duration_seconds]) as they
    were: the status of a call is never written from the tool layer.  This
    holds for each of the five tools, for every argument, every fault of the
    store and every reply of an integration. *)
Theorem tool_call_keeps_call_lifecycle env view context call w id :
  match calls w !! id, calls (world_of (execute env view context call w)) !! id with
  | Some c, Some c' => same_identity c c' /\ same_lifecycle c c'
  | None, None => True
  | _, _ => False
  end.
Proof.
  destruct (ev_calls _ _ _ (execute_evolves env view context call w) id)
    as [c c' Hwrite |]; [exact Hwrite | exact I].
Qed.

(** X2.  A tool call only adds to the store.  The tenant and line
    configuration and the log of the agent job are as they were; every
    appointment row is still there, unchanged; every lead row is still there
    with its contact columns (only the two columns of the CRM sync can
    differ); the audit log and the trace of outbound requests are extended at
    their ends, never rewritten. *)
Theorem tool_call_only_adds env view context call w :
  let w' := world_of (execute env view context call w) in
  businesses w' = businesses w
  /\ phone_numbers w' = phone_numbers w
  /\ agent_log w' = agent_log w
  /\ appointments w ⊆ appointments w'
  /\ (forall id l, leads w !! id = Some l ->
        exists l', leads w' !! id = Some l' /\ same_contact l l')
  /\ call_events w `prefix_of` call_events w'
  /\ outbound w `prefix_of` outbound w'.
Proof.
  intros w'. subst w'.
  destruct (execute_evolves env view context call w)
    as [Hb Hp _ Hl Ha He Ho _].
  pose proof (execute_keeps_agent_log env view context call w) as Hg.
  auto 10.
Qed.

Lemma book_appointment_one_event env context a :
  keeps (one_more call_events (audit_event context.(callId) "appointment_booked"))
    (createBookAppointmentTool env context a).
Proof.
  unfold createBookAppointmentTool, calendar_enrichment, calendar_events_insert,
    record_booking. cbv zeta.
  keeps_one_more call_events (audit_event context.(callId) "appointment_booked").
Qed.

Lemma create_lead_one_event env context a :
  keeps (one_more call_events (audit_event context.(callId) "lead_captured"))
    (createLeadCaptureTool env context a).
Proof.
  unfold createLeadCaptureTool, hubspot_sync, createHubSpotContact, record_lead.
  cbv zeta.
  keeps_one_more call_events (audit_event context.(callId) "lead_captured").
Qed.

Lemma lookup_customer_one_event env view context phone :
  keeps (one_more call_events (audit_event context.(callId) "customer_looked_up"))
    (createLookupCustomerTool env view context phone).
Proof.
  unfold createLookupCustomerTool, selectLeadsByPhone. cbv zeta.
  keeps_one_more call_events (audit_event context.(callId) "customer_looked_up").
Qed.

Lemma transfer_one_event env context a :
  keeps (one_more call_events (audit_event context.(callId) "transfer_initiated"))
    (createTransferToHumanTool env context a).
Proof.
  unfold createTransferToHumanTool, initiateTransferViaTwilio. cbv zeta.
  keeps_one_more call_events (audit_event context.(callId) "transfer_initiated").
Qed.

Lemma check_business_hours_no_event env context :
  keeps (unchanged call_events) (createBusinessHoursTool env context).
Proof.
  unfold createBusinessHoursTool, toLocaleDateString_weekday, toLocaleTimeString_hhmm.
  cbv zeta. keeps_unchanged.
Qed.

Lemma one_more_audit_event callId type w w' :
  one_more call_events (audit_event callId type) w w' ->
  call_events w' = call_events w
  \/ exists data, call_events w' = call_events w ++ [CallEvent.mk callId type data].
Proof.
  intros [H | ([c t d] & H & Hc & Ht)]; [left; exact H |].
  simpl in Hc, Ht. subst c t. right. exists d. exact H.
Qed.

(** X3.  A tool call records at most one audit event.  When it records one,
    the event is appended at the end of the log, it belongs to the call of
    the context, and its type is the one of the tool: 'appointment_booked',
    'lead_captured', 'customer_looked_up' or 'transfer_initiated';
    check_business_hours records none. *)
Theorem tool_call_records_one_event env view context call w :
  let w' := world_of (execute env view context call w) in
  call_events w' = call_events w
  \/ exists type data,
       event_of call = Some type
       /\ call_events w' = call_events w ++ [CallEvent.mk context.(callId) type data].
Proof.
  intros w'. subst w'. destruct call as [a | a | phone | a |]; simpl.
  - destruct (one_more_audit_event _ _ _ _ (book_appointment_one_event env context a w))
      as [H | [data H]]; [left; exact H | right; eauto].
  - destruct (one_more_audit_event _ _ _ _ (create_lead_one_event env context a w))
      as [H | [data H]]; [left; exact H | right; eauto].
  - destruct (one_more_audit_event _ _ _ _
                (lookup_customer_one_event env view context phone w))
      as [H | [data H]]; [left; exact H | right; eauto].
  - destruct (one_more_audit_event _ _ _ _ (transfer_one_event env context a w))
      as [H | [data H]]; [left; exact H | right; eauto].
  - left. apply (check_business_hours_no_event env context w).
Qed.

(** ** What the writers of the status leave alone *)

Lemma status_updates_status_write env CallStatus CallDuration c :
  status_write c (Call.apply (status_updates env CallStatus CallDuration) c).
Proof.
  unfold status_updates. destruct (terminal_CallStatus CallStatus); repeat split.
Qed.

Lemma session_start_update_evolves env callId :
  keeps (evolves status_write) (session_start_update env callId).
Proof. unfold session_start_update. keeps_evolves. Qed.

Lemma updateFinalCallStats_evolves env callId :
  keeps (evolves status_write) (updateFinalCallStats env callId).
Proof. unfold updateFinalCallStats. cbv zeta. keeps_evolves. Qed.

Lemma twilio_status_evolves env sid CallStatus CallDuration :
  keeps (evolves status_write) (twilio_status env sid CallStatus CallDuration).
Proof.
  unfold twilio_status.
  repeat first
    [ lazymatch goal with
      | |- evolves _ _ (with_calls _ _) =>
          eapply (evolves_update_call status_write);
          [eassumption | apply status_updates_status_write]
      end
    | keeps_step | evolves_write ].
Qed.

Lemma entry_evolves env metadata :
  keeps (evolves status_write) (entry env metadata).
Proof. unfold entry, session_start_update. cbv zeta. keeps_evolves. Qed.

Lemma status_writers_keep_rest env callId sid CallStatus CallDuration :
  let rest := fun w => (businesses w, phone_numbers w, leads w, appointments w, outbound w) in
  keeps (unchanged rest) (session_start_update env callId)
  /\ keeps (unchanged rest) (twilio_status env sid CallStatus CallDuration)
  /\ keeps (unchanged rest) (updateFinalCallStats env callId).
Proof.
  intros rest. unfold session_start_update, twilio_status, updateFinalCallStats.
  cbv zeta. repeat split; keeps_unchanged.
Qed.

(** X4.  The three writers of the status (the update at the end of [entry],
    the telephony status callback, the shutdown finalization) create and
    delete no call row and leave on every call row the identity of the row
    and the columns of the tools ([caller_name], [caller_email], [outcome],
    [transferred_to_human], [notes]) as they were; they write neither leads
    nor appointments nor configuration and send no outbound request. *)
Theorem status_writer_keeps_outcome callId sid (step : Env * StatusOp) w id :
  let w' := run_status_op callId sid step w in
  option_Forall2 status_write (calls w !! id) (calls w' !! id)
  /\ businesses w' = businesses w
  /\ phone_numbers w' = phone_numbers w
  /\ leads w' = leads w
  /\ appointments w' = appointments w
  /\ outbound w' = outbound w.
Proof.
  intros w'. subst w'. destruct step as [env [| CallStatus CallDuration |]];
    unfold run_status_op; simpl fst; simpl snd.
  - split; [apply (ev_calls _ _ _ (session_start_update_evolves env callId w)) |].
    destruct (status_writers_keep_rest env callId sid "" None) as (H & _ & _).
    specialize (H w). unfold unchanged in H. inversion H. auto.
  - split; [apply (ev_calls _ _ _ (twilio_status_evolves env sid CallStatus CallDuration w)) |].
    destruct (status_writers_keep_rest env callId sid CallStatus CallDuration)
      as (_ & H & _).
    specialize (H w). unfold unchanged in H. inversion H. auto.
  - split; [apply (ev_calls _ _ _ (updateFinalCallStats_evolves env callId w)) |].
    destruct (status_writers_keep_rest env callId sid "" None) as (_ & _ & H).
    specialize (H w). unfold unchanged in H. inversion H. auto.
Qed.

(** ** The agent job *)

(** X5.  [entry] returns normally only at its last statement.  If it
    returns, the metadata carried both identifiers, the tenant row was read,
    the four steps of the job were taken in order (session constructed,
    shutdown callback added, session started with these identifiers, room
    connected), and only then the call row, which existed, was marked
    [in_progress] with [answered_at] at the clock.  If it throws, the tables
    of the store and the trace of outbound requests are as they were, although
    steps of the job may have been taken: a refused status update leaves a
    started session with an unmarked call. *)
Theorem entry_marks_the_call_last env metadata w :
  let r := entry env metadata w in
  match result_of r with
  | inr _ =>
      exists o businessId callId c,
        metadata = MetadataObject o
        /\ o.(RoomMetadata.businessId) = Some businessId
        /\ o.(RoomMetadata.callId) = Some callId
        /\ is_Some (businesses w !! businessId)
        /\ calls w !! callId = Some c
        /\ agent_log (world_of r)
           = agent_log w ++ [SessionConstructed; ShutdownCallbackAdded;
                             SessionStarted businessId callId; RoomConnected]
        /\ calls (world_of r)
           = <[callId := Call.apply (session_start_patch (env_now env)) c]> (calls w)
        /\ (Call.apply (session_start_patch (env_now env)) c).(Call.status) = in_progress
  | inl _ =>
      store (world_of r) = store w
      /\ outbound (world_of r) = outbound w
      /\ agent_log w `prefix_of` agent_log (world_of r)
  end.
Proof.
  intros r. subst r.
  assert (Hstay : store w = store w /\ outbound w = outbound w
                  /\ agent_log w `prefix_of` agent_log w) by auto.
  unfold entry, getBusiness, session_start_update, updateCall, record_step.
  destruct metadata as [| | o]; run_m; try solve [simpl; exact Hstay].
  destruct (RoomMetadata.businessId o) as [b |] eqn:Hb; run_m;
    try solve [simpl; exact Hstay];
    destruct (RoomMetadata.callId o) as [c |] eqn:Hc; run_m;
    try solve [simpl; exact Hstay].
  destruct (negb (truthy (Some b)) || negb (truthy (Some c))); run_m;
    try solve [simpl; exact Hstay].
  destruct (env_fault env OpGetBusiness); run_m; try solve [simpl; exact Hstay].
  destruct (businesses w !! b) as [business |] eqn:Hbusiness; run_m;
    try solve [simpl; exact Hstay].
  assert (Hlog : forall l, agent_log w `prefix_of` agent_log w ++ l)
    by (intros l; apply prefix_app_r; reflexivity).
  destruct (env_session_builds env); run_m; [| simpl; exact Hstay].
  destruct (env_session_starts env); run_m;
    [| simpl; repeat split; rewrite <- ?app_assoc; apply Hlog].
  destruct (env_room_connects env); run_m;
    [| simpl; repeat split; rewrite <- ?app_assoc; apply Hlog].
  destruct (env_fault env OpUpdateCall); run_m;
    try solve [simpl; repeat split; rewrite <- ?app_assoc; apply Hlog].
  simpl.
  destruct (calls w !! c) as [call |] eqn:Hcall; run_m;
    [| simpl; repeat split; rewrite <- ?app_assoc; apply Hlog].
  simpl. exists o, b, c, call. rewrite <- !app_assoc. simpl. repeat split; eauto.
Qed.

(** X6.  When the metadata carries both identifiers and the tenant lookup
    returns [null] (the store has no such row, or answers with an error),
    [entry] throws 'Business not found' and leaves the world as it was: no
    session is constructed and no row is written. *)
Theorem entry_unknown_tenant env (o : RoomMetadata.t) businessId callId w :
  o.(RoomMetadata.businessId) = Some businessId ->
  o.(RoomMetadata.callId) = Some callId ->
  businessId <> "" -> callId <> "" ->
  env_fault env OpGetBusiness = ErrorReply
  \/ (env_fault env OpGetBusiness = NoFault /\ businesses w !! businessId = None) ->
  entry env (MetadataObject o) w = (w, inl (Error "Business not found")).
Proof.
  intros Hb Hc Hbne Hcne Hnull. unfold entry.
  rewrite (run_try_caught _ _ w w (Error "Business not found")); [reflexivity |].
  rewrite (run_bind _ _ w w o) by reflexivity.
  rewrite Hb, Hc. simpl.
  destruct (String.eqb_spec businessId ""); [contradiction |].
  destruct (String.eqb_spec callId ""); [contradiction |]. simpl.
  rewrite (run_bind _ _ _ _ _ (getBusiness_null env _ w Hnull)). reflexivity.
Qed.

Lemma entry_unknown_tenant_witness :
  let o := RoomMetadata.mk (Some "biz-9") (Some "call-1") (Some "+15559998888")
             (Some "CA1") in
  let w := reference_world (acme false None None) (main_line None) in
  entry (reference_env 0 no_faults None Rejects Rejects) (MetadataObject o) w
  = (w, inl (Error "Business not found")).
Proof.
  intros o w.
  apply (entry_unknown_tenant _ o "biz-9" "call-1" w);
    [reflexivity | reflexivity | discriminate | discriminate |].
  right. split; reflexivity.
Defined.

(** ** The shutdown finalization *)

(** X7.  [updateFinalCallStats] never throws, and it writes exactly when
    the store serves both the read and the update of a call row that exists.
    In that case the row is updated with status [completed], [ended_at] at
    the clock and the duration in whole seconds, rounded down, from
    [started_at] to the clock; nothing else in the world changes, and the
    outcome of the call is the one it had.  In every other case (the read or
    the update is not served, or the call has no row) the world is left as it
    was. *)
Theorem finalization_never_throws env callId w :
  let r := updateFinalCallStats env callId w in
  result_of r = inr tt
  /\ (forall c,
        serves env [OpGetCall; OpUpdateCall] ->
        calls w !! callId = Some c ->
        exists d,
          1000 * d <= env_now env - c.(Call.started_at) < 1000 * d + 1000
          /\ world_of r
             = with_calls
                 <[callId := Call.apply (finalization_patch (env_now env) d) c]> w
          /\ (Call.apply (finalization_patch (env_now env) d) c).(Call.status)
             = completed
          /\ (Call.apply (finalization_patch (env_now env) d) c).(Call.duration_seconds)
             = Some d
          /\ (Call.apply (finalization_patch (env_now env) d) c).(Call.outcome)
             = c.(Call.outcome))
  /\ (env_fault env OpGetCall <> NoFault
      \/ env_fault env OpUpdateCall <> NoFault
      \/ calls w !! callId = None ->
      world_of r = w).
Proof.
  intros r. subst r. unfold updateFinalCallStats, getCall, updateCall.
  split; [| split].
  - destruct (env_fault env OpGetCall); run_m; try reflexivity.
    destruct (calls w !! callId) as [c |] eqn:Hc; run_m; try reflexivity.
    destruct (env_fault env OpUpdateCall); run_m; try reflexivity.
    cbn [calls]. rewrite Hc. reflexivity.
  - intros c Hs Hc.
    apply serves_cons in Hs as [Hget Hs]. apply serves_cons in Hs as [Hupd _].
    rewrite Hget, Hupd. run_m. rewrite Hc. run_m. cbn [calls]. rewrite Hc.
    exists ((env_now env - Call.started_at c) / 1000).
    split; [| repeat split].
    pose proof (Z.div_mod (env_now env - Call.started_at c) 1000).
    pose proof (Z.mod_pos_bound (env_now env - Call.started_at c) 1000).
    lia.
  - intros Hrefused.
    destruct (env_fault env OpGetCall); run_m; try reflexivity.
    destruct (calls w !! callId) as [c |] eqn:Hc; run_m; try reflexivity.
    destruct (env_fault env OpUpdateCall); run_m; try reflexivity.
    destruct Hrefused as [H | [H | H]]; congruence.
Qed.

(** The reference call, finalized a minute and 999 milliseconds after it
    started: sixty seconds. *)
Example scenario_finalization :
  let env := reference_env 1893490060999 no_faults None Rejects Rejects in
  let w := reference_world (acme false None None) (main_line None) in
  let r := updateFinalCallStats env "call-1" w in
  Call.status <$> calls (world_of r) !! "call-1" = Some completed
  /\ Call.duration_seconds <$> calls (world_of r) !! "call-1" = Some (Some 60)
  /\ Call.ended_at <$> calls (world_of r) !! "call-1" = Some (Some 1893490060999).
Proof. vm_compute. auto. Qed.

(** ** The telephony status callback *)

Lemma head_filter_none {A} (P : A -> Prop) `{Hdec : !forall x, Decision (P x)}
    (l : list A) :
  (forall x, x ∈ l -> ~ P x) -> head (filter P l) = None.
Proof.
  intros H. destruct (filter P l) as [| x l'] eqn:Hf; [reflexivity |].
  assert (Hx : x ∈ filter P l) by (rewrite Hf; left).
  apply list_elem_of_filter in Hx as [HP Hin]. destruct (H x Hin HP).
Qed.

(** X8.  The status callback answers 200 in every case: whatever the store
    does, no exception leaves the handler.  When no call row carries the
    telephony leg of the callback, it writes nothing. *)
Theorem status_callback_answers_200 env sid CallStatus CallDuration w :
  let r := twilio_status env sid CallStatus CallDuration w in
  result_of r = inr 200
  /\ ((forall k c, calls w !! k = Some c -> c.(Call.twilio_call_sid) <> Some sid) ->
      world_of r = w).
Proof.
  intros r. subst r. unfold twilio_status, selectCallBySid, updateCall, logCallEvent.
  destruct (env_fault env OpSelectCallBySid); run_m; simpl; auto.
  split.
  - destruct (head _) as [c |]; run_m; simpl; auto.
    destruct (env_fault env OpUpdateCall); run_m; simpl; auto.
    destruct (calls w !! Call.id c); run_m; simpl; auto.
    destruct (env_fault env OpInsertCallEvent); run_m; simpl; auto.
  - intros Hnone. rewrite head_filter_none; [reflexivity |].
    intros c Hin. apply list_elem_of_fmap in Hin as ([k c'] & -> & Hkc).
    apply elem_of_map_to_list in Hkc. simpl. eapply Hnone. exact Hkc.
Qed.

#[global] Instance same_but_twilio_status_preorder : PreOrder same_but_twilio_status.
Proof.
  split.
  - intros c. repeat split.
  - intros c1 c2 c3 H1 H2.
    unfold same_but_twilio_status, same_identity, same_outcome in *.
    intuition congruence.
Qed.

(** X9.  A status callback whose status is not terminal (none of
    'completed', 'failed', 'busy', 'no-answer': 'ringing' or 'in-progress',
    say) writes [twilio_status] and nothing else: on every call row the
    status, [answered_at], [ended_at], the duration and the columns of the
    tools are as they were, and no row comes or goes. *)
Theorem status_callback_not_terminal env sid CallStatus CallDuration w id :
  terminal_CallStatus CallStatus = false ->
  option_Forall2 same_but_twilio_status
    (calls w !! id)
    (calls (world_of (twilio_status env sid CallStatus CallDuration w)) !! id).
Proof.
  intros Hterm.
  assert (H : keeps (evolves same_but_twilio_status)
                (twilio_status env sid CallStatus CallDuration)).
  { unfold twilio_status.
    repeat first
      [ lazymatch goal with
        | |- evolves _ _ (with_calls _ _) =>
            eapply (evolves_update_call same_but_twilio_status);
            [eassumption | unfold status_updates; rewrite Hterm; repeat split]
        end
      | keeps_step | evolves_write ]. }
  apply (ev_calls _ _ _ (H w)).
Qed.

Lemma status_callback_not_terminal_witness :
  let env := reference_env 1893490060000 no_faults None Rejects Rejects in
  let w := reference_world (acme false None None) (main_line None) in
  option_Forall2 same_but_twilio_status
    (calls w !! "call-1")
    (calls (world_of (twilio_status env "CA1" "ringing" None w)) !! "call-1").
Proof.
  intros env w.
  apply (status_callback_not_terminal env "CA1" "ringing" None w "call-1").
  reflexivity.
Defined.

Lemma status_updates_replayed env1 env2 CallStatus CallDuration c :
  Call.apply (status_updates env2 CallStatus CallDuration)
    (Call.apply (status_updates env1 CallStatus CallDuration) c)
  = Call.apply (status_updates env2 CallStatus CallDuration) c.
Proof.
  unfold status_updates. destruct (terminal_CallStatus CallStatus); [| reflexivity].
  destruct (truthy CallDuration); reflexivity.
Qed.

(** X10.  A status callback that is delivered twice.  When the store serves
    both deliveries, the call rows after the second delivery are what the
    second delivery alone would have left: the replay rewrites the same
    columns, with [ended_at] at the clock of the later delivery.  The handler
    does not recognise the replay: with a served audit insert, each delivery
    appends its own 'status_update' event. *)
Theorem status_callback_replayed env1 env2 callId sid CallStatus CallDuration w c :
  serves env1 [OpSelectCallBySid; OpUpdateCall] ->
  serves env2 [OpSelectCallBySid; OpUpdateCall] ->
  tracks w callId sid ->
  calls w !! callId = Some c ->
  let w1 := world_of (twilio_status env1 sid CallStatus CallDuration w) in
  let w2 := world_of (twilio_status env2 sid CallStatus CallDuration w1) in
  calls w2 = calls (world_of (twilio_status env2 sid CallStatus CallDuration w))
  /\ (env_fault env1 OpInsertCallEvent = NoFault ->
      env_fault env2 OpInsertCallEvent = NoFault ->
      let e := CallEvent.mk callId "status_update"
                 ([("status", DText CallStatus)] ++ prop "duration" CallDuration) in
      call_events w2 = call_events w ++ [e; e]).
Proof.
  intros Hs1 Hs2 Htr Hc w1 w2.
  pose proof (twilio_status_updates env1 w callId sid c CallStatus CallDuration
                Hs1 Htr Hc) as H1.
  fold w1 in H1.
  assert (Htr1 : tracks w1 callId sid)
    by (eapply tracks_after_write; [exact Htr | exact Hc | exact H1]).
  assert (Hc1 : calls w1 !! callId
                = Some (Call.apply (status_updates env1 CallStatus CallDuration) c))
    by (rewrite H1; apply lookup_insert_eq).
  pose proof (twilio_status_updates env2 w1 callId sid _ CallStatus CallDuration
                Hs2 Htr1 Hc1) as H2.
  fold w2 in H2.
  split.
  - rewrite H2, H1, status_updates_replayed, insert_insert_eq.
    symmetry. apply twilio_status_updates; assumption.
  - intros Hlog1 Hlog2 e.
    apply serves_cons in Hs1 as [Hsel1 Hs1]. apply serves_cons in Hs1 as [Hupd1 _].
    apply serves_cons in Hs2 as [Hsel2 Hs2]. apply serves_cons in Hs2 as [Hupd2 _].
    assert (Hid : c.(Call.id) = callId).
    { destruct Htr as [(c0 & Hc0 & Hid & _) _]. congruence. }
    assert (Hrun : forall env v c0,
               env_fault env OpSelectCallBySid = NoFault ->
               env_fault env OpUpdateCall = NoFault ->
               env_fault env OpInsertCallEvent = NoFault ->
               tracks v callId sid -> calls v !! callId = Some c0 ->
               c0.(Call.id) = callId ->
               call_events (world_of (twilio_status env sid CallStatus CallDuration v))
               = call_events v ++ [e]).
    { intros env v c0 Hsel Hupd Hlog Htrv Hcv Hidv. unfold twilio_status, try_catch.
      rewrite (run_bind _ _ _ _ _ (selectCallBySid_found env v callId sid c0 Hsel Htrv Hcv)).
      rewrite Hidv.
      erewrite run_bind by (apply updateCall_served; [exact Hupd | exact Hcv]).
      erewrite run_bind by (apply logCallEvent_served; exact Hlog).
      reflexivity. }
    unfold w2. rewrite (Hrun env2 w1 _ Hsel2 Hupd2 Hlog2 Htr1 Hc1) by exact Hid.
    unfold w1. rewrite (Hrun env1 w c Hsel1 Hupd1 Hlog1 Htr Hc Hid).
    rewrite <- app_assoc. reflexivity.
Qed.

Lemma status_callback_replayed_witness :
  let env1 := reference_env 1893490060000 no_faults None Rejects Rejects in
  let env2 := reference_env 1893490065000 no_faults None Rejects Rejects in
  let w := reference_world (acme false None None) (main_line None) in
  let w1 := world_of (twilio_status env1 "CA1" "completed" (Some "60") w) in
  let w2 := world_of (twilio_status env2 "CA1" "completed" (Some "60") w1) in
  calls w2 = calls (world_of (twilio_status env2 "CA1" "completed" (Some "60") w))
  /\ length (call_events w2) = 2%nat.
Proof.
  intros env1 env2 w w1 w2.
  destruct (status_callback_replayed env1 env2 "call-1" "CA1" "completed" (Some "60")
              w call_1) as [Hcalls Hev];
    [repeat constructor | repeat constructor | | reflexivity |].
  - split.
    + exists call_1. repeat split; reflexivity.
    + intros k c' Hk _. unfold w, reference_world in Hk. simpl in Hk.
      apply lookup_singleton_Some in Hk as [Hk _]. symmetry. exact Hk.
  - split; [exact Hcalls |].
    fold w1 w2 in Hev. rewrite Hev by reflexivity. reflexivity.
Defined.

(** ** lookup_customer *)

(** X11.  With neither a phone argument nor a caller phone in the call
    context (absent or empty), lookup_customer asks for a phone number: the
    store is not queried and the world is as it was. *)
Theorem lookup_customer_without_phone env view context phone w :
  truthy phone = false ->
  truthy context.(callerPhone) = false ->
  createLookupCustomerTool env view context phone w = (w, inr msg_lookup_need_phone).
Proof.
  intros Hp Hc. unfold createLookupCustomerTool, or_else. rewrite Hp.
  destruct (callerPhone context) as [s |]; [| reflexivity].
  rewrite Hc. reflexivity.
Qed.

Lemma lookup_customer_without_phone_witness :
  let w := reference_world (acme false None None) (main_line None) in
  createLookupCustomerTool (reference_env 0 no_faults None Rejects Rejects)
    (mkLeadsView (fun _ => 0) (fun _ => "") NoFault) (reference_context (Some "") None)
    None w
  = (w, inr msg_lookup_need_phone).
Proof.
  intros w.
  apply (lookup_customer_without_phone _ _ (reference_context (Some "") None) None w);
    reflexivity.
Defined.

Lemma most_recent_spec view rows :
  match most_recent view rows with
  | None => rows = []
  | Some l =>
      l ∈ rows
      /\ forall l', l' ∈ rows -> lead_created_at view l' <= lead_created_at view l
  end.
Proof.
  induction rows as [| x rows IH]; simpl; [reflexivity |].
  destruct (most_recent view rows) as [best |].
  - destruct IH as [Hin Hmax]. unfold later_of.
    destruct (Z.ltb_spec (lead_created_at view x) (lead_created_at view best)).
    + split; [right; exact Hin |].
      intros l' Hl'. apply elem_of_cons in Hl' as [-> | Hl']; [lia | auto].
    + split; [left |].
      intros l' Hl'. apply elem_of_cons in Hl' as [-> | Hl']; [lia |].
      specialize (Hmax l' Hl'). lia.
  - subst rows. split; [left |].
    intros l' Hl'. apply elem_of_cons in Hl' as [-> | Hl']; [lia |].
    inversion Hl'.
Qed.

Lemma lookup_rows context p w l :
  l ∈ filter (fun l => l.(Lead.business_id) = context.(businessId)
                       /\ l.(Lead.phone) = Some p) (map_to_list (leads w)).*2
  <-> lookup_matches context p l /\ exists id, leads w !! id = Some l.
Proof.
  rewrite list_elem_of_filter, list_elem_of_fmap. unfold lookup_matches. split.
  - intros [Hm ([id l'] & -> & Hin)]. apply elem_of_map_to_list in Hin. eauto.
  - intros [Hm [id Hid]]. split; [exact Hm |].
    exists (id, l). split; [reflexivity |]. apply elem_of_map_to_list. exact Hid.
Qed.

Lemma truthy_Some p : p <> "" -> truthy (Some p) = true.
Proof. intros H. simpl. destruct (String.eqb_spec p ""); [contradiction | reflexivity]. Qed.

(** The lookup when the query is served: the answer of the tool for what
    the query returns. *)
Lemma lookup_customer_run env view context phone p w :
  or_else phone context.(callerPhone) = Some p ->
  p <> "" ->
  leads_fault view = NoFault ->
  createLookupCustomerTool env view context phone w
  = match most_recent view
            (filter (fun l => l.(Lead.business_id) = context.(businessId)
                              /\ l.(Lead.phone) = Some p)
               (map_to_list (leads w)).*2) with
    | None => (w, inr msg_new_customer)
    | Some l => lookup_found env view context w l
    end.
Proof.
  intros Hphone Hne Hserved.
  unfold createLookupCustomerTool, selectLeadsByPhone.
  rewrite Hphone, (truthy_Some p Hne), Hserved. cbn [negb]. run_m.
  destruct (most_recent view _) as [l |]; [| reflexivity].
  unfold logCallEvent, lookup_found, lookup_event, lookup_greeting.
  destruct (env_fault env OpInsertCallEvent); reflexivity.
Qed.

(** X12.  The lookup when the store serves its query, for a phone number
    that is given by the argument or else by the call context.  When no lead
    of the tenant carries that number, the caller is greeted as a new
    customer and nothing is written.  When some lead does, the tool takes a
    lead of the tenant with that number than which no other such lead was
    created later, and records the audit event 'customer_looked_up' for it:
    with a served insert the event is appended and the answer is the greeting
    for a returning customer built from that lead; with an insert that the
    store answers with an error the answer is the same and nothing is
    written; with an insert whose client call rejects the tool catches the
    rejection, answers its neutral question and writes nothing. *)
Theorem lookup_customer_finds_latest env view context phone p w :
  or_else phone context.(callerPhone) = Some p ->
  p <> "" ->
  leads_fault view = NoFault ->
  let r := createLookupCustomerTool env view context phone w in
  ((forall id l, leads w !! id = Some l -> ~ lookup_matches context p l) ->
   r = (w, inr msg_new_customer))
  /\ ((exists id l, leads w !! id = Some l /\ lookup_matches context p l) ->
      exists id l,
        leads w !! id = Some l
        /\ lookup_matches context p l
        /\ (forall id' l', leads w !! id' = Some l' -> lookup_matches context p l' ->
              lead_created_at view l' <= lead_created_at view l)
        /\ r = lookup_found env view context w l).
Proof.
  intros Hphone Hne Hserved r. subst r.
  rewrite (lookup_customer_run env view context phone p w Hphone Hne Hserved).
  pose proof (most_recent_spec view
                (filter (fun l => l.(Lead.business_id) = context.(businessId)
                                  /\ l.(Lead.phone) = Some p)
                   (map_to_list (leads w)).*2)) as Hspec.
  split.
  - intros Hnone.
    destruct (most_recent view _) as [l |]; [| reflexivity].
    destruct Hspec as [Hin _]. apply lookup_rows in Hin as [Hm [id Hid]].
    destruct (Hnone id l Hid Hm).
  - intros (id0 & l0 & Hid0 & Hm0).
    destruct (most_recent view _) as [l |].
    + destruct Hspec as [Hin Hmax]. apply lookup_rows in Hin as [Hm [id Hid]].
      exists id, l. split; [exact Hid |]. split; [exact Hm |].
      split; [| reflexivity].
      intros id' l' Hid' Hm'. apply Hmax. apply lookup_rows. eauto.
    + assert (Hin : l0 ∈ filter (fun l => l.(Lead.business_id) = context.(businessId)
                                          /\ l.(Lead.phone) = Some p)
                           (map_to_list (leads w)).*2)
        by (apply lookup_rows; eauto).
      rewrite Hspec in Hin. inversion Hin.
Qed.

(** The caller of the reference call has left her number twice with the
    tenant, first as a new lead and later as a converted one, and once with
    another tenant, later still.  The lookup of her number takes a lead of
    the tenant that was created no earlier than the second, greets her from
    it and records the event. *)
Lemma lookup_customer_finds_latest_witness :
  let env := reference_env 1893474000000 no_faults None Rejects Rejects in
  let first := Lead.mk "a" "biz-1" None (Some "Jane Smith") None (Some "+15557778888")
                 None (Some "voice_call") (Some "new") None None None None in
  let second := Lead.mk "b" "biz-1" None (Some "Jane Smith") None (Some "+15557778888")
                  None (Some "voice_call") (Some "converted") None None None None in
  let other := Lead.mk "c" "biz-2" None (Some "Jane Smith") None (Some "+15557778888")
                 None (Some "voice_call") (Some "new") None None None None in
  let view :=
    mkLeadsView
      (fun l => if String.eqb l.(Lead.id) "a" then 100
                else if String.eqb l.(Lead.id) "b" then 200 else 300)
      (fun t => "day " +:+ pretty t) NoFault in
  let context := reference_context (Some "+15557778888") None in
  let w := with_leads (fun _ => <["a" := first]> (<["b" := second]> (<["c" := other]> ∅)))
             (reference_world (acme false None None) (main_line None)) in
  let r := createLookupCustomerTool env view context None w in
  exists l,
    l.(Lead.business_id) = "biz-1"
    /\ l.(Lead.phone) = Some "+15557778888"
    /\ 200 <= lead_created_at view l
    /\ result_of r = inr (lookup_greeting view l)
    /\ call_events (world_of r) = [lookup_event view context l].
Proof.
  intros env first second other view context w r.
  destruct (lookup_customer_finds_latest env view context None "+15557778888" w)
    as [_ Hfound]; [reflexivity | discriminate | reflexivity |].
  destruct Hfound as (id & l & Hid & [Hb Hp] & Hmax & Hr).
  { exists "b", second. split; [vm_compute; reflexivity | split; reflexivity]. }
  exists l. split; [exact Hb |]. split; [exact Hp |]. split.
  - apply (Hmax "b" second); [vm_compute; reflexivity | split; reflexivity].
  - fold r in Hr. rewrite Hr. split; reflexivity.
Defined.

(** The same lookup, run: the second lead is the one that is taken. *)
Example scenario_lookup_latest :
  let env := reference_env 1893474000000 no_faults None Rejects Rejects in
  let first := Lead.mk "a" "biz-1" None (Some "Jane Smith") None (Some "+15557778888")
                 None (Some "voice_call") (Some "new") None None None None in
  let second := Lead.mk "b" "biz-1" None (Some "Jane Smith") None (Some "+15557778888")
                  None (Some "voice_call") (Some "converted") None None None None in
  let other := Lead.mk "c" "biz-2" None (Some "Jane Smith") None (Some "+15557778888")
                 None (Some "voice_call") (Some "new") None None None None in
  let view :=
    mkLeadsView
      (fun l => if String.eqb l.(Lead.id) "a" then 100
                else if String.eqb l.(Lead.id) "b" then 200 else 300)
      (fun t => "day " +:+ pretty t) NoFault in
  let w := with_leads (fun _ => <["a" := first]> (<["b" := second]> (<["c" := other]> ∅)))
             (reference_world (acme false None None) (main_line None)) in
  let r := createLookupCustomerTool env view (reference_context (Some "+15557778888") None)
             None w in
  result_of r
  = inr "Welcome back, Jane! I see we last spoke on day 200. Thank you for being a valued customer. How can I assist you today?"
  /\ call_events (world_of r)
     = [CallEvent.mk "call-1" "customer_looked_up"
          [("lead_id", DText "b"); ("customer_name", DText "Jane Smith");
           ("last_contact", DInstant 200)]].
Proof. vm_compute. auto. Qed.

(** X13.  The lookup when the store does not serve its query.  An [error]
    in the reply gives the answer that the information cannot be looked up; a
    rejected client call is caught by the tool and gives the neutral question.
    Either way nothing is written and no audit event is recorded. *)
Theorem lookup_customer_store_fault env view context phone p w :
  or_else phone context.(callerPhone) = Some p ->
  p <> "" ->
  leads_fault view <> NoFault ->
  createLookupCustomerTool env view context phone w
  = (w, inr (if decide (leads_fault view = ErrorReply)
             then msg_lookup_unable else msg_lookup_failed)).
Proof.
  intros Hphone Hne Hfault.
  unfold createLookupCustomerTool, selectLeadsByPhone.
  rewrite Hphone, (truthy_Some p Hne). cbn [negb].
  destruct (leads_fault view); [contradiction | |]; reflexivity.
Qed.

Lemma lookup_customer_store_fault_witness :
  let w := reference_world (acme false None None) (main_line None) in
  createLookupCustomerTool (reference_env 0 no_faults None Rejects Rejects)
    (mkLeadsView (fun _ => 0) (fun _ => "") ErrorReply)
    (reference_context None None) (Some "+15551234567") w
  = (w, inr msg_lookup_unable).
Proof.
  intros w.
  apply (lookup_customer_store_fault _
           (mkLeadsView (fun _ => 0) (fun _ => "") ErrorReply)
           (reference_context None None) (Some "+15551234567") "+15551234567" w);
    [reflexivity | discriminate | discriminate].
Defined.

(** What follows the insert of create_lead respects [evolves]. *)
Lemma create_lead_after_insert_evolves env context b a row :
  keeps (evolves tool_write)
    (try_catch
       (let* _ := hubspot_sync env context b a row in record_lead env context a row)
       (fun _ => ret msg_lead_failed)).
Proof.
  unfold hubspot_sync, createHubSpotContact, record_lead. cbv zeta. keeps_evolves.
Qed.

(** X14.  A lead that create_lead has stored is found by lookup_customer.
    Let create_lead run with a phone argument, for a tenant that is found and
    with a served insert; whatever happens afterwards in that run (the CRM
    sync, the audit event, the call update, even when the tool ends with its
    apology), a later lookup of that number in the same call context, served
    by the store, greets a returning customer: a lead of the tenant with that
    number. *)
Theorem lookup_customer_after_create_lead env env' view context (a : LeadParams.t) p b w :
  a.(LeadParams.phone) = Some p ->
  p <> "" ->
  serves env [OpGetBusiness; OpCreateLead] ->
  businesses w !! context.(businessId) = Some b ->
  leads_fault view = NoFault ->
  env_fault env' OpInsertCallEvent <> ClientThrows ->
  let w1 := world_of (createLeadCaptureTool env context a w) in
  let r := createLookupCustomerTool env' view context (Some p) w1 in
  exists id l,
    leads w1 !! id = Some l
    /\ lookup_matches context p l
    /\ result_of r = inr (lookup_greeting view l).
Proof.
  intros Hp Hne Hs Hb Hserved Hlog w1 r.
  assert (Htr : truthy (Some p) = true) by (apply truthy_Some; exact Hne).
  assert (Hfound : exists id l, leads w1 !! id = Some l /\ lookup_matches context p l).
  { unfold w1.
    rewrite (create_lead_reaches_sync env context a w b) by
      (try assumption; rewrite Hp, Htr;
       destruct (truthy (LeadParams.email a)); reflexivity).
    match goal with
    | |- context [try_catch ?m ?h ?w0] =>
        destruct (ev_leads _ _ _
                    (create_lead_after_insert_evolves env context b a
                       (lead_data context a (default "medium" a.(LeadParams.interest_level))
                          (fresh (dom (leads w)))) w0)
                    (fresh (dom (leads w)))
                    (lead_data context a (default "medium" a.(LeadParams.interest_level))
                       (fresh (dom (leads w)))))
          as (l & Hl & Hsame)
    end.
    { simpl. apply lookup_insert_eq. }
    exists (fresh (dom (leads w))), l. split; [exact Hl |].
    destruct Hsame as (_ & Hbid & _ & _ & _ & Hphone & _).
    split; [rewrite Hbid; reflexivity |].
    rewrite Hphone. simpl. unfold or_else. rewrite Hp, Htr. reflexivity. }
  destruct Hfound as (id0 & l0 & Hid0 & Hm0).
  subst r.
  rewrite (lookup_customer_run env' view context (Some p) p w1)
    by (try assumption; unfold or_else; rewrite Htr; reflexivity).
  assert (Hanswer : forall l, result_of (lookup_found env' view context w1 l)
                              = inr (lookup_greeting view l)).
  { intros l. unfold lookup_found.
    destruct (env_fault env' OpInsertCallEvent); [| | contradiction]; reflexivity. }
  pose proof (most_recent_spec view
                (filter (fun l => l.(Lead.business_id) = context.(businessId)
                                  /\ l.(Lead.phone) = Some p)
                   (map_to_list (leads w1)).*2)) as Hspec.
  destruct (most_recent view _) as [l |].
  - destruct Hspec as [Hin _]. apply lookup_rows in Hin as [Hm [id Hid]].
    exists id, l. split; [exact Hid |]. split; [exact Hm | apply Hanswer].
  - assert (Hin : l0 ∈ filter (fun l => l.(Lead.business_id) = context.(businessId)
                                        /\ l.(Lead.phone) = Some p)
                         (map_to_list (leads w1)).*2)
      by (apply lookup_rows; eauto).
    rewrite Hspec in Hin. inversion Hin.
Qed.

(** Jane Smith leaves her number; the lookup of that number then greets her. *)
Lemma lookup_customer_after_create_lead_witness :
  let env := reference_env 1893474000000 no_faults None Rejects Rejects in
  let view := mkLeadsView (fun _ => 1893474000000) (fun _ => "January 1, 2030") NoFault in
  let w := reference_world (acme false None None) (main_line None) in
  let a := LeadParams.mk "Jane Smith" None (Some "+15557778888") None None None in
  let w1 := world_of (createLeadCaptureTool env (reference_context None None) a w) in
  let r := createLookupCustomerTool env view (reference_context None None)
             (Some "+15557778888") w1 in
  exists id l,
    leads w1 !! id = Some l
    /\ lookup_matches (reference_context None None) "+15557778888" l
    /\ result_of r = inr (lookup_greeting view l).
Proof.
  intros env view w a.
  apply (lookup_customer_after_create_lead env env view (reference_context None None) a
           "+15557778888" (acme false None None) w);
    [reflexivity | discriminate | repeat constructor | reflexivity | reflexivity
    | discriminate].
Defined.

Example scenario_lookup_customer :
  let env := reference_env 1893474000000 no_faults None Rejects Rejects in
  let view := mkLeadsView (fun _ => 1893474000000) (fun _ => "January 1, 2030") NoFault in
  let w := reference_world (acme false None None) (main_line None) in
  let a := LeadParams.mk "Jane Smith" None (Some "+15557778888") None None None in
  let w1 := world_of (createLeadCaptureTool env (reference_context None None) a w) in
  let r := createLookupCustomerTool env view (reference_context None None)
             (Some "+15557778888") w1 in
  result_of r
  = inr "Welcome back, Jane! I see we last spoke on January 1, 2030. How can I assist you today?"
  /\ CallEvent.event_type <$> call_events (world_of r)
     = ["lead_captured"; "customer_looked_up"].
Proof. vm_compute. auto. Qed.

(** ** The requests to the integrations *)

(** The three ways out of the tenant lookup. *)
Lemma getBusiness_cases env id w :
  (exists e, getBusiness env id w = (w, inl e))
  \/ getBusiness env id w = (w, inr None)
  \/ exists b, businesses w !! id = Some b /\ getBusiness env id w = (w, inr (Some b)).
Proof.
  unfold getBusiness. destruct (env_fault env OpGetBusiness); run_m; eauto.
  destruct (businesses w !! id) as [b |]; eauto.
Qed.

(** X15.  A date and a time that the engine cannot read (an Invalid Date)
    are not rejected by the date check, which compares with NaN; the tool
    then fails when it needs the instant, whatever the store and the calendar
    do: it returns its apology, creates no appointment row, sends no calendar
    request and leaves the world as it was. *)
Theorem book_appointment_unreadable_date env context (a : AppointmentParams.t) w :
  scheduledAt env a = None ->
  createBookAppointmentTool env context a w = (w, inr msg_booking_failed).
Proof.
  intros Hdate. unfold createBookAppointmentTool. rewrite Hdate. cbn [Date_lt].
  destruct (getBusiness_cases env context.(businessId) w)
    as [[e H] | [H | (b & _ & H)]].
  - rewrite (run_try_caught _ _ w w e); [reflexivity |].
    apply run_bind_throw. exact H.
  - rewrite (run_try_caught _ _ w w (Error "Business not found")); [reflexivity |].
    rewrite (run_bind _ _ _ _ _ H). reflexivity.
  - rewrite (run_try_caught _ _ w w (RangeError "Invalid time value")); [reflexivity |].
    rewrite (run_bind _ _ _ _ _ H).
    rewrite (run_bind _ _ w w (None, None)); [reflexivity |].
    unfold calendar_enrichment.
    destruct (Business.google_calendar_id b); [| reflexivity].
    destruct (_ && _); reflexivity.
Qed.

Lemma book_appointment_unreadable_date_witness :
  let env := reference_env 1893474000000 no_faults
               (Some (Some "event123", None)) Rejects Rejects in
  let w := reference_world (acme true None None) (main_line None) in
  let a := AppointmentParams.mk "tomorrow" "2pm" "John Doe" "john@example.com"
             None None None in
  createBookAppointmentTool env (reference_context None None) a w
  = (w, inr msg_booking_failed).
Proof.
  intros env w a.
  apply (book_appointment_unreadable_date env (reference_context None None) a w).
  reflexivity.
Defined.

(** The calendar step: nothing happens, or one request is recorded. *)
Lemma calendar_enrichment_cases env b d (a : AppointmentParams.t) dur w :
  calendar_enrichment env b d a dur w = (w, inr (None, None))
  \/ exists calendarId t ids,
       b.(Business.google_calendar_connected) = Some true
       /\ b.(Business.google_calendar_id) = Some calendarId
       /\ calendarId <> ""
       /\ d = Some t
       /\ calendar_enrichment env b d a dur w
          = (with_outbound
               (fun l => l ++ [CalendarInsert calendarId
                                 (or_default a.(AppointmentParams.purpose)
                                    ("Meeting with " +:+ a.(AppointmentParams.customer_name)))
                                 t (t + dur * 60000)
                                 (or_default b.(Business.timezone) "America/New_York")
                                 a.(AppointmentParams.customer_email)]) w,
             inr ids).
Proof.
  unfold calendar_enrichment.
  destruct (Business.google_calendar_id b) as [calendarId |] eqn:Hid; [| auto].
  destruct (Business.google_calendar_connected b) as [[|] |] eqn:Hconn;
    cbn [truthy_bool andb]; [| auto ..].
  destruct (truthy (Some calendarId)) eqn:Htr; [| auto].
  assert (calendarId <> "") by (intros ->; discriminate).
  unfold calendar_events_insert, toISOString, record_outbound.
  destruct d as [t |]; run_m; [| auto].
  unfold TimeClip. destruct (Z.abs _ <=? _); run_m; [| auto].
  destruct (env_calendar env) as [[id link] |]; right; eauto 10.
Qed.

Lemma book_appointment_after_calendar_quiet env context a scheduledAt dur eventId link :
  keeps (unchanged outbound)
    (let* scheduled := toISOString scheduledAt in
     let* appointment :=
       createAppointment env (appointment_data context a scheduled dur eventId link) in
     record_booking env context a scheduled appointment link).
Proof. unfold record_booking. cbv zeta. keeps_unchanged. Qed.

(** X16.  book_appointment sends at most one request to the calendar, and
    none to another integration.  If it sends one, the date check has passed,
    the tenant row was read, its calendar is marked connected and has an id
    that is not empty; the request names that calendar, starts at the
    instant of the appointment and ends [duration_minutes] (30 when the
    argument is absent) later, in the tenant's time zone or else in
    'America/New_York', with the customer as attendee. *)
Theorem book_appointment_calendar_request env context (a : AppointmentParams.t) w :
  let r := createBookAppointmentTool env context a w in
  let duration_minutes := default 30 a.(AppointmentParams.duration_minutes) in
  outbound (world_of r) = outbound w
  \/ exists b calendarId t,
       businesses w !! context.(businessId) = Some b
       /\ b.(Business.google_calendar_connected) = Some true
       /\ b.(Business.google_calendar_id) = Some calendarId
       /\ calendarId <> ""
       /\ scheduledAt env a = Some t
       /\ env_now env <= t
       /\ outbound (world_of r)
          = outbound w
            ++ [CalendarInsert calendarId
                  (or_default a.(AppointmentParams.purpose)
                     ("Meeting with " +:+ a.(AppointmentParams.customer_name)))
                  t (t + duration_minutes * 60000)
                  (or_default b.(Business.timezone) "America/New_York")
                  a.(AppointmentParams.customer_email)].
Proof.
  intros r dur. subst r. unfold createBookAppointmentTool. fold dur.
  rewrite try_catch_world.
  destruct (Date_lt (scheduledAt env a) (Some (env_now env))) eqn:Hdate;
    [left; reflexivity |].
  destruct (getBusiness_cases env context.(businessId) w)
    as [[e H] | [H | (b & Hb & H)]].
  - rewrite (run_bind_throw _ _ _ _ _ H). left. reflexivity.
  - rewrite (run_bind _ _ _ _ _ H). left. reflexivity.
  - rewrite (run_bind _ _ _ _ _ H).
    destruct (calendar_enrichment_cases env b (scheduledAt env a) a dur w)
      as [Hcal | (calendarId & t & [eventId link] & Hconn & Hid & Hne & Ht & Hcal)];
      rewrite (run_bind _ _ _ _ _ Hcal);
      rewrite (book_appointment_after_calendar_quiet env context a _ dur _ _ _).
    + left. reflexivity.
    + right. exists b, calendarId, t. repeat split; try assumption.
      rewrite Ht in Hdate. simpl in Hdate. apply Z.ltb_ge. exact Hdate.
Qed.

(** The CRM step: it returns, and nothing happens to the trace of outbound
    requests or one request is recorded for the key of the tenant. *)
Lemma hubspot_sync_cases env context b (a : LeadParams.t) lead w :
  exists w',
    hubspot_sync env context b a lead w = (w', inr tt)
    /\ calls w' = calls w
    /\ (outbound w' = outbound w
        \/ exists key,
             b.(Business.hubspot_api_key) = Some key
             /\ key <> ""
             /\ outbound w'
                = outbound w
                  ++ [HubSpotCreate key (or_default a.(LeadParams.email) "")
                        (fst (split_first_space a.(LeadParams.name)))
                        (snd (split_first_space a.(LeadParams.name)))
                        (or_default (or_else a.(LeadParams.phone) context.(callerPhone))
                           "")]).
Proof.
  unfold hubspot_sync.
  destruct (Business.hubspot_api_key b) as [key |] eqn:Hkey; [| eauto].
  destruct (truthy (Some key)) eqn:Htr; [| eauto].
  assert (key <> "") by (intros ->; discriminate).
  unfold createHubSpotContact, updateLead, record_outbound.
  destruct (split_first_space (LeadParams.name a)) as [firstname lastname].
  run_m.
  destruct (env_hubspot env) as [| [|] id]; try solve [eexists; simpl; eauto 10].
  destruct (env_fault env OpUpdateLead); try solve [eexists; simpl; eauto 10].
  simpl. destruct (leads w !! Lead.id lead); eexists; simpl; eauto 10.
Qed.

Lemma record_lead_quiet env context a lead :
  keeps (unchanged outbound) (record_lead env context a lead).
Proof. unfold record_lead. keeps_unchanged. Qed.

(** X17.  create_lead sends at most one request to the CRM, and none to
    another integration.  If it sends one, the tenant row was read and has an
    API key that is not empty, and the lead row was stored before, under a new
    key: it is in the store when the tool ends, with the contact columns it
    was inserted with, whatever the CRM answered.  The request carries the
    email or else the empty text, the name split at its first space, and the
    phone argument or else the caller phone or else the empty text. *)
Theorem create_lead_crm_request env context (a : LeadParams.t) w :
  let r := createLeadCaptureTool env context a w in
  let id := fresh (dom (leads w)) in
  outbound (world_of r) = outbound w
  \/ exists b key l,
       businesses w !! context.(businessId) = Some b
       /\ b.(Business.hubspot_api_key) = Some key
       /\ key <> ""
       /\ leads w !! id = None
       /\ leads (world_of r) !! id = Some l
       /\ same_contact
            (lead_data context a (default "medium" a.(LeadParams.interest_level)) id) l
       /\ outbound (world_of r)
          = outbound w
            ++ [HubSpotCreate key (or_default a.(LeadParams.email) "")
                  (fst (split_first_space a.(LeadParams.name)))
                  (snd (split_first_space a.(LeadParams.name)))
                  (or_default (or_else a.(LeadParams.phone) context.(callerPhone)) "")].
Proof.
  intros r id. subst r.
  destruct (negb (truthy a.(LeadParams.email)) && negb (truthy a.(LeadParams.phone))
            && negb (truthy context.(callerPhone))) eqn:Hcontact.
  { unfold createLeadCaptureTool. rewrite Hcontact. left. reflexivity. }
  destruct (getBusiness_cases env context.(businessId) w)
    as [[e H] | [H | (b & Hb & H)]].
  - unfold createLeadCaptureTool. rewrite try_catch_world, Hcontact.
    rewrite (run_bind_throw _ _ _ _ _ H). left. reflexivity.
  - unfold createLeadCaptureTool. rewrite try_catch_world, Hcontact.
    rewrite (run_bind _ _ _ _ _ H). left. reflexivity.
  - destruct (decide (env_fault env OpCreateLead = NoFault)) as [Hins | Hins].
    + assert (Hget : env_fault env OpGetBusiness = NoFault).
      { unfold getBusiness in H.
        destruct (env_fault env OpGetBusiness); [reflexivity | discriminate ..]. }
      rewrite (create_lead_reaches_sync env context a w b);
        [| destruct (truthy (LeadParams.email a)), (truthy (LeadParams.phone a)),
             (truthy (callerPhone context)); simpl in *; congruence
         | repeat constructor; assumption | exact Hb].
      cbv zeta. fold id.
      set (row := lead_data context a (default "medium" a.(LeadParams.interest_level)) id).
      set (w0 := with_leads <[id := row]> w).
      destruct (ev_leads _ _ _ (create_lead_after_insert_evolves env context b a row w0)
                  id row) as (l & Hl & Hsame); [apply lookup_insert_eq |].
      rewrite try_catch_world in *.
      destruct (hubspot_sync_cases env context b a row w0)
        as (w' & Hsync & _ & Hout).
      rewrite (run_bind _ _ _ _ _ Hsync) in *.
      rewrite (record_lead_quiet env context a row w').
      destruct Hout as [Hout | (key & Hkey & Hne & Hout)]; [left; exact Hout |].
      right. exists b, key, l.
      split; [exact Hb |]. split; [exact Hkey |]. split; [exact Hne |].
      split; [apply fresh_key_unused |]. split; [exact Hl |].
      split; [exact Hsame | exact Hout].
    + unfold createLeadCaptureTool. rewrite try_catch_world, Hcontact.
      rewrite (run_bind _ _ _ _ _ H). left.
      rewrite (run_bind_throw _ _ w w
                 (if decide (env_fault env OpCreateLead = ErrorReply)
                  then PostgrestError OpCreateLead else ClientRejected OpCreateLead));
        [reflexivity |].
      unfold createLead.
      destruct (env_fault env OpCreateLead); [contradiction | |]; reflexivity.
Qed.

(** X18.  The name sent to the CRM is split at its first space: the first
    name holds no space, and the name is the first name alone (the last name
    is then empty) or the first name, a space and the last name; nothing of
    the name is lost. *)
Theorem split_first_space_rejoins (name : string) :
  let '(firstname, lastname) := split_first_space name in
  (forall c, c ∈ list_ascii_of_string firstname -> c <> " "%char)
  /\ ((name = firstname /\ lastname = "")
      \/ name = firstname +:+ " " +:+ lastname).
Proof.
  induction name as [| c name IH]; simpl.
  - split; [intros c Hc; inversion Hc | left; auto].
  - destruct (Ascii.eqb_spec c " "%char) as [-> | Hc].
    + split; [intros c Hc; inversion Hc | right; reflexivity].
    + destruct (split_first_space name) as [firstname lastname].
      destruct IH as [Hno Hjoin]. split.
      * intros c' Hc'. simpl in Hc'. apply elem_of_cons in Hc' as [-> | Hc']; auto.
      * destruct Hjoin as [[-> ->] | ->]; [left; auto | right; reflexivity].
Qed.

(** ** transfer_to_human: the order of its writes *)

(** X19.  transfer_to_human writes in a fixed order: the call row, then the
    audit event, then the request to the carrier.  Either it writes nothing
    (no call row changes, no event, no request) and answers that the team will
    reach out or with its apology; or the line of the call has a forwarding
    number and the call row carries the transfer patch
    ([transferred_to_human], outcome 'transferred', the notes).  What follows
    is decided by the audit insert.  When its client call rejects, the tool
    ends with its apology, with no event and no request, although the call is
    marked as transferred.  When it is served, the event 'transfer_initiated'
    is appended, and when the store answers it with an error, no event is;
    in both cases one request is sent to the carrier when the context has a
    telephony leg and the process has the carrier's credentials (for that leg
    and the forwarding number) and none otherwise, and the answer announces
    the transfer when the redirect went through and promises the connection
    when it did not. *)
Theorem transfer_writes_in_order env context (a : TransferParams.t) w :
  let r := createTransferToHumanTool env context a w in
  (calls (world_of r) = calls w
   /\ call_events (world_of r) = call_events w
   /\ outbound (world_of r) = outbound w
   /\ (result_of r = inr msg_no_transfer_number \/ result_of r = inr msg_transfer_failed))
  \/ exists c number,
       calls w !! context.(callId) = Some c
       /\ forwarding_number w context.(callId) = Some number
       /\ calls (world_of r)
          = <[context.(callId) := Call.apply (transfer_patch a) c]> (calls w)
       /\ match env_fault env OpInsertCallEvent with
          | ClientThrows =>
              call_events (world_of r) = call_events w
              /\ outbound (world_of r) = outbound w
              /\ result_of r = inr msg_transfer_failed
          | ErrorReply =>
              call_events (world_of r) = call_events w
              /\ outbound (world_of r) = outbound w ++ transfer_requests env context number
              /\ result_of r
                 = inr (if redirect_succeeds env context
                        then msg_transferring a.(TransferParams.reason)
                        else msg_connecting a.(TransferParams.reason))
          | NoFault =>
              call_events (world_of r)
              = call_events w ++ [transfer_event context a number]
              /\ outbound (world_of r) = outbound w ++ transfer_requests env context number
              /\ result_of r
                 = inr (if redirect_succeeds env context
                        then msg_transferring a.(TransferParams.reason)
                        else msg_connecting a.(TransferParams.reason))
          end.
Proof.
  intros r. subst r.
  unfold createTransferToHumanTool, getBusiness, getCall, selectPhoneNumber,
    updateCall, logCallEvent, initiateTransferViaTwilio, record_outbound,
    forwarding_number, redirect_succeeds, transfer_requests, transfer_event.
  destruct (env_fault env OpGetBusiness); run_m; try solve [simpl; auto 10].
  destruct (businesses w !! businessId context); run_m; try solve [simpl; auto 10].
  destruct (env_fault env OpGetCall); run_m; try solve [simpl; auto 10].
  destruct (calls w !! callId context) as [c |] eqn:Hc; run_m;
    try solve [simpl; auto 10].
  destruct (Call.phone_number_id c) as [pid |] eqn:Hpid; run_m;
    try solve [simpl; auto 10].
  destruct (negb (truthy (Some pid))); run_m; try solve [simpl; auto 10].
  destruct (env_fault env OpSelectPhoneNumber); run_m; try solve [simpl; auto 10].
  destruct (phone_numbers w !! pid) as [line |] eqn:Hline; run_m;
    try solve [simpl; auto 10].
  change (Some line ≫= PhoneNumber.forward_to) with (PhoneNumber.forward_to line).
  destruct (PhoneNumber.forward_to line) as [number |] eqn:Hfwd; run_m;
    try solve [simpl; auto 10].
  destruct (negb (truthy (Some number))); run_m; try solve [simpl; auto 10].
  destruct (env_fault env OpUpdateCall); run_m; try solve [simpl; auto 10].
  cbn [calls]. rewrite Hc. run_m.
  assert (Hnumber : Some c ≫= (fun c0 : Call.t =>
                      Call.phone_number_id c0 ≫= (fun phone_number_id : string =>
                        phone_numbers w !! phone_number_id ≫= (fun line0 : PhoneNumber.t =>
                          PhoneNumber.forward_to line0))) = Some number).
  { simpl. rewrite Hpid. simpl. rewrite Hline. simpl. exact Hfwd. }
  right. exists c, number. split; [reflexivity |]. split; [exact Hnumber |].
  destruct (env_fault env OpInsertCallEvent) eqn:Hlog; run_m;
    try solve [simpl; auto 10];
    (destruct (twilioCallSid context) as [sid |] eqn:Hsid; run_m;
       [| solve [simpl; rewrite ?app_nil_r; auto 10]];
     destruct (truthy (Some sid)) eqn:Htr; run_m;
       [| solve [simpl; rewrite ?app_nil_r; auto 10]];
     destruct (env_twilio_credentials env) eqn:Hcred; cbn [negb andb]; run_m;
       [| solve [simpl; rewrite ?app_nil_r; auto 10]];
     destruct (env_twilio env) as [| [|] rid]; simpl; auto 10).
Qed.

(** A rejected audit insert after the call has been marked: the caller hears
    the apology, no event is recorded and the carrier is not asked, yet the
    call row says that the call was transferred. *)
Example scenario_transfer_audit_rejected :
  let fault := fun op => match op with OpInsertCallEvent => ClientThrows | _ => NoFault end in
  let env := reference_env 1893474000000 fault None Rejects (Response true None) in
  let w := reference_world (acme false None None) (main_line (Some "+15559876543")) in
  let a := TransferParams.mk "billing" (Some "high") None in
  let r := createTransferToHumanTool env (reference_context None (Some "CA1")) a w in
  result_of r = inr msg_transfer_failed
  /\ Call.transferred_to_human <$> calls (world_of r) !! "call-1" = Some (Some true)
  /\ call_events (world_of r) = []
  /\ outbound (world_of r) = [].
Proof. vm_compute. auto. Qed.






(** Trailing white space of any kind is trimmed: here a space and a
    no-break space (U+00A0, the bytes [C2 A0]). *)
Example trim_no_break_space :
  trim ("Transfer reason: billing. "
          +:+ String (ascii_of_nat 194) (String (ascii_of_nat 160) EmptyString))
  = "Transfer reason: billing.".
Proof. vm_compute. reflexivity. Qed.



(** ** check_business_hours in every environment *)

(** X21.  check_business_hours reads and never writes, and it has two
    answers only: the Monday through Friday statement and the offer to
    schedule a callback.  In no environment and for no store does it answer
    that the office is open or closed. *)
Theorem check_business_hours_two_answers env context w :
  let r := createBusinessHoursTool env context w in
  world_of r = w
  /\ (result_of r = inr msg_mon_fri \/ result_of r = inr msg_schedule_callback).
Proof.
  intros r. subst r.
  unfold createBusinessHoursTool, getBusiness, toLocaleDateString_weekday.
  destruct (env_fault env OpGetBusiness); run_m; try solve [simpl; auto].
  destruct (businesses w !! businessId context) as [b |]; run_m;
    try solve [simpl; auto].
  destruct (Business.business_hours b); run_m; try solve [simpl; auto].
  destruct (negb (env_zone_known env _)); run_m; simpl; auto.
Qed.

(** ** One tool after another *)

(** X22.  The outcome of a call is the one of the last tool that wrote it.
    Let book_appointment book an appointment (a future date, a served store)
    and let create_lead then capture a lead in the same call (a contact
    channel, a served store): after the first the outcome of the call is
    'appointment_booked', after the second it is 'lead_captured', and the
    appointment is still in the store as it was. *)
Theorem outcome_is_last_tool_write env1 env2 context
    (ap : AppointmentParams.t) (lp : LeadParams.t) w t b c :
  scheduledAt env1 ap = Some t ->
  env_now env1 <= t ->
  serves env1 [OpGetBusiness; OpCreateAppointment; OpUpdateCall] ->
  env_fault env1 OpInsertCallEvent <> ClientThrows ->
  truthy lp.(LeadParams.email) || truthy lp.(LeadParams.phone)
    || truthy context.(callerPhone) = true ->
  serves env2 [OpGetBusiness; OpCreateLead; OpUpdateCall] ->
  env_fault env2 OpInsertCallEvent <> ClientThrows ->
  businesses w !! context.(businessId) = Some b ->
  calls w !! context.(callId) = Some c ->
  let w1 := world_of (createBookAppointmentTool env1 context ap w) in
  let w2 := world_of (createLeadCaptureTool env2 context lp w1) in
  Call.outcome <$> calls w1 !! context.(callId) = Some (Some "appointment_booked")
  /\ Call.outcome <$> calls w2 !! context.(callId) = Some (Some "lead_captured")
  /\ is_Some (appointments w1 !! fresh (dom (appointments w)))
  /\ appointments w2 !! fresh (dom (appointments w))
     = appointments w1 !! fresh (dom (appointments w)).
Proof.
  intros Ht Hfuture Hs1 Hlog1 Hcontact Hs2 Hlog2 Hb Hc w1 w2.
  assert (Hupd1 : env_fault env1 OpUpdateCall = NoFault).
  { apply serves_cons in Hs1 as [_ Hs1]. apply serves_cons in Hs1 as [_ Hs1].
    apply serves_cons in Hs1 as [H _]. exact H. }
  assert (Hs1' : serves env1 [OpGetBusiness; OpCreateAppointment]).
  { apply serves_cons in Hs1 as [H1 Hs1]. apply serves_cons in Hs1 as [H2 _].
    repeat constructor; assumption. }
  assert (Hupd2 : env_fault env2 OpUpdateCall = NoFault).
  { apply serves_cons in Hs2 as [_ Hs2]. apply serves_cons in Hs2 as [_ Hs2].
    apply serves_cons in Hs2 as [H _]. exact H. }
  assert (Hs2' : serves env2 [OpGetBusiness; OpCreateLead]).
  { apply serves_cons in Hs2 as [H1 Hs2]. apply serves_cons in Hs2 as [H2 _].
    repeat constructor; assumption. }
  (* the booking *)
  destruct (book_appointment_reaches_insert env1 context ap w t b Ht Hfuture Hs1' Hb)
    as (o & eventId & link & Hrun & _).
  cbv zeta in Hrun.
  assert (Hw1 : calls w1
                = <[context.(callId) := Call.apply (outcome_patch "appointment_booked") c]>
                    (calls w)
                /\ is_Some (appointments w1 !! fresh (dom (appointments w)))).
  { unfold w1. rewrite Hrun.
    match goal with
    | |- context [try_catch ?m ?h ?w0] =>
        destruct (record_booking_succeeds env1 context ap t
                    (appointment_data context ap t
                       (default 30 ap.(AppointmentParams.duration_minutes)) eventId link
                       (fresh (dom (appointments w)))) link w0 c Hlog1 Hupd1 Hc)
          as (w' & Hrec & Happ & Hcalls);
        rewrite (run_try _ _ _ _ _ Hrec)
    end.
    simpl. split; [exact Hcalls |]. rewrite Happ. simpl.
    rewrite lookup_insert_eq. eauto. }
  destruct Hw1 as [Hcalls1 Happ1].
  assert (Hc1 : calls w1 !! context.(callId)
                = Some (Call.apply (outcome_patch "appointment_booked") c))
    by (rewrite Hcalls1; apply lookup_insert_eq).
  assert (Hb1 : businesses w1 !! context.(businessId) = Some b).
  { unfold w1. rewrite (ev_businesses _ _ _ (book_appointment_evolves env1 context ap w)).
    exact Hb. }
  split; [rewrite Hc1; reflexivity |].
  (* the lead *)
  split; [| split; [exact Happ1 |]].
  - unfold w2. rewrite (create_lead_reaches_sync env2 context lp w1 b Hcontact Hs2' Hb1).
    cbv zeta.
    match goal with
    | |- context [try_catch (bind (hubspot_sync ?e ?ctx ?b0 ?a ?row) ?k) ?h ?w0] =>
        destruct (hubspot_sync_cases e ctx b0 a row w0) as (w' & Hsync & Hcalls' & _);
        destruct (record_lead_succeeds env2 context lp row w'
                    (Call.apply (outcome_patch "appointment_booked") c) Hlog2 Hupd2)
          as (w'' & Hrec & _ & Hcalls'');
          [rewrite Hcalls'; exact Hc1 |];
        rewrite (run_try _ _ w0 w''
                   (msg_lead_saved lp.(LeadParams.name) lp.(LeadParams.email)
                      lp.(LeadParams.phone)))
          by (rewrite (run_bind _ _ _ _ _ Hsync); exact Hrec)
    end.
    simpl. rewrite Hcalls'', lookup_insert_eq. reflexivity.
  - destruct Happ1 as [row Hrow]. rewrite Hrow.
    eapply lookup_weaken; [exact Hrow |].
    apply (ev_appointments _ _ _ (create_lead_evolves env2 context lp w1)).
Qed.

(** John Doe books for 2099, then leaves his company's details. *)
Lemma outcome_is_last_tool_write_witness :
  let env := reference_env 1893474000000 no_faults None Rejects Rejects in
  let w := reference_world (acme false None None) (main_line None) in
  let ap := AppointmentParams.mk "2099-01-01" "14:00" "John Doe" "john@example.com"
              None None None in
  let lp := LeadParams.mk "John Doe" (Some "john@example.com") None (Some "Acme")
              None None in
  let w1 := world_of (createBookAppointmentTool env (reference_context None None) ap w) in
  let w2 := world_of (createLeadCaptureTool env (reference_context None None) lp w1) in
  Call.outcome <$> calls w1 !! "call-1" = Some (Some "appointment_booked")
  /\ Call.outcome <$> calls w2 !! "call-1" = Some (Some "lead_captured")
  /\ is_Some (appointments w2 !! "0").
Proof.
  intros env w ap lp w1 w2.
  destruct (outcome_is_last_tool_write env env (reference_context None None) ap lp w
              4070959200000 (acme false None None) call_1)
    as (H1 & H2 & H3 & H4);
    [reflexivity | vm_compute; discriminate | repeat constructor | discriminate
    | reflexivity | repeat constructor | discriminate | reflexivity | reflexivity |].
  split; [exact H1 |]. split; [exact H2 |].
  change (is_Some (appointments w2 !! fresh (dom (appointments w)))).
  fold w1 w2 in H4. rewrite H4. exact H3.
Defined.

(** ** The times of the office hours *)

Lemma split_colon_single s :
  (forall c, c ∈ list_ascii_of_string s -> c <> ":"%char) -> split_colon s = [s].
Proof.
  induction s as [| c s IH]; intros H; simpl; [reflexivity |].
  destruct (Ascii.eqb_spec c ":"%char) as [-> | _].
  - destruct (H ":"%char); [left | reflexivity].
  - rewrite IH; [reflexivity |]. intros c' Hc'. apply H. right. exact Hc'.
Qed.

Lemma split_colon_at_colon s1 s2 :
  (forall c, c ∈ list_ascii_of_string s1 -> c <> ":"%char) ->
  split_colon (s1 +:+ ":" +:+ s2) = s1 :: split_colon s2.
Proof.
  induction s1 as [| c s1 IH]; intros H; simpl; [reflexivity |].
  destruct (Ascii.eqb_spec c ":"%char) as [-> | _].
  - destruct (H ":"%char); [left | reflexivity].
  - rewrite IH; [reflexivity |]. intros c' Hc'. apply H. right. exact Hc'.
Qed.

(** X24.  [formatTime] turns a 24-hour time into a 12-hour one.  For a
    text of hours that reads as an integer from 0 to 23, a colon and a text of
    minutes, the result is the hour of the 12-hour clock (from 1 to 12,
    congruent to the hour modulo 12), a colon, the minutes as they were, a
    space, and 'AM' before noon, 'PM' from noon on. *)
Theorem formatTime_twelve_hour_clock (hours minutes : string) (h : Z) :
  parseInt hours = Some h ->
  0 <= h < 24 ->
  (forall c, c ∈ list_ascii_of_string hours -> c <> ":"%char) ->
  (forall c, c ∈ list_ascii_of_string minutes -> c <> ":"%char) ->
  exists hour12,
    1 <= hour12 <= 12
    /\ hour12 mod 12 = h mod 12
    /\ formatTime (hours +:+ ":" +:+ minutes)
       = pretty hour12 +:+ ":" +:+ minutes +:+ " " +:+ (if h <? 12 then "AM" else "PM").
Proof.
  intros Hparse Hrange Hhours Hminutes.
  exists (if h mod 12 =? 0 then 12 else h mod 12).
  pose proof (Z.mod_pos_bound h 12 ltac:(lia)) as Hmod.
  split; [destruct (Z.eqb_spec (h mod 12) 0); lia |].
  split.
  { destruct (Z.eqb_spec (h mod 12) 0) as [-> | _]; [reflexivity |].
    apply Z.mod_mod. lia. }
  unfold formatTime.
  rewrite (split_colon_at_colon hours minutes Hhours),
    (split_colon_single minutes Hminutes).
  cbn [lookup list_lookup default from_option id]. rewrite Hparse.
  rewrite Z.rem_mod_nonneg by lia.
  replace (12 <=? h) with (negb (h <? 12)) by (rewrite Z.ltb_antisym, negb_involutive; reflexivity).
  destruct (h <? 12); reflexivity.
Qed.

Lemma formatTime_twelve_hour_clock_witness :
  exists hour12,
    1 <= hour12 <= 12
    /\ hour12 mod 12 = 17 mod 12
    /\ formatTime "17:00" = pretty hour12 +:+ ":" +:+ "00" +:+ " " +:+ "PM".
Proof.
  apply (formatTime_twelve_hour_clock "17" "00" 17); [reflexivity | lia | |];
    intros c Hc; vm_compute in Hc; repeat (apply elem_of_cons in Hc as [-> | Hc]);
    try discriminate; inversion Hc.
Defined.

(** ** The order of the writes of a tool *)

(** What follows the insert of book_appointment: the audit event may or
    may not be recorded, and the tool answers with the confirmation exactly
    when the call row has been updated. *)
Lemma record_booking_cases env context (a : AppointmentParams.t) t row link w :
  let r := record_booking env context a t row link w in
  appointments (world_of r) = appointments w
  /\ (call_events (world_of r) = call_events w
      \/ exists data,
           call_events (world_of r)
           = call_events w
             ++ [CallEvent.mk context.(callId) "appointment_booked"
                   (("appointment_id", DText row.(Appointment.id)) :: data)])
  /\ ((calls (world_of r) = calls w /\ exists e, result_of r = inl e)
      \/ exists c,
           calls w !! context.(callId) = Some c
           /\ calls (world_of r)
              = <[context.(callId) := Call.apply (outcome_patch "appointment_booked") c]>
                  (calls w)
           /\ result_of r
              = inr (msg_booked (env_format_date env t) (env_format_time env t)
                     +:+ (if truthy link
                          then msg_meet_link a.(AppointmentParams.customer_email)
                          else msg_confirmation_email
                                 a.(AppointmentParams.customer_email)))).
Proof.
  intros r. subst r. unfold record_booking, logCallEvent, updateCall.
  destruct (env_fault env OpInsertCallEvent); run_m;
    try solve [simpl; eauto 10];
    (destruct (env_fault env OpUpdateCall); run_m; try solve [simpl; eauto 10]);
    cbn [calls with_call_events];
    (destruct (calls w !! callId context) as [c |] eqn:Hc; run_m;
       [| solve [simpl; eauto 10]]);
    destruct (truthy link); simpl; eauto 10.
Qed.

(** X26.  book_appointment writes in a fixed order: the appointment row,
    then the audit event, then the outcome of the call.  Either it stores
    nothing (no row, no event, no change of a call row) and answers that the
    date has passed or with its apology; or it has stored exactly one
    appointment row, under a new key, for the tenant and the call of the
    context, at the instant asked for and with status 'scheduled'.  In that
    case an audit event, if one is recorded, names that row; and the call row
    carries the outcome exactly when the tool answers with the confirmation:
    otherwise the calls are as they were and the answer is the apology,
    although the appointment is stored. *)
Theorem book_appointment_writes_in_order env context (a : AppointmentParams.t) w :
  let r := createBookAppointmentTool env context a w in
  let id := fresh (dom (appointments w)) in
  (appointments (world_of r) = appointments w
   /\ call_events (world_of r) = call_events w
   /\ calls (world_of r) = calls w
   /\ (result_of r = inr msg_date_passed \/ result_of r = inr msg_booking_failed))
  \/ exists row t,
       scheduledAt env a = Some t
       /\ appointments w !! id = None
       /\ appointments (world_of r) = <[id := row]> (appointments w)
       /\ row.(Appointment.id) = id
       /\ row.(Appointment.business_id) = context.(businessId)
       /\ row.(Appointment.call_id) = Some context.(callId)
       /\ row.(Appointment.scheduled_at) = t
       /\ row.(Appointment.status) = Some "scheduled"
       /\ (call_events (world_of r) = call_events w
           \/ exists data,
                call_events (world_of r)
                = call_events w
                  ++ [CallEvent.mk context.(callId) "appointment_booked"
                        (("appointment_id", DText id) :: data)])
       /\ ((calls (world_of r) = calls w /\ result_of r = inr msg_booking_failed)
           \/ exists c,
                calls w !! context.(callId) = Some c
                /\ calls (world_of r)
                   = <[context.(callId) :=
                         Call.apply (outcome_patch "appointment_booked") c]> (calls w)
                /\ result_of r
                   = inr (msg_booked (env_format_date env t) (env_format_time env t)
                          +:+ (if truthy row.(Appointment.google_meet_link)
                               then msg_meet_link a.(AppointmentParams.customer_email)
                               else msg_confirmation_email
                                      a.(AppointmentParams.customer_email)))).
Proof.
  intros r id. subst r. unfold createBookAppointmentTool.
  set (dur := default 30 a.(AppointmentParams.duration_minutes)).
  destruct (Date_lt (scheduledAt env a) (Some (env_now env))) eqn:Hdate.
  { left. unfold try_catch, ret. simpl. auto. }
  destruct (getBusiness_cases env context.(businessId) w)
    as [[e H] | [H | (b & Hb & H)]].
  { left. rewrite (run_try_caught _ _ w w e) by (apply run_bind_throw; exact H).
    simpl. auto. }
  { left. rewrite (run_try_caught _ _ w w (Error "Business not found"))
      by (rewrite (run_bind _ _ _ _ _ H); reflexivity).
    simpl. auto. }
  assert (Hstep : exists w0 eventId link,
             calendar_enrichment env b (scheduledAt env a) a dur w = (w0, inr (eventId, link))
             /\ appointments w0 = appointments w /\ call_events w0 = call_events w
             /\ calls w0 = calls w).
  { destruct (calendar_enrichment_cases env b (scheduledAt env a) a dur w)
      as [Hcal | (calendarId & t & [eventId link] & _ & _ & _ & _ & Hcal)];
      rewrite Hcal; eauto 10. }
  destruct Hstep as (w0 & eventId & link & Hcal & Happ0 & Hev0 & Hcalls0).
  destruct (scheduledAt env a) as [t |] eqn:Ht.
  2: { left. rewrite (run_try_caught _ _ w w0 (RangeError "Invalid time value")).
       - simpl. auto.
       - rewrite (run_bind _ _ _ _ _ H), (run_bind _ _ _ _ _ Hcal). reflexivity. }
  destruct (decide (env_fault env OpCreateAppointment = NoFault)) as [Hins | Hins].
  2: { left.
       rewrite (run_try_caught _ _ w w0
                  (if decide (env_fault env OpCreateAppointment = ErrorReply)
                   then PostgrestError OpCreateAppointment
                   else ClientRejected OpCreateAppointment)).
       - simpl. auto.
       - rewrite (run_bind _ _ _ _ _ H), (run_bind _ _ _ _ _ Hcal).
         rewrite (run_bind _ _ w0 w0 t) by reflexivity.
         apply run_bind_throw. unfold createAppointment.
         destruct (env_fault env OpCreateAppointment); [contradiction | |]; reflexivity. }
  right.
  set (id0 := fresh (dom (appointments w0))).
  assert (Hid0 : id0 = id) by (unfold id0, id; rewrite Happ0; reflexivity).
  set (row := appointment_data context a t dur eventId link id0).
  exists row, t. split; [reflexivity |].
  split; [apply fresh_key_unused |].
  pose proof (record_booking_cases env context a t row link
                (with_appointments <[id0 := row]> w0)) as Hrec.
  cbv zeta in Hrec.
  assert (Hrun : try_catch
                   (let* business := getBusiness env context.(businessId) in
                    match business with
                    | None => throw (Error "Business not found")
                    | Some business =>
                        let* '(calendarEventId, googleMeetLink) :=
                          calendar_enrichment env business (Some t) a dur in
                        let* scheduled := toISOString (Some t) in
                        let* appointment :=
                          createAppointment env
                            (appointment_data context a scheduled dur calendarEventId
                               googleMeetLink) in
                        record_booking env context a scheduled appointment googleMeetLink
                    end)
                   (fun _ => ret msg_booking_failed) w
                 = try_catch (record_booking env context a t row link)
                     (fun _ => ret msg_booking_failed)
                     (with_appointments <[id0 := row]> w0)).
  { apply run_try_same.
    rewrite (run_bind _ _ _ _ _ H), (run_bind _ _ _ _ _ Hcal).
    rewrite (run_bind _ _ w0 w0 t) by reflexivity.
    erewrite run_bind by (apply createAppointment_served; exact Hins).
    reflexivity. }
  rewrite Hrun. clear Hrun.
  destruct Hrec as (Happ & Hev & Hcalls).
  unfold try_catch.
  destruct (record_booking env context a t row link (with_appointments <[id0 := row]> w0))
    as [w' [e | answer]] eqn:Hrb; simpl in *.
  - rewrite Happ, Happ0, <- Hid0. split; [reflexivity |].
    repeat (split; [reflexivity |]).
    split.
    + rewrite <- Hev0. destruct Hev as [-> | [data ->]]; [left | right]; eauto.
    + left. destruct Hcalls as [[-> _] | (c & _ & _ & Habs)]; [| discriminate].
      rewrite Hcalls0. auto.
  - rewrite Happ, Happ0, <- Hid0. split; [reflexivity |].
    repeat (split; [reflexivity |]).
    split.
    + rewrite <- Hev0. destruct Hev as [-> | [data ->]]; [left | right]; eauto.
    + right. destruct Hcalls as [[_ [e Habs]] | (c & Hc & -> & Hres)]; [discriminate |].
      exists c. rewrite <- Hcalls0. split; [exact Hc |]. split; [reflexivity |].
      exact Hres.
Qed.

(** The CRM step and the leads: the row of the lead is as it was, or carries
    the patch of the sync; the audit log and the calls are as they were. *)
Lemma hubspot_sync_leads env context b (a : LeadParams.t) lead w :
  exists w',
    hubspot_sync env context b a lead w = (w', inr tt)
    /\ calls w' = calls w
    /\ call_events w' = call_events w
    /\ (leads w' = leads w
        \/ exists l p, leads w !! lead.(Lead.id) = Some l
             /\ leads w' = <[lead.(Lead.id) := Lead.apply p l]> (leads w)).
Proof.
  unfold hubspot_sync.
  destruct (Business.hubspot_api_key b) as [key |]; [| eauto 10].
  destruct (truthy (Some key)); [| eauto 10].
  unfold createHubSpotContact, updateLead, record_outbound.
  destruct (split_first_space (LeadParams.name a)) as [firstname lastname].
  run_m.
  destruct (env_hubspot env) as [| [|] id]; try solve [eexists; simpl; eauto 10].
  destruct (env_fault env OpUpdateLead); try solve [eexists; simpl; eauto 10].
  simpl. destruct (leads w !! Lead.id lead) as [l |] eqn:Hl;
    eexists; simpl; eauto 10.
Qed.

Lemma record_lead_cases env context (a : LeadParams.t) lead w :
  let r := record_lead env context a lead w in
  leads (world_of r) = leads w
  /\ (call_events (world_of r) = call_events w
      \/ exists data,
           call_events (world_of r)
           = call_events w
             ++ [CallEvent.mk context.(callId) "lead_captured"
                   (("lead_id", DText lead.(Lead.id)) :: data)])
  /\ ((calls (world_of r) = calls w /\ exists e, result_of r = inl e)
      \/ exists c,
           calls w !! context.(callId) = Some c
           /\ calls (world_of r)
              = <[context.(callId) := Call.apply (lead_patch a) c]> (calls w)
           /\ result_of r
              = inr (msg_lead_saved a.(LeadParams.name) a.(LeadParams.email)
                       a.(LeadParams.phone))).
Proof.
  intros r. subst r. unfold record_lead, logCallEvent, updateCall.
  destruct (env_fault env OpInsertCallEvent); run_m;
    try solve [simpl; eauto 10];
    (destruct (env_fault env OpUpdateCall); run_m; try solve [simpl; eauto 10]);
    cbn [calls with_call_events];
    (destruct (calls w !! callId context) as [c |] eqn:Hc; run_m;
       [| solve [simpl; eauto 10]]);
    simpl; eauto 10.
Qed.

(** X27.  create_lead writes in a fixed order: the lead row, then the CRM
    sync onto that row, then the audit event, then the call row.  Either it
    stores nothing and answers with the request for a contact channel or with
    its apology; or it has stored exactly one lead row, under a new key, with
    the contact columns of the request.  In that case an audit event, if one
    is recorded, names that row; and the call row carries the caller's
    identity and the outcome exactly when the tool answers with the
    confirmation: otherwise the calls are as they were and the answer is the
    apology, although the lead is stored. *)
Theorem create_lead_writes_in_order env context (a : LeadParams.t) w :
  let r := createLeadCaptureTool env context a w in
  let id := fresh (dom (leads w)) in
  (leads (world_of r) = leads w
   /\ call_events (world_of r) = call_events w
   /\ calls (world_of r) = calls w
   /\ (result_of r = inr msg_need_contact \/ result_of r = inr msg_lead_failed))
  \/ exists row,
       leads w !! id = None
       /\ leads (world_of r) = <[id := row]> (leads w)
       /\ same_contact
            (lead_data context a (default "medium" a.(LeadParams.interest_level)) id) row
       /\ (call_events (world_of r) = call_events w
           \/ exists data,
                call_events (world_of r)
                = call_events w
                  ++ [CallEvent.mk context.(callId) "lead_captured"
                        (("lead_id", DText id) :: data)])
       /\ ((calls (world_of r) = calls w /\ result_of r = inr msg_lead_failed)
           \/ exists c,
                calls w !! context.(callId) = Some c
                /\ calls (world_of r)
                   = <[context.(callId) := Call.apply (lead_patch a) c]> (calls w)
                /\ result_of r
                   = inr (msg_lead_saved a.(LeadParams.name) a.(LeadParams.email)
                            a.(LeadParams.phone))).
Proof.
  intros r id. subst r.
  destruct (negb (truthy a.(LeadParams.email)) && negb (truthy a.(LeadParams.phone))
            && negb (truthy context.(callerPhone))) eqn:Hcontact.
  { left. unfold createLeadCaptureTool. rewrite Hcontact. simpl. auto. }
  destruct (getBusiness_cases env context.(businessId) w)
    as [[e H] | [H | (b & Hb & H)]].
  { left. unfold createLeadCaptureTool. rewrite Hcontact.
    rewrite (run_try_caught _ _ w w e) by (apply run_bind_throw; exact H).
    simpl. auto. }
  { left. unfold createLeadCaptureTool. rewrite Hcontact.
    rewrite (run_try_caught _ _ w w (Error "Business not found"))
      by (rewrite (run_bind _ _ _ _ _ H); reflexivity).
    simpl. auto. }
  destruct (decide (env_fault env OpCreateLead = NoFault)) as [Hins | Hins].
  2: { left. unfold createLeadCaptureTool. rewrite Hcontact.
       rewrite (run_try_caught _ _ w w
                  (if decide (env_fault env OpCreateLead = ErrorReply)
                   then PostgrestError OpCreateLead else ClientRejected OpCreateLead)).
       - simpl. auto.
       - rewrite (run_bind _ _ _ _ _ H). apply run_bind_throw. unfold createLead.
         destruct (env_fault env OpCreateLead); [contradiction | |]; reflexivity. }
  right.
  assert (Hget : env_fault env OpGetBusiness = NoFault).
  { unfold getBusiness in H.
    destruct (env_fault env OpGetBusiness); [reflexivity | discriminate ..]. }
  rewrite (create_lead_reaches_sync env context a w b);
    [| destruct (truthy (LeadParams.email a)), (truthy (LeadParams.phone a)),
         (truthy (callerPhone context)); simpl in *; congruence
     | repeat constructor; assumption | exact Hb].
  cbv zeta. fold id.
  set (row := lead_data context a (default "medium" a.(LeadParams.interest_level)) id).
  set (w0 := with_leads <[id := row]> w).
  destruct (hubspot_sync_leads env context b a row w0)
    as (w1 & Hsync & Hcalls1 & Hev1 & Hleads1).
  pose proof (record_lead_cases env context a row w1) as Hrec. cbv zeta in Hrec.
  destruct Hrec as (Hleads & Hev & Hcalls).
  assert (Hrow : exists row', leads w1 = <[id := row']> (leads w) /\ same_contact row row').
  { destruct Hleads1 as [-> | (l & p & Hl & ->)].
    - exists row. split; [reflexivity | apply same_contact_refl].
    - simpl in Hl. rewrite lookup_insert_eq in Hl. inversion Hl. subst l.
      exists (Lead.apply p row). simpl. rewrite insert_insert_eq.
      split; [reflexivity | repeat split]. }
  destruct Hrow as (row' & Hrow' & Hsame).
  exists row'. split; [apply fresh_key_unused |].
  unfold try_catch. rewrite (run_bind _ _ _ _ _ Hsync).
  destruct (record_lead env context a row w1) as [w' [e | answer]] eqn:Hrl;
    simpl in *.
  - rewrite Hleads. split; [exact Hrow' |]. split; [exact Hsame |]. split.
    + rewrite Hev1 in Hev. destruct Hev as [-> | [data ->]]; [left | right]; eauto.
    + left. destruct Hcalls as [[-> _] | (c & _ & _ & Habs)]; [| discriminate].
      rewrite Hcalls1. auto.
  - rewrite Hleads. split; [exact Hrow' |]. split; [exact Hsame |]. split.
    + rewrite Hev1 in Hev. destruct Hev as [-> | [data ->]]; [left | right]; eauto.
    + right. destruct Hcalls as [[_ [e Habs]] | (c & Hc & -> & Hres)]; [discriminate |].
      exists c. rewrite Hcalls1 in *. split; [exact Hc |]. split; [reflexivity |].
      exact Hres.
Qed.

(** ** The route of a single call *)

(** X28.  [GET /api/calls/:callId] reads and never writes, and no exception
    leaves it.  It sends a call row exactly when the store serves the read and
    has a row under the key, and then it sends that row.  It answers 500
    exactly when the client call itself rejects.  It answers 404 'Call not
    found' when the store has no such row, and also when the store answers
    the read with an error, which [getCall] turns into [null]. *)
Theorem get_call_answers env callId w :
  let r := get_call env callId w in
  world_of r = w
  /\ (forall call,
        result_of r = inr (CallJson call)
        <-> env_fault env OpGetCall = NoFault /\ calls w !! callId = Some call)
  /\ (result_of r = inr (ErrorJson 500 "Failed to retrieve call")
      <-> env_fault env OpGetCall = ClientThrows)
  /\ (result_of r = inr (ErrorJson 404 "Call not found")
      <-> env_fault env OpGetCall = ErrorReply
          \/ (env_fault env OpGetCall = NoFault /\ calls w !! callId = None)).
Proof.
  intros r. subst r. unfold get_call, getCall.
  destruct (env_fault env OpGetCall); run_m;
    [destruct (calls w !! callId) as [c |] |..]; simpl;
    (split; [reflexivity |]); repeat split;
    intros; try discriminate; try congruence; auto;
    repeat match goal with
           | H : _ /\ _ |- _ => destruct H
           | H : _ \/ _ |- _ => destruct H
           end;
    try discriminate; try congruence.
Qed.

(** ** The client of the store *)

(** X29.  [getSupabaseClient] creates the client at most once.  A client
    that the module holds is returned as it is, whatever the process
    environment holds by then.  Without one, a missing or empty URL, or the
    lack of both keys, throws the configuration error and nothing is kept;
    otherwise the client is built from the URL and from the service-role key,
    or from the anonymous key when the service-role key is absent or empty,
    and what is returned is what the module keeps.  A failed call keeps
    nothing. *)
Theorem getSupabaseClient_creates_once createClient process_env supabaseClient :
  let r := getSupabaseClient createClient process_env supabaseClient in
  (forall client, supabaseClient = Some client -> r = (Some client, inr client))
  /\ (forall client, snd r = inr client -> fst r = Some client)
  /\ (forall e, snd r = inl e -> fst r = supabaseClient)
  /\ (supabaseClient = None ->
      truthy process_env.(SUPABASE_URL) = false
      \/ (truthy process_env.(SUPABASE_SERVICE_ROLE_KEY) = false
          /\ truthy process_env.(SUPABASE_ANON_KEY) = false) ->
      r = (None, inl (Error msg_missing_configuration)))
  /\ (supabaseClient = None ->
      forall client, snd r = inr client ->
      exists url key,
        process_env.(SUPABASE_URL) = Some url
        /\ (if truthy process_env.(SUPABASE_SERVICE_ROLE_KEY)
            then process_env.(SUPABASE_SERVICE_ROLE_KEY)
            else process_env.(SUPABASE_ANON_KEY)) = Some key
        /\ createClient url key = inr client).
Proof.
  intros r. subst r. unfold getSupabaseClient, or_else.
  destruct supabaseClient as [cached |].
  { repeat split; try discriminate; intros; simpl in *; congruence. }
  destruct (SUPABASE_URL process_env) as [url |];
    destruct (truthy (SUPABASE_SERVICE_ROLE_KEY process_env)) eqn:Hrole;
    destruct (SUPABASE_SERVICE_ROLE_KEY process_env) as [role |];
    destruct (SUPABASE_ANON_KEY process_env) as [anon |];
    try discriminate;
    repeat match goal with
           | |- context [negb (truthy (Some ?s))] =>
               let H := fresh "Htr" in destruct (truthy (Some s)) eqn:H
           end;
    cbn [negb orb];
    try (destruct (createClient _ _) as [e | client] eqn:Hcreate);
    repeat split; simpl; intros;
      try discriminate; try congruence; eauto;
      repeat match goal with
             | H : _ \/ _ |- _ => destruct H
             | H : _ /\ _ |- _ => destruct H
             end;
      try discriminate; try congruence; eauto;
      match goal with
      | H : inr _ = inr _ |- _ => inversion H; subst; eauto 10
      end.
Qed.
